(** * The local entity store of the league admin site

    A shallow embedding of the local-storage data layer
    ([STORAGE_KEYS], [LS], [seedIfEmpty], the [fetch...] accessors,
    [postData] and [fetchData]) together with the part of the JavaScript
    platform it runs on: JSON values, [JSON.stringify], [JSON.parse],
    property access, truthiness and number coercion.

    Scope of the embedding.
    - A JavaScript value is a [value]: a tree, as every value that comes out
      of [JSON.parse] is.  Functions, symbols, cyclic objects and sparse
      arrays have no counterpart.
    - Numbers are the integers of magnitude at most 2^53, on which
      binary64 arithmetic is exact, and [NaN].  Strings are sequences of
      code units below 256.
    - An evaluation has three outcomes ([result]): it returns, it throws,
      or it leaves the fragment above ([Unmodelled]); nothing is claimed
      about the last.  [Unmodelled] is not an exception: no handler
      catches it.
    - [localStorage] is a finite map from strings to strings without a
      quota: [setItem] always succeeds.
    - An [async] function is embedded by the outcome its promise settles
      with: [Ok] for fulfilled, [Throw] for rejected.  [console.error]
      has no effect on the store and is left out.
    - The clock is an argument: [postData] and the operations defined
      through it take the time value that [new Date()] reads.

    The pages' activity log ([ActivityLogger]), which keeps its entries in
    [localStorage] as well, is embedded on the same platform. *)

From Stdlib Require Import ZArith NArith Ascii String List Bool Lia.
From Stdlib Require Import DecimalFacts DecimalN DecimalString.
From stdpp Require Import base option gmap strings.

Import ListNotations.
Local Open Scope Z_scope.

(* ================================================================== *)
(** * Outcomes *)

Inductive error := TypeError | SyntaxError.

Inductive result (A : Type) : Type :=
| Ok (a : A)
| Throw (e : error)
| Unmodelled.

Arguments Ok {A} a.
Arguments Throw {A} e.
Arguments Unmodelled {A}.

Definition rbind {A B} (r : result A) (f : A -> result B) : result B :=
  match r with
  | Ok a => f a
  | Throw e => Throw e
  | Unmodelled => Unmodelled
  end.

Declare Scope res_scope.
Delimit Scope res_scope with res.
Notation "x <-- r ;; k" := (rbind r (fun x => k))
  (at level 100, r at next level, right associativity) : res_scope.

Fixpoint rmapM {A B} (f : A -> result B) (l : list A) : result (list B) :=
  match l with
  | [] => Ok []
  | a :: l' =>
      (b <-- f a ;; bs <-- rmapM f l' ;; Ok (b :: bs))%res
  end.

Fixpoint rfoldM {A B} (f : B -> A -> result B) (l : list A) (b : B) : result B :=
  match l with
  | [] => Ok b
  | a :: l' => (b' <-- f b a ;; rfoldM f l' b')%res
  end.

(* ================================================================== *)
(** * JavaScript values *)

Inductive number := NaN | Int (z : Z).

Unset Elimination Schemes.
Inductive value :=
| VUndefined
| VNull
| VBool (b : bool)
| VNum (n : number)
| VStr (s : string)
| VArr (elems : list value)
| VObj (props : list (string * value)).
Set Elimination Schemes.

Definition obj := list (string * value).

(** The integers on which binary64 arithmetic is exact. *)
Definition max_exact : Z := 2 ^ 53.
Definition exact (z : Z) : bool := (- max_exact <=? z) && (z <=? max_exact).

(** [ToBoolean]. *)
Definition truthy (v : value) : bool :=
  match v with
  | VUndefined | VNull => false
  | VBool b => b
  | VNum NaN => false
  | VNum (Int z) => negb (z =? 0)
  | VStr s => negb (String.eqb s "")
  | VArr _ | VObj _ => true
  end.

(** [a || b] on values already evaluated ([b] has no effect here). *)
Definition js_or (a b : value) : value := if truthy a then a else b.

(** [a + b] on numbers. *)
Definition num_add (a b : number) : result number :=
  match a, b with
  | Int x, Int y => if exact (x + y) then Ok (Int (x + y)) else Unmodelled
  | _, _ => Ok NaN
  end.

(** ** Decimal digits *)

Definition digit_of_char (c : ascii) : option (Decimal.uint -> Decimal.uint) :=
  match c with
  | "0" => Some Decimal.D0 | "1" => Some Decimal.D1 | "2" => Some Decimal.D2
  | "3" => Some Decimal.D3 | "4" => Some Decimal.D4 | "5" => Some Decimal.D5
  | "6" => Some Decimal.D6 | "7" => Some Decimal.D7 | "8" => Some Decimal.D8
  | "9" => Some Decimal.D9 | _ => None
  end%char.

Definition is_digit (c : ascii) : bool :=
  match digit_of_char c with Some _ => true | None => false end.

(** The longest prefix of decimal digits, and what follows it. *)
Fixpoint read_digits (s : string) : Decimal.uint * string :=
  match s with
  | EmptyString => (Decimal.Nil, EmptyString)
  | String c r =>
      match digit_of_char c with
      | Some d => let '(ds, r') := read_digits r in (d ds, r')
      | None => (Decimal.Nil, s)
      end
  end.

Definition string_of_N (n : N) : string := NilEmpty.string_of_uint (N.to_uint n).

(** [Number::toString] on the modelled numbers (all below 10^21, where
    the digits are written out in full). *)
Definition number_to_string (n : number) : string :=
  match n with
  | NaN => "NaN"
  | Int z =>
      if z <? 0 then String "-" (string_of_N (Z.abs_N z))
      else string_of_N (Z.abs_N z)
  end.

(** A digit sequence has a leading zero it should not have. *)
Definition leading_zero (d : Decimal.uint) : bool :=
  match d with
  | Decimal.D0 Decimal.Nil => false
  | Decimal.D0 _ => true
  | _ => false
  end.

(** ** Property keys and objects

    The own properties of an ordinary object are kept in the order in
    which the language enumerates them: array-index keys first, in
    ascending numeric order, then the other keys in order of creation. *)

(** A canonical numeric string below 2^32 - 1. *)
Definition array_index (k : string) : option N :=
  match read_digits k with
  | (Decimal.Nil, _) => None
  | (d, EmptyString) =>
      if leading_zero d then None
      else if (N.of_uint d <? 2 ^ 32 - 1)%N then Some (N.of_uint d) else None
  | _ => None
  end.

(** [precedes k k']: a new key [k] is enumerated before the present key [k']. *)
Definition precedes (k k' : string) : bool :=
  match array_index k, array_index k' with
  | Some a, Some b => (a <? b)%N
  | Some _, None => true
  | None, _ => false
  end.

(** [CreateDataProperty] / assignment to an own data property. *)
Fixpoint obj_define (k : string) (v : value) (o : obj) : obj :=
  match o with
  | [] => [(k, v)]
  | (k', v') :: o' =>
      if String.eqb k k' then (k, v) :: o'
      else if precedes k k' then (k, v) :: (k', v') :: o'
      else (k', v') :: obj_define k v o'
  end.

(** The own property [k], if there is one. *)
Fixpoint obj_own (k : string) (o : obj) : option value :=
  match o with
  | [] => None
  | (k', v) :: o' => if String.eqb k k' then Some v else obj_own k o'
  end.

(** The property names an ordinary object inherits from [Object.prototype]. *)
Definition object_prototype_keys : list string :=
  [ "constructor"; "__defineGetter__"; "__defineSetter__"; "hasOwnProperty";
    "__lookupGetter__"; "__lookupSetter__"; "isPrototypeOf";
    "propertyIsEnumerable"; "toString"; "valueOf"; "__proto__";
    "toLocaleString" ].

Definition inherited (k : string) : bool :=
  existsb (String.eqb k) object_prototype_keys.

(** [o[k]] for an ordinary object [o]: the inherited members are functions
    and lie outside the value model. *)
Definition obj_get (k : string) (o : obj) : result value :=
  match obj_own k o with
  | Some v => Ok v
  | None => if inherited k then Unmodelled else Ok VUndefined
  end.

(** [o[k] = v] for an ordinary object [o]; assigning [__proto__] runs the
    inherited setter. *)
Definition obj_set (k : string) (v : value) (o : obj) : result obj :=
  if String.eqb k "__proto__" then Unmodelled else Ok (obj_define k v o).

(** [x.k] for one of the names [id], [quantity], [status], [category],
    which no built-in prototype defines: a [TypeError] on [null] and
    [undefined], the own property of an object, [undefined] on arrays and
    primitives. *)
Definition get_field (k : string) (x : value) : result value :=
  match x with
  | VUndefined | VNull => Throw TypeError
  | VObj o => obj_get k o
  | _ => Ok VUndefined
  end.

(** Strict equality [a === b] where [b] is a string literal. *)
Definition strict_eq_str (a : value) (s : string) : bool :=
  match a with
  | VStr t => String.eqb t s
  | _ => false
  end.

(* ================================================================== *)
(** * Coercions *)

(** The white space [StringToNumber] trims that fits in a code unit
    below 256: TAB, LF, VT, FF, CR, SP and NBSP. *)
Definition js_space (c : ascii) : bool :=
  match c with
  | "009" | "010" | "011" | "012" | "013" | " " | "160" => true
  | _ => false
  end%char.

Fixpoint skip_js_space (s : string) : string :=
  match s with
  | String c r => if js_space c then skip_js_space r else s
  | EmptyString => EmptyString
  end.

(** The characters a [StringNumericLiteral] can begin with. *)
Definition numeric_start (c : ascii) : bool :=
  is_digit c ||
  match c with "+" | "-" | "." | "I" => true | _ => false end%char.

(** [StringToNumber]: the empty string is 0, a signed run of digits is
    its value, a string that cannot begin a numeric literal is [NaN];
    the other literals (fractions, exponents, radix prefixes, Infinity,
    negative zero, integers past 2^53) lie outside the number model. *)
Definition StringToNumber (s : string) : result number :=
  match skip_js_space s with
  | EmptyString => Ok (Int 0)
  | String c r as t =>
      let '(neg, body) :=
        match c with
        | "-" => (true, r)
        | "+" => (false, r)
        | _ => (false, t)
        end%char in
      match read_digits body with
      | (Decimal.Nil, _) => if numeric_start c then Unmodelled else Ok NaN
      | (d, rest) =>
          match skip_js_space rest with
          | EmptyString =>
              let z := Z.of_N (N.of_uint d) in
              if neg then
                if (z =? 0) || negb (exact z) then Unmodelled else Ok (Int (- z))
              else if exact z then Ok (Int z) else Unmodelled
          | _ => Unmodelled
          end
      end
  end.

(** [ToNumber]. An object converts through the inherited [toString] to
    [NaN] unless an own [valueOf] or [toString] shadows the inherited one;
    arrays convert through [join] and are left out. *)
Definition ToNumber (v : value) : result number :=
  match v with
  | VUndefined => Ok NaN
  | VNull => Ok (Int 0)
  | VBool b => Ok (Int (if b then 1 else 0))
  | VNum n => Ok n
  | VStr s => StringToNumber s
  | VArr _ => Unmodelled
  | VObj o =>
      match obj_own "valueOf" o, obj_own "toString" o with
      | None, None => Ok NaN
      | _, _ => Unmodelled
      end
  end.

(** [Number(x)], as a number. *)
Definition Number (x : value) : result number := ToNumber x.

(** [ToString], as a template literal applies it to a substitution. *)
Definition ToString (v : value) : result string :=
  match v with
  | VUndefined => Ok "undefined"
  | VNull => Ok "null"
  | VBool b => Ok (if b then "true" else "false")
  | VNum n => Ok (number_to_string n)
  | VStr s => Ok s
  | VArr _ | VObj _ => Unmodelled
  end.

Definition num_max (a b : number) : number :=
  match a, b with
  | Int x, Int y => Int (Z.max x y)
  | _, _ => NaN
  end.

(** [Math.max(...args)]: every argument is coerced, [NaN] is contagious;
    without arguments the result is -Infinity. *)
Definition Math_max (args : list value) : result number :=
  (ns <-- rmapM ToNumber args ;;
   match ns with
   | [] => Unmodelled
   | n :: ns' => Ok (fold_left num_max ns' n)
   end)%res.

(** ** String methods *)

(** [s.startsWith(p)]. *)
Definition startsWith (s p : string) : bool := String.prefix p s.

(** [s.endsWith(p)]. *)
Fixpoint endsWith (s p : string) : bool :=
  String.eqb s p ||
  match s with
  | EmptyString => false
  | String _ r => endsWith r p
  end.

(** [s.split(sep)] for a one-character separator. *)
Fixpoint split (sep : ascii) (s : string) : list string :=
  match s with
  | EmptyString => [EmptyString]
  | String c r =>
      if Ascii.eqb c sep then EmptyString :: split sep r
      else match split sep r with
           | h :: t => String c h :: t
           | [] => [String c EmptyString]
           end
  end.

(* ================================================================== *)
(** * JSON *)

Definition dquote : ascii := "034"%char.
Definition backslash : ascii := "092"%char.

(** The lower-case hexadecimal digit of a number below 16. *)
Definition hex_char (n : N) : ascii :=
  ascii_of_N (if (n <? 10)%N then 48 + n else 87 + n)%N.

(** The value of a hexadecimal digit of either case. *)
Definition hex_value (c : ascii) : option N :=
  let n := N_of_ascii c in
  if ((48 <=? n) && (n <=? 57))%N then Some (n - 48)%N
  else if ((97 <=? n) && (n <=? 102))%N then Some (n - 87)%N
  else if ((65 <=? n) && (n <=? 70))%N then Some (n - 55)%N
  else None.

(** [QuoteJSONString], one code unit. *)
Definition quote_char (c : ascii) : string :=
  if Ascii.eqb c "008" then String backslash "b"
  else if Ascii.eqb c "009" then String backslash "t"
  else if Ascii.eqb c "010" then String backslash "n"
  else if Ascii.eqb c "012" then String backslash "f"
  else if Ascii.eqb c "013" then String backslash "r"
  else if Ascii.eqb c dquote then String backslash (String dquote "")
  else if Ascii.eqb c backslash then String backslash (String backslash "")
  else if (N_of_ascii c <? 32)%N then
    String backslash
      (String "u" (String "0" (String "0"
         (String (hex_char (N_of_ascii c / 16))
            (String (hex_char (N_of_ascii c mod 16)) "")))))
  else String c "".

Fixpoint quote_body (s : string) : string :=
  match s with
  | EmptyString => EmptyString
  | String c r => quote_char c +:+ quote_body r
  end.

Definition quote (s : string) : string :=
  String dquote (quote_body s +:+ String dquote "").

Fixpoint join_comma (l : list string) : string :=
  match l with
  | [] => ""
  | [s] => s
  | s :: l' => s +:+ String "," (join_comma l')
  end.

Definition or_null (o : option string) : string :=
  match o with Some s => s | None => "null" end.

(** [JSON.stringify(v)]: [None] stands for the result [undefined].  In an
    array [undefined] is written as [null]; in an object a property whose
    value is [undefined] is left out; [NaN] is written as [null]. *)
Fixpoint stringify (v : value) : option string :=
  match v with
  | VUndefined => None
  | VNull => Some "null"
  | VBool b => Some (if b then "true" else "false")
  | VNum NaN => Some "null"
  | VNum (Int z) => Some (number_to_string (Int z))
  | VStr s => Some (quote s)
  | VArr l =>
      Some (String "[" (join_comma (map (fun x => or_null (stringify x)) l)
                        +:+ "]"))
  | VObj o =>
      let fix members (o : obj) : list string :=
        match o with
        | [] => []
        | (k, x) :: o' =>
            match stringify x with
            | Some s => (quote k +:+ String ":" s) :: members o'
            | None => members o'
            end
        end in
      Some (String "{" (join_comma (members o) +:+ "}"))
  end.

(** The members [stringify] writes for the properties of an object. *)
Fixpoint members (o : obj) : list string :=
  match o with
  | [] => []
  | (k, x) :: o' =>
      match stringify x with
      | Some s => (quote k +:+ String ":" s) :: members o'
      | None => members o'
      end
  end.

(** JSON white space. *)
Definition json_space (c : ascii) : bool :=
  match c with
  | " " | "009" | "010" | "013" => true
  | _ => false
  end%char.

Fixpoint skip_ws (s : string) : string :=
  match s with
  | String c r => if json_space c then skip_ws r else s
  | EmptyString => EmptyString
  end.

Fixpoint strip_prefix (p s : string) : option string :=
  match p, s with
  | EmptyString, _ => Some s
  | String a p', String b s' => if Ascii.eqb a b then strip_prefix p' s' else None
  | String _ _, EmptyString => None
  end.

(** The rest of a literal name ([null], [true], [false]). *)
Definition expect (word rest : string) (v : value) : result (value * string) :=
  match strip_prefix word rest with
  | Some r => Ok (v, r)
  | None => Throw SyntaxError
  end.

Definition unescape (e : ascii) : option ascii :=
  if Ascii.eqb e dquote then Some dquote
  else if Ascii.eqb e backslash then Some backslash
  else match e with
       | "/" => Some "/" | "b" => Some "008" | "f" => Some "012"
       | "n" => Some "010" | "r" => Some "013" | "t" => Some "009"
       | _ => None
       end%char.

(** A string literal after its opening quote. An escaped code unit
    above 255 lies outside the string model. *)
Fixpoint parse_string (s : string) : result (string * string) :=
  match s with
  | EmptyString => Throw SyntaxError
  | String c r =>
      if Ascii.eqb c dquote then Ok (EmptyString, r)
      else if Ascii.eqb c backslash then
        match r with
        | String "u" (String h1 (String h2 (String h3 (String h4 r')))) =>
            match hex_value h1, hex_value h2, hex_value h3, hex_value h4 with
            | Some a, Some b, Some c', Some d =>
                if ((a =? 0) && (b =? 0))%N then
                  (p <-- parse_string r' ;;
                   Ok (String (ascii_of_N (16 * c' + d)) (fst p), snd p))%res
                else Unmodelled
            | _, _, _, _ => Throw SyntaxError
            end
        | String e r' =>
            match unescape e with
            | Some c' =>
                (p <-- parse_string r' ;; Ok (String c' (fst p), snd p))%res
            | None => Throw SyntaxError
            end
        | EmptyString => Throw SyntaxError
        end
      else if (N_of_ascii c <? 32)%N then Throw SyntaxError
      else (p <-- parse_string r ;; Ok (String c (fst p), snd p))%res
  end.

(** A number literal. Fractions, exponents, negative zero and integers
    past 2^53 lie outside the number model. *)
Definition parse_number (s : string) : result (value * string) :=
  let '(neg, body) :=
    match s with
    | String "-" r => (true, r)
    | _ => (false, s)
    end in
  match read_digits body with
  | (Decimal.Nil, _) => Throw SyntaxError
  | (d, rest) =>
      if leading_zero d then Throw SyntaxError
      else
        match rest with
        | String ("." | "e" | "E") _ => Unmodelled
        | _ =>
            let z := Z.of_N (N.of_uint d) in
            if neg then
              if (z =? 0) || negb (exact z) then Unmodelled
              else Ok (VNum (Int (- z)), rest)
            else if exact z then Ok (VNum (Int z), rest) else Unmodelled
        end
  end.

Fixpoint parse_value (fuel : nat) (s : string) : result (value * string) :=
  match fuel with
  | O => Unmodelled
  | S fuel =>
      match skip_ws s with
      | EmptyString => Throw SyntaxError
      | String c r as t =>
          if Ascii.eqb c "n" then expect "ull" r VNull
          else if Ascii.eqb c "t" then expect "rue" r (VBool true)
          else if Ascii.eqb c "f" then expect "alse" r (VBool false)
          else if Ascii.eqb c dquote then
            (p <-- parse_string r ;; Ok (VStr (fst p), snd p))%res
          else if Ascii.eqb c "[" then
            match skip_ws r with
            | String "]" r' => Ok (VArr [], r')
            | _ => (p <-- parse_elements fuel r ;; Ok (VArr (fst p), snd p))%res
            end
          else if Ascii.eqb c "{" then
            match skip_ws r with
            | String "}" r' => Ok (VObj [], r')
            | _ => (p <-- parse_members fuel r [] ;; Ok (VObj (fst p), snd p))%res
            end
          else if Ascii.eqb c "-" || is_digit c then parse_number t
          else Throw SyntaxError
      end
  end

with parse_elements (fuel : nat) (s : string) : result (list value * string) :=
  match fuel with
  | O => Unmodelled
  | S fuel =>
      (p <-- parse_value fuel s ;;
       match skip_ws (snd p) with
       | String "," r =>
           (q <-- parse_elements fuel r ;; Ok (fst p :: fst q, snd q))
       | String "]" r => Ok ([fst p], r)
       | _ => Throw SyntaxError
       end)%res
  end

with parse_members (fuel : nat) (s : string) (acc : obj) : result (obj * string) :=
  match fuel with
  | O => Unmodelled
  | S fuel =>
      match skip_ws s with
      | String c r =>
          if Ascii.eqb c dquote then
            (k <-- parse_string r ;;
             match skip_ws (snd k) with
             | String ":" r1 =>
                 (p <-- parse_value fuel r1 ;;
                  let acc' := obj_define (fst k) (fst p) acc in
                  match skip_ws (snd p) with
                  | String "," r2 => parse_members fuel r2 acc'
                  | String "}" r2 => Ok (acc', r2)
                  | _ => Throw SyntaxError
                  end)
             | _ => Throw SyntaxError
             end)%res
          else Throw SyntaxError
      | EmptyString => Throw SyntaxError
      end
  end.

(** [JSON.parse(s)]. *)
Definition JSON_parse (s : string) : result value :=
  (p <-- parse_value (2 * String.length s + 2) s ;;
   match skip_ws (snd p) with
   | EmptyString => Ok (fst p)
   | _ => Throw SyntaxError
   end)%res.

(* ================================================================== *)
(** * The clock: [new Date().toISOString()] *)

Definition ms_per_day : Z := 86400000.

(** Year, month and day of month of a day number counted from
    1970-01-01, in the proleptic Gregorian calendar. *)
Definition civil_from_days (day : Z) : Z * Z * Z :=
  let z := day + 719468 in
  let era := z / 146097 in
  let doe := z - era * 146097 in
  let yoe := (doe - doe / 1460 + doe / 36524 - doe / 146096) / 365 in
  let doy := doe - (365 * yoe + yoe / 4 - yoe / 100) in
  let mp := (5 * doy + 2) / 153 in
  let d := doy - (153 * mp + 2) / 5 + 1 in
  let m := if mp <? 10 then mp + 3 else mp - 9 in
  ((yoe + era * 400) + (if m <=? 2 then 1 else 0), m, d).

Definition digit_char (n : Z) : ascii := hex_char (Z.to_N (n mod 10)).

Definition pad2 (n : Z) : string :=
  String (digit_char (n / 10)) (String (digit_char n) "").
Definition pad3 (n : Z) : string :=
  String (digit_char (n / 100)) (pad2 n).
Definition pad4 (n : Z) : string :=
  String (digit_char (n / 1000)) (pad3 n).

(** [Date.prototype.toISOString] of the time value [t] (milliseconds
    since the epoch), for the years 0000 to 9999; the other years are
    written with a sign and six digits and are left out. *)
Definition toISOString (t : Z) : result string :=
  let '(y, m, d) := civil_from_days (t / ms_per_day) in
  let ms := t mod ms_per_day in
  if (0 <=? y) && (y <=? 9999) then
    Ok (pad4 y +:+ "-" +:+ pad2 m +:+ "-" +:+ pad2 d +:+ "T" +:+
        pad2 (ms / 3600000) +:+ ":" +:+ pad2 (ms / 60000 mod 60) +:+ ":" +:+
        pad2 (ms / 1000 mod 60) +:+ "." +:+ pad3 (ms mod 1000) +:+ "Z")
  else Unmodelled.

(* ================================================================== *)
(** * [localStorage] and the store monad *)

Abbreviation Storage := (gmap string string).

(** A computation over [localStorage]: an outcome and the storage it
    leaves behind (also when it throws). *)
Definition M (A : Type) : Type := Storage -> result A * Storage.

Definition ret {A} (a : A) : M A := fun st => (Ok a, st).

Definition lift {A} (r : result A) : M A := fun st => (r, st).

Definition bind {A B} (m : M A) (f : A -> M B) : M B :=
  fun st =>
    match m st with
    | (Ok a, st') => f a st'
    | (Throw e, st') => (Throw e, st')
    | (Unmodelled, st') => (Unmodelled, st')
    end.

(** [try { m } catch (e) { h e }]. *)
Definition try_catch {A} (m : M A) (h : error -> M A) : M A :=
  fun st =>
    match m st with
    | (Throw e, st') => h e st'
    | r => r
    end.

Declare Scope store_scope.
Delimit Scope store_scope with store.
Notation "x <~ m ;; k" := (bind m (fun x => k))
  (at level 100, m at next level, right associativity) : store_scope.
Notation "m ;;; k" := (bind m (fun _ => k))
  (at level 100, right associativity) : store_scope.

(** [localStorage.getItem(key)]: [None] stands for [null]. *)
Definition getItem (key : string) : M (option string) :=
  fun st => (Ok (st !! key), st).

(** [localStorage.setItem(key, text)]. *)
Definition setItem (key text : string) : M unit :=
  fun st => (Ok tt, <[key := text]> st).

(* ================================================================== *)
(** * The store *)

Module STORAGE_KEYS.
Definition inventory : string := "bl_admin_inventory".
Definition teams : string := "bl_admin_teams".
Definition coaches : string := "bl_admin_coaches".
Definition schedule : string := "bl_admin_schedule".
Definition locations : string := "bl_admin_locations".
Definition categories : string := "bl_admin_categories".
Definition statuses : string := "bl_admin_statuses".
Definition concessions : string := "bl_admin_concessions".
Definition eventUsage : string := "bl_admin_event_usage".
Definition eventRequests : string := "bl_admin_event_requests".
End STORAGE_KEYS.

(** [LS.get(key, fallback)]. *)
Definition LS_get (key : string) (fallback : value) : M value :=
  try_catch
    (v <~ getItem key ;;
     match v with
     | Some s => if negb (String.eqb s "") then lift (JSON_parse s)
                 else ret fallback
     | None => ret fallback
     end)%store
    (fun _ => ret fallback).

(** The text [setItem] receives from [JSON.stringify(v)]: the result
    [undefined] is converted to the text [undefined]. *)
Definition stored (v : value) : string :=
  match stringify v with Some s => s | None => "undefined" end.

(** [LS.set(key, value)]. *)
Definition LS_set (key : string) (v : value) : M unit :=
  try_catch (setItem key (stored v)) (fun _ => ret tt).

Definition num (z : Z) : value := VNum (Int z).

Definition default_teams : value :=
  VArr [ VObj [("id", num 1); ("name", VStr "Bucksport Blue Jays")];
         VObj [("id", num 2); ("name", VStr "Softball Stars")];
         VObj [("id", num 3); ("name", VStr "Minor League All-Stars")] ].

Definition default_coaches : value :=
  VArr [ VObj [("id", num 1); ("name", VStr "Coach Bob")];
         VObj [("id", num 2); ("name", VStr "Coach Sarah")];
         VObj [("id", num 3); ("name", VStr "Coach Mike")] ].

Definition default_schedule : value :=
  VArr [ VObj [("id", num 1); ("date", VStr "2025-07-20"); ("time", VStr "18:00");
               ("type", VStr "game");
               ("title", VStr "Bucksport Blue Jays vs. Orland Orcas");
               ("location", VStr "Field A"); ("team_id", num 1);
               ("coach_id", num 1); ("notes", VStr "Championship game!")];
         VObj [("id", num 2); ("date", VStr "2025-07-21"); ("time", VStr "17:30");
               ("type", VStr "practice");
               ("title", VStr "Softball Team Practice");
               ("location", VStr "Field B"); ("team_id", num 2);
               ("coach_id", num 2); ("notes", VStr "Focus on fielding drills.")];
         VObj [("id", num 3); ("date", VStr "2025-07-20"); ("time", VStr "16:00");
               ("type", VStr "game"); ("title", VStr "Minor League All-Stars");
               ("location", VStr "Field C"); ("team_id", num 3);
               ("coach_id", num 3); ("notes", VStr "")] ].

Definition default_locations : value :=
  VArr (map VStr ["Field A"; "Field B"; "Field C"; "Community Park"]).

Definition default_categories : value :=
  VArr (map VStr ["jersey"; "pants"; "hat"; "cleats"; "bat"; "ball"; "glove";
                  "helmet"; "other"]).

Definition default_statuses : value :=
  VArr (map VStr ["in-stock"; "low-stock"; "out-of-stock"; "needs-repair";
                  "retired"]).

(** One step of [seedIfEmpty]:
    [if (!LS.get(key)) { LS.set(key, dflt); }]. *)
Definition seed (key : string) (dflt : value) : M unit :=
  (v <~ LS_get key VUndefined ;;
   if negb (truthy v) then LS_set key dflt else ret tt)%store.

(** The collections in the order in which [seedIfEmpty] visits them. *)
Definition seeds : list (string * value) :=
  [ (STORAGE_KEYS.teams, default_teams);
    (STORAGE_KEYS.coaches, default_coaches);
    (STORAGE_KEYS.schedule, default_schedule);
    (STORAGE_KEYS.locations, default_locations);
    (STORAGE_KEYS.categories, default_categories);
    (STORAGE_KEYS.statuses, default_statuses);
    (STORAGE_KEYS.inventory, VArr []);
    (STORAGE_KEYS.concessions, VArr []);
    (STORAGE_KEYS.eventUsage, VObj []);
    (STORAGE_KEYS.eventRequests, VArr []) ].

Fixpoint seed_all (l : list (string * value)) : M unit :=
  match l with
  | [] => ret tt
  | (k, d) :: l' => (seed k d ;;; seed_all l')%store
  end.

Definition seedIfEmpty : M unit := seed_all seeds.

(** ** Array methods on a value that need not be an array *)

(** The receiver of [map], [filter], [reduce] or [push]: on anything but
    an array the call is a [TypeError] ([null] and [undefined] have no
    properties, the other values have no such method). *)
Definition as_array (v : value) : result (list value) :=
  match v with
  | VArr l => Ok l
  | _ => Throw TypeError
  end.

(** [x.length]. *)
Definition get_length (x : value) : result value :=
  match x with
  | VUndefined | VNull => Throw TypeError
  | VArr l => Ok (num (Z.of_nat (List.length l)))
  | VStr s => Ok (num (Z.of_nat (String.length s)))
  | VObj o => obj_get "length" o
  | VBool _ | VNum _ => Ok VUndefined
  end.

(** [x[k]] for a computed string key: on arrays and primitives the
    indices and prototype members are left out. *)
Definition get_index (k : string) (x : value) : result value :=
  match x with
  | VUndefined | VNull => Throw TypeError
  | VObj o => obj_get k o
  | _ => Unmodelled
  end.

(** [x[k] = v], returning the updated [x]. *)
Definition set_index (k : string) (v : value) (x : value) : result value :=
  match x with
  | VUndefined | VNull => Throw TypeError
  | VObj o => (o' <-- obj_set k v o ;; Ok (VObj o'))%res
  | _ => Unmodelled
  end.

Fixpoint rfilterM {A} (p : A -> result bool) (l : list A) : result (list A) :=
  match l with
  | [] => Ok []
  | a :: l' =>
      (b <-- p a ;; r <-- rfilterM p l' ;; Ok (if b then a :: r else r))%res
  end.

(** The own enumerable properties an object spread copies. *)
Fixpoint index_props (i : N) (l : list value) : obj :=
  match l with
  | [] => []
  | x :: l' => (string_of_N i, x) :: index_props (N.succ i) l'
  end.

Fixpoint chars (s : string) : list value :=
  match s with
  | EmptyString => []
  | String c r => VStr (String c "") :: chars r
  end.

Definition own_props (v : value) : obj :=
  match v with
  | VObj o => o
  | VArr l => index_props 0 l
  | VStr s => index_props 0 (chars s)
  | _ => []
  end.

(** [CreateDataProperty] for each of [props], in order. *)
Definition define_all (props target : obj) : obj :=
  fold_left (fun o kv => obj_define (fst kv) (snd kv) o) props target.

(** [{ ...target, ...source }] where [target] is under construction. *)
Definition spread (target : obj) (source : value) : obj :=
  define_all (own_props source) target.

(** ** The accessors *)

Definition fetchInventory : M value := LS_get STORAGE_KEYS.inventory (VArr []).

(** [Number(i.quantity) || 0]. *)
Definition or_zero (n : number) : number :=
  if truthy (VNum n) then n else Int 0.

Definition quantity (i : value) : result number :=
  (q <-- get_field "quantity" i ;; n <-- Number q ;; Ok (or_zero n))%res.

(** [items.reduce((a, i) => a + (Number(i.quantity) || 0), 0)]. *)
Definition sum_quantity (items : value) : result number :=
  (l <-- as_array items ;;
   rfoldM (fun a i => q <-- quantity i ;; num_add a q) l (Int 0))%res.

(** [items.filter(i => i.status === s)]. *)
Definition with_status (s : string) (items : value) : result value :=
  (l <-- as_array items ;;
   r <-- rfilterM (fun i => st <-- get_field "status" i ;; Ok (strict_eq_str st s)) l ;;
   Ok (VArr r))%res.

Definition fetchInventorySummary : M value :=
  (items <~ LS_get STORAGE_KEYS.inventory (VArr []) ;;
   lift (total <-- sum_quantity items ;;
         a <-- with_status "in-stock" items ;; available <-- sum_quantity a ;;
         c <-- with_status "checked-out" items ;; checked_out <-- sum_quantity c ;;
         r <-- with_status "needs-repair" items ;; needs_repair <-- sum_quantity r ;;
         Ok (VObj [ ("total_items", VNum total); ("available", VNum available);
                    ("checked_out", VNum checked_out);
                    ("needs_repair", VNum needs_repair) ]))%res)%store.

Definition fetchCoaches : M value := LS_get STORAGE_KEYS.coaches (VArr []).

Definition fetchTeams : M value := LS_get STORAGE_KEYS.teams (VArr []).

(** [SameValueZero], the equality of [Set]: objects and arrays are
    compared by identity, and the values met here are separate objects. *)
Definition same_value_zero (a b : value) : bool :=
  match a, b with
  | VUndefined, VUndefined | VNull, VNull => true
  | VBool x, VBool y => Bool.eqb x y
  | VNum NaN, VNum NaN => true
  | VNum (Int x), VNum (Int y) => x =? y
  | VStr x, VStr y => String.eqb x y
  | _, _ => false
  end.

(** [Array.from(new Set(l))]: the first occurrences, in order. *)
Fixpoint set_from (seen l : list value) : list value :=
  match l with
  | [] => []
  | x :: l' =>
      if existsb (same_value_zero x) seen then set_from seen l'
      else x :: set_from (x :: seen) l'
  end.

Definition fetchCategories : M value :=
  (cats <~ LS_get STORAGE_KEYS.categories (VArr []) ;;
   test <~ lift (if truthy cats then get_length cats else Ok cats) ;;
   if truthy test then ret cats
   else
     items <~ LS_get STORAGE_KEYS.inventory (VArr []) ;;
     lift (l <-- as_array items ;;
           cs <-- rmapM (get_field "category") l ;;
           Ok (VArr (set_from [] (List.filter truthy cs))))%res)%store.

Definition fetchStatuses : M value := LS_get STORAGE_KEYS.statuses (VArr []).

(** ** The dispatchers *)

(** [endpoint.split('/')[2]] as a property key. *)
Definition segment (endpoint : string) : string :=
  match nth_error (split "/" endpoint) 2 with
  | Some s => s
  | None => "undefined"
  end.

Definition is_usage (endpoint : string) : bool :=
  startsWith endpoint "/events/" && endsWith endpoint "/usage".

Definition fetchData (endpoint : string) : M value :=
  try_catch
    (if String.eqb endpoint "/schedule" || String.eqb endpoint "/events" then
       LS_get STORAGE_KEYS.schedule (VArr [])
     else if String.eqb endpoint "/locations" then
       LS_get STORAGE_KEYS.locations (VArr [])
     else if String.eqb endpoint "/concessions" then
       LS_get STORAGE_KEYS.concessions (VArr [])
     else if is_usage endpoint then
       let id := segment endpoint in
       usage <~ LS_get STORAGE_KEYS.eventUsage (VObj []) ;;
       u <~ lift (get_index id usage) ;;
       ret (js_or u (VArr []))
     else ret (VArr []))%store
    (fun _ => ret (VArr [])).

Definition postData (now : Z) (endpoint : string) (data : value) : M value :=
  try_catch
    (if String.eqb endpoint "/concessions" then
       list <~ LS_get STORAGE_KEYS.concessions (VArr []) ;;
       len <~ lift (get_length list) ;;
       nextId <~ lift
         (if truthy len then
            l <-- as_array list ;;
            ids <-- rmapM (fun i => x <-- get_field "id" i ;; Ok (js_or x (num 0))) l ;;
            m <-- Math_max ids ;;
            num_add m (Int 1)
          else Ok (Int 1))%res ;;
       let item := VObj (spread [("id", VNum nextId)] data) in
       l <~ lift (as_array list) ;;
       let list' := VArr (l ++ [item]) in
       LS_set STORAGE_KEYS.concessions list' ;;;
       ret item
     else if is_usage endpoint then
       let id := segment endpoint in
       usage <~ LS_get STORAGE_KEYS.eventUsage (VObj []) ;;
       usage' <~ lift (set_index id data usage) ;;
       LS_set STORAGE_KEYS.eventUsage usage' ;;;
       ret (VObj [("status", VStr "success")])
     else if String.eqb endpoint "/schedule/request" then
       reqs <~ LS_get STORAGE_KEYS.eventRequests (VArr []) ;;
       l <~ lift (as_array reqs) ;;
       created_at <~ lift (toISOString now) ;;
       let req :=
         VObj (obj_define "created_at" (VStr created_at)
                 (spread [("id", num (Z.of_nat (List.length l) + 1))] data)) in
       LS_set STORAGE_KEYS.eventRequests (VArr (l ++ [req])) ;;;
       ret (VObj [("status", VStr "success");
                  ("message", VStr "Event request stored locally.")])
     else ret (VObj [("status", VStr "ok")]))%store
    (fun e => lift (Throw e)).

Definition usage_endpoint (eventId : value) : result string :=
  (s <-- ToString eventId ;; Ok ("/events/" +:+ s +:+ "/usage"))%res.

Definition fetchEvents : M value := fetchData "/events".
Definition fetchConcessions : M value := fetchData "/concessions".
Definition fetchEventUsage (eventId : value) : M value :=
  (e <~ lift (usage_endpoint eventId) ;; fetchData e)%store.

Definition saveEventUsage (now : Z) (eventId usageData : value) : M value :=
  (e <~ lift (usage_endpoint eventId) ;; postData now e usageData)%store.
Definition syncEventInventory (eventId : value) : M value :=
  ret (VObj [("status", VStr "ok")]).
Definition addConcessionItem (now : Z) (itemData : value) : M value :=
  postData now "/concessions" itemData.

Definition fetchSchedule : M value := fetchData "/schedule".
Definition fetchLocations : M value := fetchData "/locations".
Definition requestNewEvent (now : Z) (eventData : value) : M value :=
  postData now "/schedule/request" eventData.

(* ================================================================== *)
(** * Predicates used in the statements *)

(** The keys of an object are in enumeration order and pairwise distinct:
    no key is equal to, or would be enumerated before, an earlier one. *)
Fixpoint ordered (keys : list string) : bool :=
  match keys with
  | [] => true
  | k :: keys' =>
      forallb (fun k' => negb (String.eqb k' k) && negb (precedes k' k)) keys'
      && ordered keys'
  end.

(** The values JSON represents: no [undefined] and no [NaN] anywhere
    inside, every number one of the model, and every object with its
    properties as the language keeps them ([ordered]: each key once,
    array indices first). A property list that is not [ordered] stands for
    no JavaScript object. *)
Fixpoint json_value (v : value) : bool :=
  match v with
  | VUndefined => false
  | VNull | VBool _ | VStr _ => true
  | VNum NaN => false
  | VNum (Int z) => exact z
  | VArr l => forallb json_value l
  | VObj o =>
      ordered (map fst o) &&
      (fix all (o : obj) : bool :=
         match o with
         | [] => true
         | (_, x) :: o' => json_value x && all o'
         end) o
  end.

Definition json_props (o : obj) : bool :=
  forallb (fun kv => json_value (snd kv)) o.

(** Fuel that suffices to parse the text of a value. *)
Fixpoint fuel_of (v : value) : nat :=
  match v with
  | VArr l => S (fold_right (fun x n => S (fuel_of x + n)) O l)
  | VObj o =>
      S ((fix go (o : obj) : nat :=
            match o with
            | [] => O
            | (_, x) :: o' => S (fuel_of x + go o')
            end) o)
  | _ => 1%nat
  end.

Definition fuel_elems (l : list value) : nat :=
  fold_right (fun x n => S (fuel_of x + n)) O l.

Fixpoint fuel_props (o : obj) : nat :=
  match o with
  | [] => O
  | (_, x) :: o' => S (fuel_of x + fuel_props o')
  end.

Definition starts_digit (s : string) : bool :=
  match s with
  | String c _ => is_digit c
  | EmptyString => false
  end.

(** The characters a JSON value can begin with. *)
Definition value_start (c : ascii) : bool :=
  is_digit c ||
  match c with
  | "n" | "t" | "f" | "034" | "[" | "{" | "-" => true
  | _ => false
  end%char.

Definition starts_value (s : string) : bool :=
  match s with
  | String c _ => value_start c
  | EmptyString => false
  end.

(** What may follow a value in a JSON text. *)
Definition delimiter (rest : string) : bool :=
  match rest with
  | EmptyString => true
  | String c _ => Ascii.eqb c "," || Ascii.eqb c "]" || Ascii.eqb c "}"
  end.

(** The text of [v], followed by a delimiter, parses back to [v]. *)
Definition roundtrips (v : value) : Prop :=
  json_value v = true ->
  forall fuel rest,
    (fuel_of v <= fuel)%nat -> delimiter rest = true ->
    parse_value fuel (or_null (stringify v) +:+ rest) = Ok (v, rest).

(** ** Reading the collections *)

(** The id the concessions branch of [postData] reads off a record:
    [i.id || 0], for the records whose id is a number or missing. *)
Definition id_or_zero (r : value) : Z :=
  match get_field "id" r with
  | Ok (VNum (Int z)) => z
  | _ => 0
  end.

(** A record whose id is missing or an integer below 2^53. *)
Definition plain_id (r : value) : Prop :=
  match r with
  | VObj o =>
      match obj_own "id" o with
      | None => True
      | Some (VNum (Int z)) => - max_exact <= z < max_exact
      | Some _ => False
      end
  | _ => False
  end.

Definition max_list (z : Z) (l : list Z) : Z := fold_left Z.max l z.

(** 1 for the empty list, the largest id plus one otherwise. *)
Definition next_id (l : list value) : Z :=
  match l with
  | [] => 1
  | r :: l' => max_list (id_or_zero r) (map id_or_zero l') + 1
  end.

(** What a record adds to a sum of quantities. *)
Definition qty (r : value) : Z :=
  match quantity r with
  | Ok (Int z) => z
  | _ => 0
  end.

Definition has_status (s : string) (r : value) : bool :=
  match get_field "status" r with
  | Ok v => strict_eq_str v s
  | _ => false
  end.

Definition total (l : list value) : Z := fold_right Z.add 0 (map qty l).

Definition magnitude (l : list value) : Z :=
  fold_right Z.add 0 (map (fun r => Z.abs (qty r)) l).

(** The strings among the category values, the empty one left out. *)
Definition category_names (cs : list value) : list string :=
  flat_map (fun c => match c with
                     | VStr s => if String.eqb s "" then [] else [s]
                     | _ => []
                     end) cs.

(** The distinct elements of a list in order of first occurrence. *)
Fixpoint distinct (l : list string) : list string :=
  match l with
  | [] => []
  | x :: l' => x :: List.filter (fun y => negb (String.eqb y x)) (distinct l')
  end.

(** The shape [YYYY-MM-DDTHH:mm:ss.sssZ]. *)
Definition iso8601 (s : string) : bool :=
  match list_ascii_of_string s with
  | [ya; yb; yc; yd; da; ma; mb; db; ea; eb; t; ha; hb; ca; na; nb; cb;
     sa; sb; p; fa; fb; fc; z] =>
      forallb is_digit [ya; yb; yc; yd; ma; mb; ea; eb; ha; hb; na; nb;
                        sa; sb; fa; fb; fc]
      && Ascii.eqb da "-" && Ascii.eqb db "-" && Ascii.eqb t "T"
      && Ascii.eqb ca ":" && Ascii.eqb cb ":" && Ascii.eqb p "."
      && Ascii.eqb z "Z"
  | _ => false
  end.

(** [x !== n] for a number literal [n]. *)
Definition strict_neq_num (x : value) (n : Z) : bool :=
  match x with
  | VNum (Int z) => negb (z =? n)
  | _ => true
  end.

(** Modelled from the spec: the store has no operation that deletes a
    concession; the deletion the spec speaks of is taken to be the removal
    of the records with the given id from the stored list,
    [LS.set(key, LS.get(key, []).filter(i => i.id !== id))]. *)
Definition deleteConcession (id : Z) : M unit :=
  (list <~ LS_get STORAGE_KEYS.concessions (VArr []) ;;
   l <~ lift (as_array list) ;;
   kept <~ lift (rfilterM (fun i => x <-- get_field "id" i ;;
                                    Ok (strict_neq_num x id))%res l) ;;
   LS_set STORAGE_KEYS.concessions (VArr kept))%store.


(** The key holds a text that parses to a truthy value. *)
Definition holds_truthy (st : Storage) (k : string) : Prop :=
  exists s v, st !! k = Some s /\ JSON_parse s = Ok v /\ truthy v = true.

(** ** Stores and payloads used as examples *)


(** The store [seedIfEmpty] builds from nothing. *)
Definition store_seeded : Storage := snd (seedIfEmpty ∅).

Definition hot_dog : value := VObj [("name", VStr "Hot dog"); ("price", num 3)].

(** The record [postData] builds from [hot_dog] and an id. *)
Definition hot_dog_item (id : Z) : value :=
  VObj [("id", num id); ("name", VStr "Hot dog"); ("price", num 3)].


(** The concessions text holds [null]. *)
Definition store_concessions_null : Storage :=
  <[STORAGE_KEYS.concessions := "null"]> store_seeded.

Definition event_with_id : value :=
  VObj [("id", num 99); ("title", VStr "Cup final")].


Definition example_categorised : value :=
  VArr [ VObj [("category", VStr "bat")]; VObj [("category", VStr "ball")];
         VObj [("category", VStr "bat")] ].

(* ================================================================== *)
(** * The activity log

    The class [ActivityLogger] of the pages' shared activity log: one log
    per page, kept to its latest hundred entries, and a master log without
    a bound. Its instance state is the record [ActivityLogger]; a method
    takes the instance and returns the updated one. What is left out are
    the methods that work on the document ([exportMasterLog],
    [renderActivityLog], [initializeModal]). *)

Record ActivityLogger := {
  pageName : value;
  storageKey : string;
  masterLogKey : string;
  activityLog : value
}.

(** [localStorage.getItem(key) || '[]']. *)
Definition item_or_empty (key : string) : M string :=
  (v <~ getItem key ;;
   ret (match v with
        | Some s => if negb (String.eqb s "") then s else "[]"
        | None => "[]"
        end))%store.

(** [new ActivityLogger(pageName)]. *)
Definition new_ActivityLogger (page : value) : M ActivityLogger :=
  (name <~ lift (ToString page) ;;
   let key := name +:+ "_activity_log" in
   text <~ item_or_empty key ;;
   log <~ lift (JSON_parse text) ;;
   ret {| pageName := page; storageKey := key;
          masterLogKey := "master_activity_log"; activityLog := log |})%store.

(** [a.unshift(x)], returning the updated [a]. *)
Definition unshift (x : value) (a : value) : result value :=
  (l <-- as_array a ;; Ok (VArr (x :: l)))%res.

(** [a.slice(0, n)] on an array. *)
Definition slice_to (n : nat) (a : value) : result value :=
  (l <-- as_array a ;; Ok (VArr (firstn n l)))%res.

(** The entry [logActivity] builds. *)
Definition log_entry (ts : string) (action details page : value) : value :=
  VObj [ ("timestamp", VStr ts); ("action", action); ("details", details);
         ("user", VStr "Admin"); ("page", page) ].

Definition addToMasterLog (entry : value) (this : ActivityLogger) : M unit :=
  (text <~ item_or_empty (masterLogKey this) ;;
   masterLog <~ lift (JSON_parse text) ;;
   masterLog' <~ lift (unshift entry masterLog) ;;
   setItem (masterLogKey this) (stored masterLog'))%store.

Definition logActivity (now : Z) (action details : value) (this : ActivityLogger)
  : M ActivityLogger :=
  (ts <~ lift (toISOString now) ;;
   let entry := log_entry ts action details (pageName this) in
   log <~ lift (unshift entry (activityLog this)) ;;
   len <~ lift (get_length log) ;;
   log' <~ lift (match len with
                 | VNum (Int n) => if 100 <? n then slice_to 100 log else Ok log
                 | _ => Ok log
                 end) ;;
   let this' := {| pageName := pageName this; storageKey := storageKey this;
                   masterLogKey := masterLogKey this; activityLog := log' |} in
   setItem (storageKey this) (stored log') ;;;
   addToMasterLog entry this' ;;;
   ret this')%store.

(** [ActivityLogger.getMasterLog()]. *)
Definition getMasterLog : M value :=
  (text <~ item_or_empty "master_activity_log" ;; lift (JSON_parse text))%store.

(** [ActivityLogger.clearMasterLog()]. *)
Definition clearMasterLog : M unit := setItem "master_activity_log" "[]".

(** The logger of the inventory page before anything was logged. *)
Definition inventory_logger : ActivityLogger :=
  {| pageName := VStr "inventory"; storageKey := "inventory_activity_log";
     masterLogKey := "master_activity_log"; activityLog := VArr [] |}.

(** A logger whose page is called [master]. *)
Definition master_logger : ActivityLogger :=
  {| pageName := VStr "master"; storageKey := "master_activity_log";
     masterLogKey := "master_activity_log"; activityLog := VArr [] |}.

(* ================================================================== *)
(** * Predicates used in the further properties *)

(** A computation that leaves [localStorage] as it found it, whatever
    its outcome. *)
Definition read_only {A} (m : M A) : Prop := forall st, snd (m st) = st.

(** The collection that the branch of [postData] taken for an endpoint
    writes, if it writes one. *)
Definition written_key (endpoint : string) : option string :=
  if String.eqb endpoint "/concessions" then Some STORAGE_KEYS.concessions
  else if is_usage endpoint then Some STORAGE_KEYS.eventUsage
  else if String.eqb endpoint "/schedule/request" then
    Some STORAGE_KEYS.eventRequests
  else None.

Definition is_array (v : value) : bool :=
  match v with VArr _ => true | _ => false end.

Definition has_slash (s : string) : bool :=
  existsb (Ascii.eqb "/") (list_ascii_of_string s).

(** The part of a string before its first slash. *)
Fixpoint before_slash (s : string) : string :=
  match s with
  | EmptyString => EmptyString
  | String c r =>
      if Ascii.eqb c "/" then EmptyString else String c (before_slash r)
  end.

(** The text under the key, if there is one, is inside the fragment of
    JSON that [JSON_parse] models. *)
Definition readable (st : Storage) (k : string) : Prop :=
  forall s, st !! k = Some s -> JSON_parse s <> Unmodelled.

(** What is left of a value once it has been written as JSON text and
    read back: [undefined] and [NaN] inside an array become [null], a
    property whose value is [undefined] disappears, a [NaN] property value
    becomes [null]. *)
Fixpoint normalise (v : value) : value :=
  match v with
  | VUndefined => VNull
  | VNum NaN => VNull
  | VArr l => VArr (map normalise l)
  | VObj o =>
      VObj ((fix props (o : obj) : obj :=
               match o with
               | [] => []
               | (k, VUndefined) :: o' => props o'
               | (k, x) :: o' => (k, normalise x) :: props o'
               end) o)
  | _ => v
  end.

Fixpoint normalise_props (o : obj) : obj :=
  match o with
  | [] => []
  | (k, VUndefined) :: o' => normalise_props o'
  | (k, x) :: o' => (k, normalise x) :: normalise_props o'
  end.

(** A value of the model with [undefined] and [NaN] allowed inside:
    every integer is exact and every object has its properties as the
    language keeps them. *)
Fixpoint well_formed (v : value) : bool :=
  match v with
  | VNum (Int z) => exact z
  | VArr l => forallb well_formed l
  | VObj o =>
      ordered (map fst o) &&
      (fix all (o : obj) : bool :=
         match o with
         | [] => true
         | (_, x) :: o' => well_formed x && all o'
         end) o
  | _ => true
  end.

(** The integers [a], [a + 1], ..., [n] of them. *)
Fixpoint count_from (a : Z) (n : nat) : list Z :=
  match n with
  | O => []
  | S n' => a :: count_from (a + 1) n'
  end.


(** [requestNewEvent] called for each payload in turn, each call at its
    own time. *)
Fixpoint request_all (calls : list (Z * value)) : M unit :=
  match calls with
  | [] => ret tt
  | (now, d) :: calls' => (requestNewEvent now d ;;; request_all calls')%store
  end.


(* ================================================================== *)
(** * Strings *)

(** Case analysis on the eight bits of a character. *)
Tactic Notation "ascii_cases" ident(c) :=
  destruct c as [[] [] [] [] [] [] [] []].

Lemma append_cons c s t : String c s +:+ t = String c (s +:+ t).
Proof. reflexivity. Qed.

Lemma append_nil_l s : "" +:+ s = s.
Proof. reflexivity. Qed.

Lemma append_nil_r s : s +:+ "" = s.
Proof. induction s as [|c s IH]; [reflexivity|]. rewrite append_cons. by f_equal. Qed.

Lemma append_assoc s t u : (s +:+ t) +:+ u = s +:+ (t +:+ u).
Proof.
  induction s as [|c s IH]; [reflexivity|].
  rewrite !append_cons. by f_equal.
Qed.

Lemma length_append s t :
  String.length (s +:+ t) = (String.length s + String.length t)%nat.
Proof.
  induction s as [|c s IH]; [reflexivity|].
  rewrite append_cons. simpl. by f_equal.
Qed.

(** ** Digits *)

Lemma read_digits_uint d rest :
  starts_digit rest = false ->
  read_digits (NilEmpty.string_of_uint d +:+ rest) = (d, rest).
Proof.
  intros Hrest.
  induction d; simpl NilEmpty.string_of_uint;
    rewrite ?append_cons, ?append_nil_l; simpl; try (by rewrite IHd).
  destruct rest as [|c r]; [reflexivity|]. simpl in *.
  unfold is_digit in Hrest. by destruct (digit_of_char c).
Qed.

Lemma to_uint_normal n : Decimal.unorm (N.to_uint n) = N.to_uint n.
Proof.
  rewrite <- (DecimalN.Unsigned.of_to n) at 2.
  by rewrite DecimalN.Unsigned.to_of.
Qed.

Lemma leading_zero_unorm d : leading_zero (Decimal.unorm d) = false.
Proof.
  unfold Decimal.unorm. destruct (Decimal.nzhead d) eqn:E; try reflexivity.
  by apply nzhead_nonzero in E.
Qed.

Lemma leading_zero_to_uint n : leading_zero (N.to_uint n) = false.
Proof. rewrite <- to_uint_normal. apply leading_zero_unorm. Qed.

Lemma to_uint_nonnil n : N.to_uint n <> Decimal.Nil.
Proof. rewrite <- to_uint_normal. apply unorm_nonnil. Qed.

Lemma delimiter_cases rest :
  delimiter rest = true ->
  rest = "" \/ exists r, rest = String "," r \/ rest = String "]" r \/ rest = String "}" r.
Proof.
  destruct rest as [|c r]; [by left|]. simpl. intros H. right. exists r.
  destruct (Ascii.eqb_spec c ","); [subst; auto|].
  destruct (Ascii.eqb_spec c "]"); [subst; auto|].
  destruct (Ascii.eqb_spec c "}"); [subst; auto|]. done.
Qed.

Lemma delimiter_not_digit rest : delimiter rest = true -> starts_digit rest = false.
Proof.
  intros [->|(r & [->|[->| ->]])]%delimiter_cases; reflexivity.
Qed.

Lemma string_of_N_digit n :
  exists c r, string_of_N n = String c r /\ is_digit c = true.
Proof.
  unfold string_of_N. pose proof (to_uint_nonnil n) as H.
  destruct (N.to_uint n); [done|..]; simpl; eauto.
Qed.

Lemma exact_opp z : exact (- z) = exact z.
Proof. unfold exact. apply eq_true_iff_eq. rewrite !andb_true_iff, !Z.leb_le. lia. Qed.

Lemma parse_number_roundtrip z rest :
  exact z = true -> delimiter rest = true ->
  parse_number (number_to_string (Int z) +:+ rest) = Ok (VNum (Int z), rest).
Proof.
  intros Hz Hrest. unfold number_to_string, parse_number.
  pose proof (delimiter_not_digit _ Hrest) as Hd.
  assert (Hto : Z.of_N (N.of_uint (N.to_uint (Z.abs_N z))) = Z.abs z)
    by (rewrite DecimalN.Unsigned.of_to; lia).
  destruct (Z.ltb_spec z 0) as [Hneg|Hpos].
  - rewrite append_cons. unfold string_of_N. rewrite read_digits_uint by done.
    pose proof (to_uint_nonnil (Z.abs_N z)) as Hnil.
    pose proof (leading_zero_to_uint (Z.abs_N z)) as Hlz.
    rewrite Hto.
    replace (Z.abs z =? 0) with false by (symmetry; apply Z.eqb_neq; lia).
    replace (exact (Z.abs z)) with true
      by (rewrite <- Hz, <- (exact_opp z); f_equal; lia).
    replace (- Z.abs z) with z by lia.
    destruct (N.to_uint (Z.abs_N z)); [done|..]; rewrite Hlz;
      apply delimiter_cases in Hrest as [->|(r & [->|[->| ->]])]; reflexivity.
  - destruct (string_of_N_digit (Z.abs_N z)) as (c & r & E & Hc).
    assert (Hbody : match string_of_N (Z.abs_N z) +:+ rest with
                    | String "-" r0 => (true, r0)
                    | _ => (false, string_of_N (Z.abs_N z) +:+ rest)
                    end = (false, string_of_N (Z.abs_N z) +:+ rest)).
    { rewrite E, append_cons.
      destruct (Ascii.eqb_spec c "-") as [->|Hne]; [done|].
      ascii_cases c; try reflexivity; done. }
    rewrite Hbody. unfold string_of_N. rewrite read_digits_uint by done.
    pose proof (to_uint_nonnil (Z.abs_N z)) as Hnil.
    pose proof (leading_zero_to_uint (Z.abs_N z)) as Hlz.
    rewrite Hto.
    replace (Z.abs z) with z by lia. rewrite Hz.
    destruct (N.to_uint (Z.abs_N z)); [done|..]; rewrite Hlz;
      apply delimiter_cases in Hrest as [->|(r' & [->|[->| ->]])]; reflexivity.
Qed.

(** ** String literals *)

Lemma parse_string_quote_char c tail :
  parse_string (quote_char c +:+ tail) =
  (p <-- parse_string tail ;; Ok (String c (fst p), snd p))%res.
Proof. ascii_cases c; reflexivity. Qed.

Lemma parse_string_roundtrip s rest :
  parse_string (quote_body s +:+ String dquote rest) = Ok (s, rest).
Proof.
  induction s as [|c s IH]; [reflexivity|].
  simpl quote_body. rewrite append_assoc, parse_string_quote_char, IH.
  reflexivity.
Qed.

Lemma quote_unfold s rest :
  quote s +:+ rest = String dquote (quote_body s +:+ String dquote rest).
Proof.
  unfold quote. rewrite append_cons, append_assoc. reflexivity.
Qed.

(** ** Induction on values *)

Lemma value_ind (P : value -> Prop) :
  P VUndefined -> P VNull -> (forall b, P (VBool b)) -> (forall n, P (VNum n)) ->
  (forall s, P (VStr s)) ->
  (forall l, Forall P l -> P (VArr l)) ->
  (forall o, Forall (fun kv => P (snd kv)) o -> P (VObj o)) ->
  forall v, P v.
Proof.
  intros HU HN HB HNum HS HA HO. fix IH 1.
  intros [ | | b | n | s | l | o];
    [exact HU | exact HN | apply HB | apply HNum | apply HS | | ].
  - apply HA. induction l as [|x l IHl]; constructor; [apply IH | exact IHl].
  - apply HO. induction o as [|[k x] o IHo]; constructor; [apply IH | exact IHo].
Qed.

(** ** Object keys *)

Lemma ordered_app_l l1 l2 : ordered (l1 ++ l2) = true -> ordered l1 = true.
Proof.
  induction l1 as [|k l1 IH]; [done|]. simpl.
  rewrite !andb_true_iff, forallb_app, andb_true_iff. intros [[H1 _] H2]. auto.
Qed.

Lemma obj_define_snoc k v (p : obj) :
  ordered (map fst (p ++ [(k, v)])) = true ->
  obj_define k v p = p ++ [(k, v)].
Proof.
  induction p as [|[k' v'] p IH]; [reflexivity|]. simpl.
  rewrite andb_true_iff, map_app, forallb_app, andb_true_iff. simpl.
  rewrite !andb_true_iff, !negb_true_iff. intros [[_ [[-> ->] _]] Hp].
  f_equal. apply IH. by rewrite map_app.
Qed.

Lemma fold_define_ordered (o acc : obj) :
  ordered (map fst (acc ++ o)) = true ->
  fold_left (fun a kv => obj_define (fst kv) (snd kv) a) o acc = acc ++ o.
Proof.
  revert acc. induction o as [|[k v] o IH]; intros acc H.
  - by rewrite app_nil_r.
  - simpl. replace (acc ++ (k, v) :: o) with ((acc ++ [(k, v)]) ++ o) in *
      by (by rewrite <- app_assoc).
    rewrite obj_define_snoc; [by apply IH|].
    rewrite map_app in H. by apply ordered_app_l in H.
Qed.

(** ** [JSON.parse] after [JSON.stringify] *)

Lemma stringify_obj o :
  stringify (VObj o) = Some (String "{" (join_comma (members o) +:+ "}")).
Proof.
  reflexivity.
Qed.

Lemma json_value_obj o :
  json_value (VObj o) = ordered (map fst o) && json_props o.
Proof.
  simpl. f_equal. induction o as [|[k x] o IH]; [reflexivity|].
  simpl. by rewrite IH.
Qed.

Lemma stringify_starts_value v s : stringify v = Some s -> starts_value s = true.
Proof.
  destruct v as [ | | [] | [|z] | t | l | o]; simpl; intros [= <-]; try reflexivity.
  unfold number_to_string. destruct (z <? 0); [reflexivity|].
  destruct (string_of_N_digit (Z.abs_N z)) as (c & r & -> & Hc).
  simpl. unfold value_start. by rewrite Hc.
Qed.

Lemma json_value_stringify v : json_value v = true -> is_Some (stringify v).
Proof. destruct v as [ | | [] | [|z] | t | l | o]; simpl; by eauto. Qed.

Lemma starts_value_app s t : starts_value s = true -> starts_value (s +:+ t) = true.
Proof. destruct s; [done|]. by rewrite append_cons. Qed.

Lemma parse_value_number fuel c r :
  Ascii.eqb c "-" || is_digit c = true ->
  parse_value (S fuel) (String c r) = parse_number (String c r).
Proof.
  ascii_cases c; try discriminate; reflexivity.
Qed.

Lemma members_json o :
  json_props o = true ->
  members o = map (fun kv => quote (fst kv) +:+ String ":" (or_null (stringify (snd kv)))) o.
Proof.
  induction o as [|[k x] o IH]; [reflexivity|]. simpl.
  rewrite andb_true_iff. intros [Hx Ho].
  destruct (json_value_stringify _ Hx) as [s ->]. simpl. by rewrite IH.
Qed.

Lemma roundtrips_leaf v :
  match v with VArr _ | VObj _ => False | _ => True end -> roundtrips v.
Proof.
  intros Hleaf Hj fuel rest Hfuel Hrest.
  destruct fuel as [|fuel]; [simpl in Hfuel; destruct v; simpl in *; lia|].
  destruct v as [ | | [] | [|z] | s | l | o]; try done.
  - change (or_null (stringify (VNum (Int z)))) with (number_to_string (Int z)).
    pose proof (parse_number_roundtrip z rest Hj Hrest) as Hn.
    pose proof (stringify_starts_value (VNum (Int z)) _ eq_refl) as Hs.
    destruct (number_to_string (Int z)) as [|c r] eqn:E; [done|].
    rewrite append_cons in *. rewrite parse_value_number; [exact Hn|].
    unfold number_to_string in E. destruct (z <? 0).
    + by injection E as <- _.
    + destruct (string_of_N_digit (Z.abs_N z)) as (c' & r' & E' & Hc).
      rewrite E' in E. injection E as <- _. rewrite Hc. apply orb_true_r.
  - change (or_null (stringify (VStr s))) with (quote s). rewrite quote_unfold.
    change (parse_value (S fuel) (String dquote ?t)) with
      (p <-- parse_string t ;; Ok (VStr (fst p), snd p))%res.
    by rewrite parse_string_roundtrip.
Qed.

Lemma parse_elements_roundtrip l :
  Forall roundtrips l -> forallb json_value l = true -> l <> [] ->
  forall fuel rest, (fuel_elems l <= fuel)%nat ->
    parse_elements fuel
      (join_comma (map (fun x => or_null (stringify x)) l) +:+ String "]" rest)
    = Ok (l, rest).
Proof.
  induction l as [|x l IH]; [done|].
  intros HF Hj _ fuel rest Hfuel.
  apply Forall_cons in HF as [Hx HF]. simpl in Hj.
  apply andb_true_iff in Hj as [Hjx Hjl].
  unfold fuel_elems in Hfuel. simpl in Hfuel. fold (fuel_elems l) in Hfuel.
  destruct fuel as [|fuel]; [lia|].
  destruct l as [|y l].
  - simpl map. simpl join_comma. simpl parse_elements.
    rewrite (Hx Hjx fuel (String "]" rest)) by (done || lia). reflexivity.
  - change (join_comma (map ?f (x :: y :: l)))
      with (f x +:+ String "," (join_comma (map f (y :: l)))).
    rewrite append_assoc, append_cons. simpl parse_elements.
    rewrite (Hx Hjx fuel) by (done || lia). simpl.
    rewrite IH by (done || lia). reflexivity.
Qed.

Lemma parse_members_roundtrip o :
  Forall (fun kv => roundtrips (snd kv)) o -> json_props o = true -> o <> [] ->
  forall fuel rest acc, (fuel_props o <= fuel)%nat ->
    parse_members fuel (join_comma (members o) +:+ String "}" rest) acc
    = Ok (fold_left (fun a kv => obj_define (fst kv) (snd kv) a) o acc, rest).
Proof.
  induction o as [|[k x] o IH]; [done|].
  intros HF Hj _ fuel rest acc Hfuel.
  apply Forall_cons in HF as [Hx HF]. simpl in Hx.
  rewrite members_json by done.
  simpl in Hj. apply andb_true_iff in Hj as [Hjx Hjo].
  simpl in Hfuel. destruct fuel as [|fuel]; [lia|].
  destruct o as [|[k' y] o].
  - simpl map. simpl join_comma.
    rewrite !append_assoc, quote_unfold, !append_cons.
    simpl parse_members. rewrite parse_string_roundtrip. simpl.
    rewrite (Hx Hjx fuel (String "}" rest)) by (done || lia). reflexivity.
  - change (join_comma (map ?f ((k, x) :: (k', y) :: o)))
      with (f (k, x) +:+ String "," (join_comma (map f ((k', y) :: o)))).
    rewrite <- members_json by done.
    set (tail := join_comma (members ((k', y) :: o))).
    cbv beta. simpl fst. simpl snd.
    rewrite !append_assoc, quote_unfold, !append_cons.
    simpl parse_members. rewrite parse_string_roundtrip. simpl.
    rewrite (Hx Hjx fuel) by (done || lia). simpl. subst tail.
    rewrite IH by (done || lia). reflexivity.
Qed.

Lemma parse_value_roundtrip v : roundtrips v.
Proof.
  induction v as [ | | b | n | s | l IHl | o IHo] using value_ind;
    try (by apply roundtrips_leaf).
  - intros Hj fuel rest Hfuel Hrest. simpl in Hj.
    change (fuel_of (VArr l)) with (S (fuel_elems l)) in Hfuel.
    destruct fuel as [|fuel]; [lia|].
    destruct l as [|x l]; [reflexivity|].
    change (or_null (stringify (VArr (x :: l)))) with
      (String "[" (join_comma (map (fun x => or_null (stringify x)) (x :: l)) +:+ "]")).
    rewrite append_cons, append_assoc.
    change ("]" +:+ rest) with (String "]" rest).
    pose proof (parse_elements_roundtrip (x :: l) IHl Hj ltac:(done)
                  fuel rest ltac:(lia)) as He.
    set (body := join_comma _) in *.
    assert (Hstart : starts_value (body +:+ String "]" rest) = true).
    { apply starts_value_app. subst body.
      simpl in Hj. apply andb_true_iff in Hj as [Hx _].
      destruct (json_value_stringify _ Hx) as [sx Hsx].
      change (map ?f (x :: l)) with (f x :: map f l). cbv beta. rewrite Hsx.
      pose proof (stringify_starts_value _ _ Hsx).
      destruct (map _ l); [done|]. by apply starts_value_app. }
    destruct (body +:+ String "]" rest) as [|c r] eqn:E; [done|].
    assert (parse_value (S fuel) (String "[" (String c r)) =
            (p <-- parse_elements fuel (String c r) ;; Ok (VArr (fst p), snd p))%res)
      as ->.
    { simpl in Hstart. clear -Hstart.
      ascii_cases c; try discriminate; reflexivity. }
    by rewrite He.
  - intros Hj fuel rest Hfuel Hrest. rewrite json_value_obj in Hj.
    apply andb_true_iff in Hj as [Hord Hj].
    change (fuel_of (VObj o)) with (S (fuel_props o)) in Hfuel.
    destruct fuel as [|fuel]; [lia|].
    destruct o as [|[k x] o]; [reflexivity|].
    rewrite stringify_obj. simpl or_null.
    rewrite append_cons, append_assoc.
    change ("}" +:+ rest) with (String "}" rest).
    pose proof (parse_members_roundtrip ((k, x) :: o) IHo Hj ltac:(done)
                  fuel rest [] ltac:(lia)) as He.
    rewrite fold_define_ordered in He by done. simpl app in He.
    set (body := join_comma _) in *.
    assert (Hstart : exists r, body +:+ String "}" rest = String dquote r).
    { subst body. rewrite members_json by done.
      change (map ?f ((k, x) :: o)) with (f (k, x) :: map f o). cbv beta.
      destruct (map _ o); simpl join_comma;
        rewrite ?append_assoc, quote_unfold; eauto. }
    destruct Hstart as [r E]. rewrite E in *.
    change (parse_value (S fuel) (String "{" (String dquote r))) with
      (p <-- parse_members fuel (String dquote r) [] ;; Ok (VObj (fst p), snd p))%res.
    by rewrite He.
Qed.

Lemma length_join_comma l :
  (fold_right (fun s n => S (String.length s + n)) O l
   <= S (String.length (join_comma l)))%nat.
Proof.
  induction l as [|s l IH]; [simpl; lia|].
  destruct l as [|t l]; [simpl; lia|].
  change (join_comma (s :: t :: l)) with (s +:+ String "," (join_comma (t :: l))).
  set (j := join_comma (t :: l)) in *.
  rewrite length_append. simpl String.length. simpl fold_right in *. lia.
Qed.

Lemma stringify_nonempty v s : stringify v = Some s -> (1 <= String.length s)%nat.
Proof.
  intros H%stringify_starts_value. destruct s; [done|]. simpl. lia.
Qed.

Lemma fuel_of_length v :
  json_value v = true ->
  (fuel_of v <= 2 * String.length (or_null (stringify v)))%nat.
Proof.
  induction v as [ | | b | n | s | l IHl | o IHo] using value_ind; intros Hj;
    try (destruct (json_value_stringify _ Hj) as [t Ht]; rewrite Ht;
         apply stringify_nonempty in Ht; simpl; lia).
  - change (fuel_of (VArr l)) with (S (fuel_elems l)).
    change (or_null (stringify (VArr l))) with
      (String "[" (join_comma (map (fun x => or_null (stringify x)) l) +:+ "]")).
    simpl String.length. rewrite length_append. simpl String.length.
    pose proof (length_join_comma (map (fun x => or_null (stringify x)) l)) as Hlen.
    assert (fuel_elems l <=
            2 * fold_right (fun s n => S (String.length s + n)) O
                  (map (fun x => or_null (stringify x)) l))%nat; [|lia].
    simpl in Hj. clear Hlen.
    induction l as [|x l IH]; [simpl; lia|].
    apply Forall_cons in IHl as [Hx Hl]. simpl in Hj.
    apply andb_true_iff in Hj as [Hjx Hjl].
    specialize (IH Hl Hjl). specialize (Hx Hjx).
    unfold fuel_elems in *. simpl. lia.
  - rewrite json_value_obj in Hj. apply andb_true_iff in Hj as [_ Hj].
    change (fuel_of (VObj o)) with (S (fuel_props o)).
    rewrite stringify_obj. simpl or_null.
    simpl String.length. rewrite length_append. simpl String.length.
    pose proof (length_join_comma (members o)) as Hlen.
    assert (fuel_props o <=
            2 * fold_right (fun s n => S (String.length s + n)) O (members o))%nat;
      [|lia].
    clear Hlen. rewrite members_json by done.
    induction o as [|[k x] o IH]; [simpl; lia|].
    apply Forall_cons in IHo as [Hx Ho]. simpl in Hj.
    apply andb_true_iff in Hj as [Hjx Hjo].
    specialize (IH Ho Hjo). specialize (Hx Hjx). simpl in Hx.
    simpl. rewrite length_append. simpl String.length. lia.
Qed.

Lemma JSON_parse_stringify v :
  json_value v = true -> JSON_parse (or_null (stringify v)) = Ok v.
Proof.
  intros Hj. unfold JSON_parse.
  pose proof (parse_value_roundtrip v Hj
                (2 * String.length (or_null (stringify v)) + 2)%nat ""
                ltac:(pose proof (fuel_of_length v Hj); lia) eq_refl) as H.
  rewrite append_nil_r in H. by rewrite H.
Qed.

(* ================================================================== *)
(** * Objects *)

Lemma obj_own_define k k' v o :
  obj_own k (obj_define k' v o) =
  if String.eqb k k' then Some v else obj_own k o.
Proof.
  induction o as [|[k1 v1] o IH]; simpl.
  - by destruct (String.eqb k k').
  - destruct (String.eqb_spec k' k1) as [->|Hne].
    + simpl. by destruct (String.eqb k k1).
    + destruct (precedes k' k1); simpl.
      * by destruct (String.eqb k k').
      * rewrite IH. destruct (String.eqb_spec k k1) as [->|]; [|done].
        destruct (String.eqb_spec k1 k'); [congruence|done].
Qed.

Lemma obj_define_keys k v o f :
  In f (map fst (obj_define k v o)) -> f = k \/ In f (map fst o).
Proof.
  induction o as [|[k1 v1] o IH]; simpl; [intros [<-|[]]; by left|].
  destruct (String.eqb_spec k k1) as [->|Hne]; [simpl; intros [<-|H]; auto|].
  destruct (precedes k k1); simpl.
  - intros [<-|[<-|H]]; auto.
  - intros [<-|H]; [auto|]. apply IH in H as [->|H]; auto.
Qed.

Lemma precedes_asym a b : precedes a b = true -> precedes b a = false.
Proof.
  unfold precedes. destruct (array_index a), (array_index b); try done.
  rewrite N.ltb_lt, N.ltb_ge. lia.
Qed.

Lemma precedes_trans a b c :
  precedes a b = true -> precedes b c = true -> precedes a c = true.
Proof.
  unfold precedes.
  destruct (array_index a), (array_index b), (array_index c); try done.
  rewrite !N.ltb_lt. lia.
Qed.

Lemma ordered_cons k ks :
  ordered (k :: ks) = true <->
  (forall f, In f ks -> f <> k /\ precedes f k = false) /\ ordered ks = true.
Proof.
  simpl. rewrite andb_true_iff, forallb_forall. split; intros [H1 H2]; split; auto.
  - intros f Hf. specialize (H1 f Hf).
    apply andb_true_iff in H1 as [Ha Hb].
    apply negb_true_iff in Ha, Hb. by apply String.eqb_neq in Ha.
  - intros f Hf. destruct (H1 f Hf) as [Ha Hb].
    apply String.eqb_neq in Ha. by rewrite Ha, Hb.
Qed.

Lemma ordered_define k v o :
  ordered (map fst o) = true -> ordered (map fst (obj_define k v o)) = true.
Proof.
  induction o as [|[k1 v1] o IH]; [done|]. intros Ho.
  change (map fst ((k1, v1) :: o)) with (k1 :: map fst o) in Ho.
  apply ordered_cons in Ho as [Hk1 Ho]. simpl.
  destruct (String.eqb_spec k k1) as [->|Hne].
  - change (ordered (k1 :: map fst o) = true). by apply ordered_cons.
  - destruct (precedes k k1) eqn:Hp.
    + change (ordered (k :: k1 :: map fst o) = true).
      apply ordered_cons. split; [|by apply ordered_cons].
      intros f [<-|Hf].
      * split; [congruence|]. by apply precedes_asym.
      * destruct (Hk1 f Hf) as [Hfk Hfp]. split.
        -- intros ->. congruence.
        -- destruct (precedes f k) eqn:E; [|done].
           by rewrite (precedes_trans _ _ _ E Hp) in Hfp.
    + change (ordered (k1 :: map fst (obj_define k v o)) = true).
      apply ordered_cons. split; [|by apply IH].
      intros f [->|Hf]%obj_define_keys; [done|]. by apply Hk1.
Qed.

Lemma json_props_define k v o :
  json_value v = true -> json_props o = true ->
  json_props (obj_define k v o) = true.
Proof.
  intros Hv. induction o as [|[k1 v1] o IH]; simpl; [by rewrite Hv|].
  rewrite andb_true_iff. intros [H1 Ho].
  destruct (String.eqb k k1); [simpl; by rewrite Hv|].
  destruct (precedes k k1); simpl; [by rewrite Hv, H1|]. by rewrite H1, IH.
Qed.

Lemma json_value_define k v o :
  json_value v = true -> json_value (VObj o) = true ->
  json_value (VObj (obj_define k v o)) = true.
Proof.
  rewrite !json_value_obj, !andb_true_iff. intros Hv [Ho Hp].
  split; [by apply ordered_define | by apply json_props_define].
Qed.

Lemma json_value_define_all props target :
  json_props props = true -> json_value (VObj target) = true ->
  json_value (VObj (define_all props target)) = true.
Proof.
  revert target. induction props as [|[k v] props IH]; intros target; [done|].
  simpl. rewrite andb_true_iff. intros [Hv Hp] Ht.
  apply IH; [done|]. by apply json_value_define.
Qed.

Lemma obj_own_define_all k props target :
  obj_own k props = None ->
  obj_own k (define_all props target) = obj_own k target.
Proof.
  revert target. induction props as [|[k1 v1] props IH]; intros target; [done|].
  simpl. destruct (String.eqb_spec k k1) as [->|Hne]; [done|]. intros Hp.
  rewrite IH by done. rewrite obj_own_define.
  by destruct (String.eqb_spec k k1).
Qed.

Lemma json_props_index i l :
  forallb json_value l = true -> json_props (index_props i l) = true.
Proof.
  revert i. induction l as [|x l IH]; intros i; [done|]. simpl.
  rewrite !andb_true_iff. intros [Hx Hl]. split; [done|]. by apply IH.
Qed.

Lemma json_chars s : forallb json_value (chars s) = true.
Proof. induction s as [|c s IH]; [done|]. exact IH. Qed.

Lemma json_own_props v : json_value v = true -> json_props (own_props v) = true.
Proof.
  destruct v as [ | | b | n | s | l | o]; try done.
  - intros _. apply json_props_index, json_chars.
  - simpl. apply json_props_index.
  - rewrite json_value_obj, andb_true_iff. by intros [_ H].
Qed.

Lemma json_value_spread target data :
  json_value (VObj target) = true -> json_value data = true ->
  json_value (VObj (spread target data)) = true.
Proof.
  intros Ht Hd. apply json_value_define_all; [|done]. by apply json_own_props.
Qed.

Lemma obj_own_spread k target data :
  obj_own k (own_props data) = None ->
  obj_own k (spread target data) = obj_own k target.
Proof. apply obj_own_define_all. Qed.

(** ** What [JSON.parse] returns is a JSON value *)

Lemma parse_number_json s v r : parse_number s = Ok (v, r) -> json_value v = true.
Proof.
  unfold parse_number.
  destruct (match s with String "-"%char r0 => (true, r0) | _ => (false, s) end)
    as [neg body].
  destruct (read_digits body) as [d rest].
  set (core := let z := Z.of_N (N.of_uint d) in
               if neg then
                 if (z =? 0) || negb (exact z) then Unmodelled
                 else Ok (VNum (Int (- z)), rest)
               else if exact z then Ok (VNum (Int z), rest) else Unmodelled).
  assert (Hcore : core = Ok (v, r) -> json_value v = true).
  { subst core. cbv zeta. destruct neg.
    - destruct (_ || _) eqn:E; [done|]. intros [= <- _].
      apply orb_false_iff in E as [_ E]. apply negb_false_iff in E.
      simpl. by rewrite exact_opp.
    - destruct (exact _) eqn:E; [|done]. by intros [= <- _]. }
  assert (Hrest : (if leading_zero d then Throw SyntaxError
                   else match rest with
                        | String ("." | "e" | "E")%char _ => Unmodelled
                        | _ => core
                        end) = Ok (v, r) -> json_value v = true).
  { destruct (leading_zero d); [done|].
    destruct rest as [|c rest']; [exact Hcore|].
    ascii_cases c; try exact Hcore; done. }
  clearbody core. destruct d; [done|exact Hrest..].
Qed.

Lemma expect_json word rest v w r :
  json_value v = true -> expect word rest v = Ok (w, r) -> json_value w = true.
Proof.
  unfold expect. destruct (strip_prefix word rest); [|done]. by intros Hv [= <- _].
Qed.

Lemma parse_sound fuel :
  (forall s v r, parse_value fuel s = Ok (v, r) -> json_value v = true) /\
  (forall s l r, parse_elements fuel s = Ok (l, r) -> forallb json_value l = true) /\
  (forall s acc o r, parse_members fuel s acc = Ok (o, r) ->
                     json_value (VObj acc) = true -> json_value (VObj o) = true).
Proof.
  induction fuel as [|fuel (IHv & IHe & IHm)]; [by repeat split|].
  split; [|split].
  - intros s v r. simpl. destruct (skip_ws s) as [|c t]; [done|].
    destruct (Ascii.eqb c "n"); [by apply expect_json|].
    destruct (Ascii.eqb c "t"); [by apply expect_json|].
    destruct (Ascii.eqb c "f"); [by apply expect_json|].
    destruct (Ascii.eqb c dquote).
    { destruct (parse_string t) as [[x y]| |]; [|done..]. by intros [= <- _]. }
    destruct (Ascii.eqb c "[").
    { assert ((p <-- parse_elements fuel t ;; Ok (VArr (fst p), snd p))%res = Ok (v, r)
              -> json_value v = true) as He.
      { destruct (parse_elements fuel t) as [[l y]| |] eqn:E; [|done..].
        intros [= <- _]. simpl. by eapply IHe. }
      destruct (skip_ws t) as [|c' t']; [exact He|].
      destruct (Ascii.eqb_spec c' "]") as [->|Hne]; [by intros [= <- _]|].
      ascii_cases c'; try exact He; done. }
    destruct (Ascii.eqb c "{").
    { assert ((p <-- parse_members fuel t [] ;; Ok (VObj (fst p), snd p))%res = Ok (v, r)
              -> json_value v = true) as He.
      { destruct (parse_members fuel t []) as [[o y]| |] eqn:E; [|done..].
        intros [= <- _]. simpl fst. by eapply IHm. }
      destruct (skip_ws t) as [|c' t']; [exact He|].
      destruct (Ascii.eqb_spec c' "}") as [->|Hne]; [by intros [= <- _]|].
      ascii_cases c'; try exact He; done. }
    destruct (_ || _); [apply parse_number_json | done].
  - intros s l r. simpl.
    destruct (parse_value fuel s) as [[v y]| |] eqn:Ev; [|done..]. simpl.
    pose proof (IHv _ _ _ Ev) as Hv.
    destruct (skip_ws y) as [|c t]; [done|].
    destruct (Ascii.eqb_spec c ",") as [->|Hc].
    { destruct (parse_elements fuel t) as [[l' y']| |] eqn:Ee; [|done..].
      intros [= <- _]. simpl. rewrite Hv. by eapply IHe. }
    destruct (Ascii.eqb_spec c "]") as [->|Hc'].
    { intros [= <- _]. simpl. by rewrite Hv. }
    ascii_cases c; done.
  - intros s acc o r. simpl. destruct (skip_ws s) as [|c t]; [done|].
    destruct (Ascii.eqb c dquote); [|done].
    destruct (parse_string t) as [[k y]| |]; [|done..]. simpl.
    intros H Hacc.
    destruct (skip_ws y) as [|c1 t1]; [done|].
    destruct (Ascii.eqb_spec c1 ":") as [->|Hc1];
      [|ascii_cases c1; done].
    destruct (parse_value fuel t1) as [[v y1]| |] eqn:Ev; [|done..]. simpl in H.
    pose proof (IHv _ _ _ Ev) as Hv.
    pose proof (json_value_define k v acc Hv Hacc) as Hacc'.
    destruct (skip_ws y1) as [|c2 t2]; [done|].
    destruct (Ascii.eqb_spec c2 ",") as [->|Hc2]; [by eapply IHm|].
    destruct (Ascii.eqb_spec c2 "}") as [->|Hc3]; [by injection H as <- _|].
    ascii_cases c2; done.
Qed.

Lemma JSON_parse_json s v : JSON_parse s = Ok v -> json_value v = true.
Proof.
  unfold JSON_parse.
  destruct (parse_value _ s) as [[w r]| |] eqn:E; [|done..]. simpl.
  destruct (skip_ws r); [|done]. intros [= <-].
  by eapply (proj1 (parse_sound _)).
Qed.

(* ================================================================== *)
(** * [LS.get] and [LS.set] *)

Lemma LS_get_unfold key fb st :
  LS_get key fb st =
  (match st !! key with
   | Some s =>
       if negb (String.eqb s "") then
         match JSON_parse s with
         | Ok v => Ok v
         | Throw _ => Ok fb
         | Unmodelled => Unmodelled
         end
       else Ok fb
   | None => Ok fb
   end, st).
Proof.
  unfold LS_get, try_catch, bind, getItem, lift, ret.
  destruct (st !! key) as [s|]; [|done].
  destruct (negb (String.eqb s "")); [|done].
  by destruct (JSON_parse s).
Qed.

Lemma LS_set_unfold key v st :
  LS_set key v st = (Ok tt, <[key := stored v]> st).
Proof. reflexivity. Qed.

Lemma LS_get_state key fb st : snd (LS_get key fb st) = st.
Proof. by rewrite LS_get_unfold. Qed.

Lemma LS_get_no_throw key fb st e : fst (LS_get key fb st) <> Throw e.
Proof.
  rewrite LS_get_unfold. simpl.
  destruct (st !! key) as [s|]; [|done].
  destruct (negb (String.eqb s "")); [|done].
  by destruct (JSON_parse s).
Qed.

Lemma stored_json v : json_value v = true -> stored v = or_null (stringify v).
Proof. intros [s Hs]%json_value_stringify. unfold stored. by rewrite Hs. Qed.

Lemma stored_nonempty v : String.eqb (stored v) "" = false.
Proof.
  unfold stored. destruct (stringify v) as [s|] eqn:E; [|done].
  apply stringify_starts_value in E. by destruct s.
Qed.

Lemma LS_get_stored key fb v (st : Storage) :
  st !! key = Some (stored v) -> json_value v = true ->
  LS_get key fb st = (Ok v, st).
Proof.
  intros Hk Hv. rewrite LS_get_unfold, Hk, stored_nonempty. simpl.
  by rewrite stored_json, JSON_parse_stringify.
Qed.

Lemma LS_get_insert key fb v (st : Storage) :
  json_value v = true ->
  LS_get key fb (<[key := stored v]> st) = (Ok v, <[key := stored v]> st).
Proof. intros Hv. apply LS_get_stored; [by rewrite lookup_insert_eq | done]. Qed.

Lemma LS_get_insert_ne key key' fb t (st : Storage) :
  key <> key' ->
  fst (LS_get key' fb (<[key := t]> st)) = fst (LS_get key' fb st).
Proof. intros Hne. rewrite !LS_get_unfold. simpl. by rewrite lookup_insert_ne. Qed.

Lemma LS_get_json key fb st v st' :
  LS_get key fb st = (Ok v, st') -> json_value fb = true -> json_value v = true.
Proof.
  rewrite LS_get_unfold. intros [= H _] Hfb.
  destruct (st !! key) as [s|]; [|by injection H as <-].
  destruct (negb _); [|by injection H as <-].
  destruct (JSON_parse s) eqn:E; [|by injection H as <- | done].
  injection H as ->. by eapply JSON_parse_json.
Qed.

(* ================================================================== *)
(** * Seeding *)

Lemma seed_unfold k d st :
  seed k d st =
  match fst (LS_get k VUndefined st) with
  | Ok v => (Ok tt, if truthy v then st else <[k := stored d]> st)
  | Throw e => (Throw e, st)
  | Unmodelled => (Unmodelled, st)
  end.
Proof.
  unfold seed, bind. rewrite LS_get_unfold. simpl.
  destruct (st !! k) as [s|]; [|done].
  destruct (negb (String.eqb s "")); [|done].
  destruct (JSON_parse s) as [v| |]; try done.
  by destruct (truthy v).
Qed.

Lemma JSON_parse_empty : JSON_parse "" = Throw SyntaxError.
Proof. reflexivity. Qed.

Lemma holds_truthy_get st k :
  holds_truthy st k ->
  exists v, LS_get k VUndefined st = (Ok v, st) /\ truthy v = true.
Proof.
  intros (s & v & Hs & Hp & Ht). exists v. split; [|done].
  rewrite LS_get_unfold, Hs.
  destruct (String.eqb_spec s "") as [->|_]; [by rewrite JSON_parse_empty in Hp|].
  simpl. by rewrite Hp.
Qed.

Lemma get_truthy_holds st k v :
  fst (LS_get k VUndefined st) = Ok v -> truthy v = true -> holds_truthy st k.
Proof.
  rewrite LS_get_unfold. simpl. intros Hg Ht.
  destruct (st !! k) as [s|] eqn:Hs; [|by injection Hg as <-].
  destruct (negb (String.eqb s "")); [|by injection Hg as <-].
  destruct (JSON_parse s) as [w|e|] eqn:Hp; try done.
  - injection Hg as ->. by exists s, v.
  - by injection Hg as <-.
Qed.

Lemma seed_keeps_truthy k d st :
  holds_truthy st k -> seed k d st = (Ok tt, st).
Proof.
  intros (v & Hg & Ht)%holds_truthy_get.
  by rewrite seed_unfold, Hg; simpl; rewrite Ht.
Qed.


Lemma holds_truthy_stored k d (st : Storage) :
  json_value d = true -> truthy d = true ->
  holds_truthy (<[k := stored d]> st) k.
Proof.
  intros Hj Ht. exists (stored d), d. rewrite lookup_insert_eq. split; [done|].
  split; [|done]. by rewrite stored_json, JSON_parse_stringify.
Qed.

Lemma seed_establishes k d st st' :
  json_value d = true -> truthy d = true ->
  seed k d st = (Ok tt, st') ->
  holds_truthy st' k /\ forall k', k' <> k -> st' !! k' = st !! k'.
Proof.
  intros Hj Ht. rewrite seed_unfold.
  destruct (fst (LS_get k VUndefined st)) as [v| |] eqn:Hg; try done.
  destruct (truthy v) eqn:Hv; intros [= <-].
  - split; [by eapply get_truthy_holds | done].
  - split; [by apply holds_truthy_stored|].
    intros k' Hne. by rewrite lookup_insert_ne.
Qed.

Lemma seed_all_establishes l st st' :
  NoDup (map fst l) ->
  Forall (fun kd => json_value (snd kd) = true /\ truthy (snd kd) = true) l ->
  seed_all l st = (Ok tt, st') ->
  (forall k, In k (map fst l) -> holds_truthy st' k) /\
  (forall k, ~ In k (map fst l) -> st' !! k = st !! k).
Proof.
  revert st. induction l as [|[k d] l IH]; intros st Hnd HF.
  - intros [= <-]. split; [intros k []|done].
  - apply NoDup_cons in Hnd as [Hk Hnd]. apply Forall_cons in HF as [[Hj Ht] HF].
    simpl. unfold bind.
    destruct (seed k d st) as [[[]| |] st1] eqn:Hs; try done.
    intros Hall. destruct (seed_establishes _ _ _ _ Hj Ht Hs) as [Hk1 Hother].
    destruct (IH st1 Hnd HF Hall) as [Hin Hout]. split.
    + intros k' [<-|Hk']; [|by apply Hin].
      destruct Hk1 as (s & v & Hl & Hp). exists s, v.
      rewrite Hout; [done|]. by rewrite <- list_elem_of_In.
    + intros k' Hk'. rewrite Hout by (intros ?; apply Hk'; by right).
      apply Hother. intros ->. apply Hk'. by left.
Qed.

Lemma seeds_distinct : NoDup (map fst seeds).
Proof. apply (bool_decide_unpack _). by vm_compute. Qed.

Lemma seeds_truthy :
  Forall (fun kd => json_value (snd kd) = true /\ truthy (snd kd) = true) seeds.
Proof. repeat constructor. Qed.




(* ================================================================== *)
(** * The generic get and set *)



Lemma try_catch_no_throw {A} (m : M A) h st :
  (forall e, fst (m st) <> Throw e) -> try_catch m h st = m st.
Proof.
  intros H. unfold try_catch. destruct (m st) as [[a|e|] st'] eqn:E; try done.
  by destruct (H e).
Qed.

(** C10: [fetchEvents] and [fetchSchedule] are the same computation: in
    every store they return the same value and leave the same store,
    namely what [LS.get] reads from the schedule collection. *)
Theorem fetchEvents_fetchSchedule (st : Storage) :
  fetchEvents st = fetchSchedule st /\
  fetchSchedule st = LS_get STORAGE_KEYS.schedule (VArr []) st.
Proof.
  split; [reflexivity|].
  unfold fetchSchedule, fetchData. simpl.
  apply try_catch_no_throw. intros e. apply LS_get_no_throw.
Qed.

(* ================================================================== *)
(** * Concessions *)

Lemma exact_bounds z : exact z = true <-> - max_exact <= z <= max_exact.
Proof. unfold exact. rewrite andb_true_iff, !Z.leb_le. tauto. Qed.

Lemma plain_id_range r :
  plain_id r -> - max_exact <= id_or_zero r < max_exact.
Proof.
  destruct r as [ | | | | | | o]; try done. unfold plain_id, id_or_zero. simpl.
  unfold obj_get. destruct (obj_own "id" o) as [[ | | | [|z] | | | ]|]; try done.
  all: simpl; unfold max_exact; lia.
Qed.

Lemma plain_id_read r :
  plain_id r ->
  (x <-- get_field "id" r ;; Ok (js_or x (num 0)))%res = Ok (num (id_or_zero r)).
Proof.
  destruct r as [ | | | | | | o]; try done. unfold plain_id, id_or_zero. simpl.
  unfold obj_get. destruct (obj_own "id" o) as [[ | | | [|z] | | | ]|]; try done.
  intros _. simpl. unfold js_or. simpl. by destruct (Z.eqb_spec z 0) as [->|].
Qed.

Lemma plain_ids_read l :
  Forall plain_id l ->
  rmapM (fun i => x <-- get_field "id" i ;; Ok (js_or x (num 0)))%res l
  = Ok (map num (map id_or_zero l)).
Proof.
  induction 1 as [|r l Hr Hl IH]; [done|]. simpl.
  rewrite plain_id_read by done. simpl. by rewrite IH.
Qed.

Lemma ToNumber_nums zs : rmapM ToNumber (map num zs) = Ok (map Int zs).
Proof. induction zs as [|z zs IH]; [done|]. simpl. by rewrite IH. Qed.

Lemma fold_num_max zs z :
  fold_left num_max (map Int zs) (Int z) = Int (max_list z zs).
Proof. revert z. induction zs as [|y zs IH]; intros z; [done|]. simpl. apply IH. Qed.

Lemma max_list_bounds lo hi z zs :
  lo <= z < hi -> Forall (fun y => lo <= y < hi) zs -> lo <= max_list z zs < hi.
Proof.
  revert z. induction zs as [|y zs IH]; intros z Hz HF; [done|].
  apply Forall_cons in HF as [Hy HF]. simpl. apply IH; [lia|done].
Qed.

Lemma max_list_upper z zs :
  z <= max_list z zs /\ Forall (fun y => y <= max_list z zs) zs.
Proof.
  revert z. induction zs as [|y zs IH]; intros z; [by split|]. simpl.
  destruct (IH (Z.max z y)) as [H1 H2]. split; [lia|].
  constructor; [lia|done].
Qed.


Lemma next_id_above l r : In r l -> id_or_zero r < next_id l.
Proof.
  destruct l as [|r0 l]; [done|]. unfold next_id.
  destruct (max_list_upper (id_or_zero r0) (map id_or_zero l)) as [H1 H2].
  intros [<-|Hr]; [lia|].
  rewrite Forall_forall in H2.
  assert (id_or_zero r <= max_list (id_or_zero r0) (map id_or_zero l)); [|lia].
  apply H2, list_elem_of_fmap. exists r. split; [done|]. by apply list_elem_of_In.
Qed.

Lemma next_id_exact l : Forall plain_id l -> exact (next_id l) = true.
Proof.
  intros HF. apply exact_bounds. destruct l as [|r l]; [by vm_compute|].
  apply Forall_cons in HF as [Hr HF]. unfold next_id.
  assert (- max_exact <= max_list (id_or_zero r) (map id_or_zero l) < max_exact);
    [|lia].
  apply max_list_bounds; [by apply plain_id_range|].
  apply Forall_map. eapply Forall_impl; [exact HF|]. apply plain_id_range.
Qed.

Lemma next_id_computed l :
  Forall plain_id l ->
  (if truthy (num (Z.of_nat (List.length l))) then
     l' <-- as_array (VArr l) ;;
     ids <-- rmapM (fun i => x <-- get_field "id" i ;; Ok (js_or x (num 0))) l' ;;
     m <-- Math_max ids ;;
     num_add m (Int 1)
   else Ok (Int 1))%res = Ok (Int (next_id l)).
Proof.
  intros HF. pose proof (next_id_exact l HF) as Hex.
  destruct l as [|r l]; [done|].
  replace (truthy (num (Z.of_nat (List.length (r :: l))))) with true
    by reflexivity.
  simpl as_array. cbv beta iota. unfold rbind at 1.
  rewrite plain_ids_read by done. unfold rbind at 1.
  unfold Math_max. rewrite ToNumber_nums. simpl rbind.
  rewrite fold_num_max. unfold num_add. unfold next_id in Hex. by rewrite Hex.
Qed.

Lemma post_concession now (st : Storage) l data :
  LS_get STORAGE_KEYS.concessions (VArr []) st = (Ok (VArr l), st) ->
  Forall plain_id l ->
  let item := VObj (spread [("id", num (next_id l))] data) in
  postData now "/concessions" data st =
    (Ok item, <[STORAGE_KEYS.concessions := stored (VArr (l ++ [item]))]> st).
Proof.
  intros Hget HF item. unfold postData.
  change (String.eqb "/concessions" "/concessions") with true. cbv iota.
  unfold try_catch, bind at 1. rewrite Hget.
  unfold bind at 1, lift at 1. simpl get_length. cbv iota.
  unfold bind at 1, lift at 1. rewrite next_id_computed by done. cbv iota.
  reflexivity.
Qed.

Lemma item_id target_id data :
  obj_own "id" (own_props data) = None ->
  get_field "id" (VObj (spread [("id", num target_id)] data)) = Ok (num target_id).
Proof.
  intros H. simpl. unfold obj_get. by rewrite obj_own_spread.
Qed.





Lemma json_item n data :
  exact n = true -> json_value data = true ->
  json_value (VObj (spread [("id", num n)] data)) = true.
Proof.
  intros Hn Hd. apply json_value_spread; [|done].
  rewrite json_value_obj. simpl. by rewrite Hn.
Qed.

Lemma plain_item n data :
  - max_exact <= n < max_exact ->
  obj_own "id" (own_props data) = None ->
  plain_id (VObj (spread [("id", num n)] data)).
Proof. intros Hn Hid. unfold plain_id. by rewrite obj_own_spread. Qed.

Lemma id_or_zero_item n data :
  obj_own "id" (own_props data) = None ->
  id_or_zero (VObj (spread [("id", num n)] data)) = n.
Proof. intros Hid. unfold id_or_zero. by rewrite item_id. Qed.

Lemma deleteConcession_unfold id (st : Storage) l kept :
  LS_get STORAGE_KEYS.concessions (VArr []) st = (Ok (VArr l), st) ->
  rfilterM (fun i => x <-- get_field "id" i ;; Ok (strict_neq_num x id))%res l
    = Ok kept ->
  deleteConcession id st =
    (Ok tt, <[STORAGE_KEYS.concessions := stored (VArr kept)]> st).
Proof.
  intros Hget Hkept. unfold deleteConcession, bind at 1. rewrite Hget.
  unfold bind at 1, lift at 1. simpl as_array. cbv iota.
  unfold bind, lift. by rewrite Hkept.
Qed.

Lemma fetchConcessions_unfold st :
  fetchConcessions st = LS_get STORAGE_KEYS.concessions (VArr []) st.
Proof.
  unfold fetchConcessions, fetchData. simpl.
  apply try_catch_no_throw. intros e. apply LS_get_no_throw.
Qed.

(** C5 (as amended): from an empty concessions collection, with
    JSON-representable payloads that carry no [id] of their own, the first
    post yields id 1 and the second id 2; once the record with id 1 has
    been deleted, the collection holds the second record alone and a
    further post yields id 3. The next id is the largest remaining id plus
    one: it differs from every id that is not above all the remaining
    ones, so the id of a deleted record is not given out again while a
    record with a larger id remains. *)
Theorem concession_ids_max_plus_one now (st : Storage) d1 d2 d3 :
  LS_get STORAGE_KEYS.concessions (VArr []) st = (Ok (VArr []), st) ->
  json_value d1 = true -> obj_own "id" (own_props d1) = None ->
  json_value d2 = true -> obj_own "id" (own_props d2) = None ->
  obj_own "id" (own_props d3) = None ->
  (exists i1 i2 i3 st1 st2 st3 st4,
    addConcessionItem now d1 st = (Ok i1, st1) /\
    get_field "id" i1 = Ok (num 1) /\
    addConcessionItem now d2 st1 = (Ok i2, st2) /\
    get_field "id" i2 = Ok (num 2) /\
    deleteConcession 1 st2 = (Ok tt, st3) /\
    fetchConcessions st3 = (Ok (VArr [i2]), st3) /\
    addConcessionItem now d3 st3 = (Ok i3, st4) /\
    get_field "id" i3 = Ok (num 3)) /\
  (forall remaining r deleted,
     In r remaining -> deleted <= id_or_zero r -> next_id remaining <> deleted).
Proof.
  intros Hget Hj1 Hid1 Hj2 Hid2 Hid3. split; cycle 1.
  { intros remaining r deleted Hr Hle.
    pose proof (next_id_above remaining r Hr). lia. }
  unfold addConcessionItem.
  set (i1 := VObj (spread [("id", num 1)] d1)).
  set (i2 := VObj (spread [("id", num 2)] d2)).
  set (i3 := VObj (spread [("id", num 3)] d3)).
  assert (Hji1 : json_value i1 = true) by (by apply json_item).
  assert (Hji2 : json_value i2 = true) by (by apply json_item).
  assert (Hp1 : plain_id i1) by (by apply plain_item).
  assert (Hp2 : plain_id i2) by (by apply plain_item).
  assert (Hz1 : id_or_zero i1 = 1) by (by apply id_or_zero_item).
  assert (Hz2 : id_or_zero i2 = 2) by (by apply id_or_zero_item).
  set (key := STORAGE_KEYS.concessions) in *.
  set (st1 := <[key := stored (VArr [i1])]> st).
  set (st2 := <[key := stored (VArr [i1; i2])]> st1).
  set (st3 := <[key := stored (VArr [i2])]> st2).
  set (st4 := <[key := stored (VArr [i2; i3])]> st3).
  assert (Hget1 : LS_get key (VArr []) st1 = (Ok (VArr [i1]), st1)).
  { apply LS_get_insert. cbn [json_value forallb]. by rewrite Hji1. }
  assert (Hget2 : LS_get key (VArr []) st2 = (Ok (VArr [i1; i2]), st2)).
  { apply LS_get_insert. cbn [json_value forallb]. by rewrite Hji1, Hji2. }
  assert (Hget3 : LS_get key (VArr []) st3 = (Ok (VArr [i2]), st3)).
  { apply LS_get_insert. cbn [json_value forallb]. by rewrite Hji2. }
  exists i1, i2, i3, st1, st2, st3, st4.
  split; [exact (post_concession now st [] d1 Hget ltac:(constructor))|].
  split; [by apply item_id|].
  split.
  { pose proof (post_concession now st1 [i1] d2 Hget1 ltac:(by constructor)) as H.
    unfold next_id in H. simpl in H. by rewrite Hz1 in H. }
  split; [by apply item_id|].
  split.
  { apply (deleteConcession_unfold 1 st2 [i1; i2] [i2] Hget2).
    assert (Hg1 : get_field "id" i1 = Ok (num 1)) by (by apply item_id).
    assert (Hg2 : get_field "id" i2 = Ok (num 2)) by (by apply item_id).
    cbn [rfilterM]. by rewrite Hg1, Hg2. }
  split; [by rewrite fetchConcessions_unfold|].
  split.
  { pose proof (post_concession now st3 [i2] d3 Hget3 ltac:(by constructor)) as H.
    unfold next_id in H. simpl in H. by rewrite Hz2 in H. }
  by apply item_id.
Qed.

Lemma concession_ids_max_plus_one_witness :
  (exists i1 i2 i3 st1 st2 st3 st4,
    addConcessionItem 0 hot_dog store_seeded = (Ok i1, st1) /\
    get_field "id" i1 = Ok (num 1) /\
    addConcessionItem 0 hot_dog st1 = (Ok i2, st2) /\
    get_field "id" i2 = Ok (num 2) /\
    deleteConcession 1 st2 = (Ok tt, st3) /\
    fetchConcessions st3 = (Ok (VArr [i2]), st3) /\
    addConcessionItem 0 hot_dog st3 = (Ok i3, st4) /\
    get_field "id" i3 = Ok (num 3)) /\
  next_id [hot_dog_item 2] <> 1.
Proof.
  assert (H : LS_get STORAGE_KEYS.concessions (VArr []) store_seeded
              = (Ok (VArr []), store_seeded))
    by (apply LS_get_stored; [vm_compute; reflexivity | reflexivity]).
  pose proof (concession_ids_max_plus_one 0 store_seeded hot_dog hot_dog hot_dog
                H eq_refl eq_refl eq_refl eq_refl eq_refl) as [Hrun Hgen].
  split; [exact Hrun|].
  apply (Hgen [hot_dog_item 2] (hot_dog_item 2) 1).
  - left. reflexivity.
  - vm_compute. discriminate.
Defined.

(** C5 (as stated) fails: a deleted id is given out again when it was
    the largest. From the seeded store two posts yield the ids 1 and 2;
    after the record with id 2 has been deleted the next post yields 2. *)
Lemma concession_id_reused :
  let st1 := snd (addConcessionItem 0 hot_dog store_seeded) in
  let st2 := snd (addConcessionItem 0 hot_dog st1) in
  let st3 := snd (deleteConcession 2 st2) in
  fst (fetchConcessions store_seeded) = Ok (VArr []) /\
  fst (addConcessionItem 0 hot_dog store_seeded) = Ok (hot_dog_item 1) /\
  fst (addConcessionItem 0 hot_dog st1) = Ok (hot_dog_item 2) /\
  fst (deleteConcession 2 st2) = Ok tt /\
  fst (fetchConcessions st3) = Ok (VArr [hot_dog_item 1]) /\
  fst (addConcessionItem 0 hot_dog st3) = Ok (hot_dog_item 2).
Proof. intros st1 st2 st3. repeat split; vm_compute; reflexivity. Qed.

(* ================================================================== *)
(** * The inventory summary *)

Lemma quantity_qty r z : quantity r = Ok (Int z) -> qty r = z.
Proof. unfold qty. by intros ->. Qed.

Lemma sum_from a l :
  Forall (fun r => exists z, quantity r = Ok (Int z)) l ->
  Z.abs a + magnitude l <= max_exact ->
  rfoldM (fun a i => q <-- quantity i ;; num_add a q)%res l (Int a)
  = Ok (Int (a + total l)).
Proof.
  revert a. induction l as [|r l IH]; intros a HF Hm.
  - simpl. unfold total. simpl. by rewrite Z.add_0_r.
  - apply Forall_cons in HF as [[z Hz] HF]. pose proof (quantity_qty r z Hz) as Hq.
    unfold magnitude in Hm. simpl in Hm. fold (magnitude l) in Hm.
    assert (0 <= magnitude l).
    { clear. unfold magnitude. induction l; simpl; lia. }
    cbn [rfoldM]. rewrite Hz. cbn [rbind]. unfold num_add at 1.
    replace (exact (a + z)) with true
      by (symmetry; apply exact_bounds; lia).
    cbn [rbind]. rewrite IH by (done || lia). unfold total. simpl. rewrite Hq.
    do 2 f_equal. lia.
Qed.

Lemma sum_quantity_total l :
  Forall (fun r => exists z, quantity r = Ok (Int z)) l ->
  magnitude l <= max_exact ->
  sum_quantity (VArr l) = Ok (Int (total l)).
Proof.
  intros HF Hm. unfold sum_quantity. simpl. by rewrite sum_from by (done || lia).
Qed.

Lemma quantity_status r n : quantity r = Ok n -> exists v, get_field "status" r = Ok v.
Proof.
  destruct r as [ | | | | | | o]; simpl; try done; eauto.
  intros _. unfold obj_get. destruct (obj_own "status" o); eauto.
Qed.

Lemma with_status_filter s l :
  Forall (fun r => exists z, quantity r = Ok (Int z)) l ->
  with_status s (VArr l) = Ok (VArr (List.filter (has_status s) l)).
Proof.
  intros HF. unfold with_status. simpl.
  assert (rfilterM (fun i => st <-- get_field "status" i ;; Ok (strict_eq_str st s))%res l
          = Ok (List.filter (has_status s) l)) as ->; [|done].
  induction HF as [|r l [z Hz] HF IH]; [done|].
  destruct (quantity_status _ _ Hz) as [v Hv].
  cbn [rfilterM List.filter]. rewrite Hv, IH. cbn [rbind].
  replace (has_status s r) with (strict_eq_str v s);
    [done | unfold has_status; by rewrite Hv].
Qed.

Lemma magnitude_filter p l : 0 <= magnitude (List.filter p l) <= magnitude l.
Proof.
  unfold magnitude. induction l as [|r l IH]; simpl; [lia|].
  destruct (p r); simpl; lia.
Qed.

Lemma Forall_filter_keep {A} (P : A -> Prop) p (l : list A) :
  Forall P l -> Forall P (List.filter p l).
Proof.
  induction 1 as [|x l Hx Hl IH]; [constructor|].
  simpl. destruct (p x); [by constructor | done].
Qed.

Lemma summary_of_records (st : Storage) l :
  LS_get STORAGE_KEYS.inventory (VArr []) st = (Ok (VArr l), st) ->
  Forall (fun r => exists z, quantity r = Ok (Int z)) l ->
  magnitude l <= max_exact ->
  fetchInventorySummary st =
    (Ok (VObj [ ("total_items", num (total l));
                ("available", num (total (List.filter (has_status "in-stock") l)));
                ("checked_out", num (total (List.filter (has_status "checked-out") l)));
                ("needs_repair", num (total (List.filter (has_status "needs-repair") l))) ]),
     st).
Proof.
  intros Hget HF Hm. unfold fetchInventorySummary, bind. rewrite Hget. unfold lift.
  rewrite sum_quantity_total by done. cbn [rbind].
  rewrite !with_status_filter by done. cbn [rbind].
  pose proof (magnitude_filter (has_status "in-stock") l).
  pose proof (magnitude_filter (has_status "checked-out") l).
  pose proof (magnitude_filter (has_status "needs-repair") l).
  rewrite !sum_quantity_total by (by apply Forall_filter_keep || lia).
  reflexivity.
Qed.



(* ================================================================== *)
(** * Categories *)

Lemma filter_filter {A} (p q : A -> bool) l :
  List.filter p (List.filter q l) = List.filter (fun y => q y && p y) l.
Proof.
  induction l as [|x l IH]; [done|]. simpl.
  destruct (q x); simpl; [|done]. destruct (p x); by rewrite IH.
Qed.

Lemma filter_same {A} (p q : A -> bool) l :
  (forall y, p y = q y) -> List.filter p l = List.filter q l.
Proof.
  intros H. induction l as [|x l IH]; [done|]. simpl. by rewrite H, IH.
Qed.

Lemma filter_all {A} (l : list A) : List.filter (fun _ => true) l = l.
Proof. induction l as [|x l IH]; [done|]. simpl. by rewrite IH. Qed.

Lemma seen_string x seen :
  existsb (same_value_zero (VStr x)) (map VStr seen) = existsb (String.eqb x) seen.
Proof. induction seen as [|y seen IH]; [done|]. simpl. by rewrite IH. Qed.

Lemma set_from_strings seen l :
  set_from (map VStr seen) (map VStr l) =
  map VStr (List.filter (fun y => negb (existsb (String.eqb y) seen)) (distinct l)).
Proof.
  revert seen. induction l as [|x l IH]; intros seen; [done|].
  cbn [map set_from distinct List.filter]. rewrite seen_string.
  destruct (existsb (String.eqb x) seen) eqn:E; cbn [negb].
  - rewrite IH, filter_filter. f_equal. apply filter_same. intros y.
    destruct (String.eqb_spec y x) as [->|]; [by rewrite E|done].
  - cbn [map]. f_equal. change (VStr x :: map VStr seen) with (map VStr (x :: seen)).
    rewrite IH, filter_filter. f_equal. apply filter_same. intros y. simpl.
    by destruct (String.eqb y x).
Qed.

Lemma truthy_strings cs :
  Forall (fun c => truthy c = true -> exists s, c = VStr s) cs ->
  List.filter truthy cs = map VStr (category_names cs).
Proof.
  induction 1 as [|c cs Hc HF IH]; [done|]. simpl.
  destruct (truthy c) eqn:E.
  - destruct (Hc eq_refl) as [s ->]. simpl in *.
    destruct (String.eqb s ""); [done|]. simpl. by rewrite IH.
  - rewrite IH. destruct c as [ | | | | s | | ]; try done. simpl in *.
    by destruct (String.eqb s "").
Qed.

Lemma fetchCategories_stored (st : Storage) cats :
  LS_get STORAGE_KEYS.categories (VArr []) st = (Ok (VArr cats), st) ->
  cats <> [] -> fetchCategories st = (Ok (VArr cats), st).
Proof.
  intros Hget Hne. unfold fetchCategories, bind at 1. rewrite Hget.
  destruct cats as [|c cats]; [done|]. reflexivity.
Qed.

Lemma fetchCategories_derived (st : Storage) items cs :
  LS_get STORAGE_KEYS.categories (VArr []) st = (Ok (VArr []), st) ->
  LS_get STORAGE_KEYS.inventory (VArr []) st = (Ok (VArr items), st) ->
  rmapM (get_field "category") items = Ok cs ->
  fetchCategories st = (Ok (VArr (set_from [] (List.filter truthy cs))), st).
Proof.
  intros Hcats Hinv Hcs. unfold fetchCategories, bind at 1. rewrite Hcats.
  unfold bind at 1, lift at 1. simpl get_length. cbv iota.
  change (truthy (VArr [])) with true. cbv iota.
  change (truthy (num (Z.of_nat 0))) with false. cbv iota.
  unfold bind, lift. rewrite Hinv. simpl as_array. cbn [rbind]. by rewrite Hcs.
Qed.

(** C4: a non-empty stored category list is returned as it is, whatever
    the inventory holds; when the stored list is empty the result is the
    list of the distinct non-empty categories of the inventory records in
    order of first occurrence, [bat; ball] for the categories
    [bat; ball; bat]. *)
Theorem fetchCategories_fallback (st : Storage) cats :
  LS_get STORAGE_KEYS.categories (VArr []) st = (Ok (VArr cats), st) ->
  (cats <> [] -> fetchCategories st = (Ok (VArr cats), st)) /\
  (cats = [] ->
   forall items cs,
     LS_get STORAGE_KEYS.inventory (VArr []) st = (Ok (VArr items), st) ->
     rmapM (get_field "category") items = Ok cs ->
     Forall (fun c => truthy c = true -> exists s, c = VStr s) cs ->
     fetchCategories st = (Ok (VArr (map VStr (distinct (category_names cs)))), st)) /\
  (cats = [] ->
   LS_get STORAGE_KEYS.inventory (VArr []) st = (Ok example_categorised, st) ->
   fetchCategories st = (Ok (VArr [VStr "bat"; VStr "ball"]), st)).
Proof.
  intros Hget. split; [by apply fetchCategories_stored|]. split.
  - intros -> items cs Hinv Hcs HF.
    rewrite (fetchCategories_derived st items cs Hget Hinv Hcs).
    rewrite truthy_strings by done.
    change (@nil value) with (map VStr []) at 1.
    rewrite (set_from_strings [] (category_names cs)). by rewrite filter_all.
  - intros -> Hinv.
    by rewrite (fetchCategories_derived st _ _ Hget Hinv eq_refl).
Qed.

Lemma fetchCategories_fallback_witness :
  let st := <[STORAGE_KEYS.inventory := stored example_categorised]>
              (<[STORAGE_KEYS.categories := stored (VArr [])]> store_seeded) in
  fetchCategories store_seeded = (Ok default_categories, store_seeded) /\
  fetchCategories st = (Ok (VArr [VStr "bat"; VStr "ball"]), st).
Proof.
  intros st. split.
  - refine (proj1 (fetchCategories_fallback store_seeded _ _) _); [|done].
    apply LS_get_stored; [vm_compute; reflexivity | reflexivity].
  - refine (proj2 (proj2 (fetchCategories_fallback st [] _)) eq_refl _).
    + apply LS_get_stored; [vm_compute; reflexivity | reflexivity].
    + apply LS_get_stored; [vm_compute; reflexivity | reflexivity].
Defined.

(* ================================================================== *)
(** * Event usage *)

Lemma endsWith_app a p : endsWith (a +:+ p) p = true.
Proof.
  induction a as [|c a IH].
  - simpl. destruct p; simpl; by rewrite ?String.eqb_refl, ?Ascii.eqb_refl.
  - rewrite append_cons. simpl. rewrite IH. apply orb_true_r.
Qed.

Lemma usage_endpoint_shape eventId e :
  usage_endpoint eventId = Ok e ->
  exists s, e = "/events/" +:+ s +:+ "/usage".
Proof.
  unfold usage_endpoint. destruct (ToString eventId) as [s| |]; try done.
  intros [= <-]. by exists s.
Qed.

Lemma usage_endpoint_recognised s :
  let e := "/events/" +:+ s +:+ "/usage" in
  String.eqb e "/schedule" = false /\ String.eqb e "/events" = false /\
  String.eqb e "/locations" = false /\ String.eqb e "/concessions" = false /\
  is_usage e = true.
Proof.
  intros e. repeat split; try reflexivity.
  unfold is_usage. apply andb_true_iff. split.
  - subst e. unfold startsWith. rewrite !append_cons, append_nil_l. simpl.
    by destruct (s +:+ "/usage").
  - subst e. rewrite <- append_assoc. apply endsWith_app.
Qed.

Lemma fetchData_usage (st : Storage) s o :
  let e := "/events/" +:+ s +:+ "/usage" in
  LS_get STORAGE_KEYS.eventUsage (VObj []) st = (Ok (VObj o), st) ->
  fetchData e st =
    ((u <-- obj_get (segment e) o ;; Ok (js_or u (VArr [])))%res, st).
Proof.
  intros e Hget.
  destruct (usage_endpoint_recognised s) as (H1 & H2 & H3 & H4 & H5).
  fold e in H1, H2, H3, H4, H5.
  unfold fetchData. rewrite H1, H2, H3, H4, H5. cbn [orb].
  unfold try_catch, bind at 1. rewrite Hget.
  unfold bind, lift, ret. simpl get_index. unfold obj_get.
  destruct (obj_own (segment e) o); [done|]. by destruct (inherited (segment e)).
Qed.

Lemma postData_usage now (st : Storage) s o data :
  let e := "/events/" +:+ s +:+ "/usage" in
  LS_get STORAGE_KEYS.eventUsage (VObj []) st = (Ok (VObj o), st) ->
  segment e <> "__proto__" ->
  postData now e data st =
    (Ok (VObj [("status", VStr "success")]),
     <[STORAGE_KEYS.eventUsage := stored (VObj (obj_define (segment e) data o))]> st).
Proof.
  intros e Hget Hproto.
  destruct (usage_endpoint_recognised s) as (_ & _ & _ & H4 & H5).
  fold e in H4, H5.
  unfold postData. rewrite H4, H5.
  unfold try_catch, bind at 1. rewrite Hget.
  unfold bind, lift. simpl set_index. unfold obj_set.
  apply String.eqb_neq in Hproto. by rewrite Hproto.
Qed.




(* ================================================================== *)
(** * What raises and what does not *)

Lemma try_catch_ret_no_throw {A} (m : M A) (a : A) st e :
  fst (try_catch m (fun _ => ret a) st) <> Throw e.
Proof. unfold try_catch, ret. by destruct (m st) as [[| |] ?]. Qed.

Lemma fetchData_no_throw endpoint st e : fst (fetchData endpoint st) <> Throw e.
Proof. apply try_catch_ret_no_throw. Qed.

Lemma seed_no_throw k d st e : fst (seed k d st) <> Throw e.
Proof.
  rewrite seed_unfold. pose proof (LS_get_no_throw k VUndefined st) as H.
  destruct (fst (LS_get k VUndefined st)); try done. by destruct (H e0).
Qed.

Lemma seed_all_no_throw l st e : fst (seed_all l st) <> Throw e.
Proof.
  revert st. induction l as [|[k d] l IH]; intros st; [done|].
  simpl. unfold bind. pose proof (seed_no_throw k d st) as H.
  destruct (seed k d st) as [[[]|e'|] st1]; simpl in *; [apply IH| |done].
  by destruct (H e').
Qed.

Lemma postData_unrecognised now endpoint data (st : Storage) :
  endpoint <> "/concessions" -> is_usage endpoint = false ->
  endpoint <> "/schedule/request" ->
  postData now endpoint data st = (Ok (VObj [("status", VStr "ok")]), st).
Proof.
  intros H1%String.eqb_neq H2 H3%String.eqb_neq.
  unfold postData. by rewrite H1, H2, H3.
Qed.

(** C8 (as amended): for an endpoint that is neither ['/concessions'] nor
    ['/schedule/request'] and does not both start with ['/events/'] and end
    with ['/usage'], [postData] returns [{status: 'ok'}] and leaves the
    store as it is; [fetchData], [LS.get], [LS.set] and [seedIfEmpty]
    never raise. (In its three branches [postData] rethrows what was
    raised inside.) *)
Theorem postData_default_and_no_raise :
  (forall now endpoint data (st : Storage),
     endpoint <> "/concessions" -> is_usage endpoint = false ->
     endpoint <> "/schedule/request" ->
     postData now endpoint data st = (Ok (VObj [("status", VStr "ok")]), st)) /\
  (forall endpoint st e, fst (fetchData endpoint st) <> Throw e) /\
  (forall key fallback st e, fst (LS_get key fallback st) <> Throw e) /\
  (forall key v st e, fst (LS_set key v st) <> Throw e) /\
  (forall st e, fst (seedIfEmpty st) <> Throw e).
Proof.
  split; [exact postData_unrecognised|].
  split; [exact fetchData_no_throw|].
  split; [exact LS_get_no_throw|].
  split; [done|]. intros st e. apply seed_all_no_throw.
Qed.

Lemma postData_default_and_no_raise_witness :
  postData 0 "/events/7/sync" hot_dog store_seeded
  = (Ok (VObj [("status", VStr "ok")]), store_seeded).
Proof.
  apply (proj1 postData_default_and_no_raise 0 "/events/7/sync" hot_dog store_seeded).
  - discriminate.
  - reflexivity.
  - discriminate.
Defined.

(** C8 (as stated) fails twice. With the text [null] under the concessions
    key, [postData('/concessions', ...)] raises a [TypeError] to its
    caller. And ['/events/usage'], which is not ['/events/<id>/usage'] for
    any id, is taken for a usage target: the payload is stored under the
    key [usage] and the answer is [{status: 'success'}]. *)
Lemma postData_raises_and_overlaps :
  fst (postData 0 "/concessions" hot_dog store_concessions_null) = Throw TypeError /\
  (forall id, "/events/usage" <> "/events/" +:+ id +:+ "/usage") /\
  fst (postData 0 "/events/usage" hot_dog store_seeded)
    = Ok (VObj [("status", VStr "success")]) /\
  store_seeded !! STORAGE_KEYS.eventUsage = Some (stored (VObj [])) /\
  snd (postData 0 "/events/usage" hot_dog store_seeded) !! STORAGE_KEYS.eventUsage
    = Some (stored (VObj [("usage", hot_dog)])).
Proof.
  split; [vm_compute; reflexivity|]. split.
  - intros id H. apply (f_equal String.length) in H.
    rewrite !length_append in H. simpl in H. lia.
  - split; [vm_compute; reflexivity|].
    split; vm_compute; reflexivity.
Qed.

(* ================================================================== *)
(** * Event requests *)

Lemma is_digit_digit_char n : is_digit (digit_char n) = true.
Proof.
  unfold digit_char. pose proof (Z.mod_pos_bound n 10 ltac:(lia)) as H.
  assert (Z.to_N (n mod 10) < 10)%N as Hlt by lia.
  destruct (Z.to_N (n mod 10)) as [|p]; [done|].
  do 4 (destruct p as [p|p|]; try done; try lia).
Qed.

Lemma toISOString_shape t ts : toISOString t = Ok ts -> iso8601 ts = true.
Proof.
  unfold toISOString. destruct (civil_from_days (t / ms_per_day)) as [[y m] d].
  destruct (_ && _); [|done]. intros [= <-].
  unfold pad4, pad3, pad2. rewrite !append_cons, !append_nil_l.
  unfold iso8601. cbn [list_ascii_of_string forallb].
  rewrite !is_digit_digit_char. reflexivity.
Qed.

Lemma post_request now (st : Storage) l data ts :
  LS_get STORAGE_KEYS.eventRequests (VArr []) st = (Ok (VArr l), st) ->
  toISOString now = Ok ts ->
  let req := VObj (obj_define "created_at" (VStr ts)
                     (spread [("id", num (Z.of_nat (List.length l) + 1))] data)) in
  requestNewEvent now data st =
    (Ok (VObj [("status", VStr "success");
               ("message", VStr "Event request stored locally.")]),
     <[STORAGE_KEYS.eventRequests := stored (VArr (l ++ [req]))]> st).
Proof.
  intros Hget Hts req. unfold requestNewEvent, postData.
  change (String.eqb "/schedule/request" "/concessions") with false.
  change (is_usage "/schedule/request") with false.
  change (String.eqb "/schedule/request" "/schedule/request") with true.
  cbv iota. unfold try_catch, bind at 1. rewrite Hget.
  unfold bind, lift. simpl as_array. cbv iota. by rewrite Hts.
Qed.

(** C9 (as amended): when the stored event requests are a list and the
    payload has no [id] property of its own, [requestNewEvent] writes the
    list back with one record appended, whose id is the former length plus
    one and whose [created_at] is the ISO-8601 text of the time of the
    call, and answers with the acknowledgement, not the record; read
    back, the list is the former records, unchanged, followed by the new
    one. *)
Theorem requestNewEvent_appends now (st : Storage) l data ts :
  LS_get STORAGE_KEYS.eventRequests (VArr []) st = (Ok (VArr l), st) ->
  toISOString now = Ok ts ->
  obj_own "id" (own_props data) = None ->
  exists req,
    let st' := <[STORAGE_KEYS.eventRequests := stored (VArr (l ++ [req]))]> st in
    requestNewEvent now data st =
      (Ok (VObj [("status", VStr "success");
                 ("message", VStr "Event request stored locally.")]), st') /\
    get_field "id" req = Ok (num (Z.of_nat (List.length l) + 1)) /\
    get_field "created_at" req = Ok (VStr ts) /\
    iso8601 ts = true /\
    (json_value data = true -> Z.of_nat (List.length l) < max_exact ->
     LS_get STORAGE_KEYS.eventRequests (VArr []) st' = (Ok (VArr (l ++ [req])), st')).
Proof.
  intros Hget Hts Hid. eexists. cbv zeta.
  split; [by apply post_request|].
  split.
  { simpl. unfold obj_get. rewrite obj_own_define. simpl.
    by rewrite obj_own_spread. }
  split.
  { simpl. unfold obj_get. by rewrite obj_own_define. }
  split; [by eapply toISOString_shape|].
  intros Hjd Hlen. apply LS_get_insert.
  assert (Hjl : json_value (VArr l) = true)
    by (eapply LS_get_json; [exact Hget | reflexivity]).
  change (json_value (VArr ?x)) with (forallb json_value x) in *.
  rewrite forallb_app, Hjl. cbn [forallb andb].
  rewrite andb_true_r. apply json_value_define; [done|].
  apply json_item; [|done]. apply exact_bounds. unfold max_exact in *. lia.
Qed.

Lemma requestNewEvent_appends_witness :
  exists req,
    fst (requestNewEvent 1753034400000 hot_dog store_seeded)
      = Ok (VObj [("status", VStr "success");
                  ("message", VStr "Event request stored locally.")]) /\
    get_field "id" req = Ok (num 1) /\
    get_field "created_at" req = Ok (VStr "2025-07-20T18:00:00.000Z").
Proof.
  destruct (requestNewEvent_appends 1753034400000 store_seeded [] hot_dog
              "2025-07-20T18:00:00.000Z") as (req & Hpost & Hid & Hat & _).
  - apply LS_get_stored; [vm_compute; reflexivity | reflexivity].
  - vm_compute. reflexivity.
  - reflexivity.
  - exists req. cbv zeta in Hpost. rewrite Hpost. by repeat split.
Defined.

(** C9 (as stated) fails: a payload that carries an [id] keeps it. The
    first request stored in the seeded store, posted with id 99, is stored
    with id 99 and not with id 1. *)
Lemma requestNewEvent_keeps_payload_id :
  fst (LS_get STORAGE_KEYS.eventRequests (VArr []) store_seeded) = Ok (VArr []) /\
  fst (requestNewEvent 0 event_with_id store_seeded)
    = Ok (VObj [("status", VStr "success");
                ("message", VStr "Event request stored locally.")]) /\
  fst (LS_get STORAGE_KEYS.eventRequests (VArr [])
         (snd (requestNewEvent 0 event_with_id store_seeded)))
    = Ok (VArr [VObj [("id", num 99); ("title", VStr "Cup final");
                      ("created_at", VStr "1970-01-01T00:00:00.000Z")]]).
Proof. repeat split; vm_compute; reflexivity. Qed.

(* ================================================================== *)
(** * What the accessors leave alone *)

Lemma read_only_LS_get key fb : read_only (LS_get key fb).
Proof. intros st. apply LS_get_state. Qed.

Lemma read_only_ret {A} (a : A) : read_only (ret a).
Proof. by intros st. Qed.

Lemma read_only_lift {A} (r : result A) : read_only (lift r).
Proof. by intros st. Qed.

Lemma read_only_bind {A B} (m : M A) (f : A -> M B) :
  read_only m -> (forall a, read_only (f a)) -> read_only (bind m f).
Proof.
  intros Hm Hf st. unfold bind. specialize (Hm st).
  destruct (m st) as [[a|e|] st1]; simpl in Hm; subst; [apply Hf|done..].
Qed.

Lemma read_only_try_catch {A} (m : M A) h :
  read_only m -> (forall e, read_only (h e)) -> read_only (try_catch m h).
Proof.
  intros Hm Hh st. unfold try_catch. specialize (Hm st).
  destruct (m st) as [[a|e|] st1]; simpl in Hm; subst; [done|apply Hh|done].
Qed.

Lemma read_only_fetchData endpoint : read_only (fetchData endpoint).
Proof.
  unfold fetchData. apply read_only_try_catch; [|intros; apply read_only_ret].
  destruct (_ || _); [apply read_only_LS_get|].
  destruct (String.eqb endpoint "/locations"); [apply read_only_LS_get|].
  destruct (String.eqb endpoint "/concessions"); [apply read_only_LS_get|].
  destruct (is_usage endpoint); [|apply read_only_ret].
  apply read_only_bind; [apply read_only_LS_get|]. intros usage.
  apply read_only_bind; [apply read_only_lift|]. intros u. apply read_only_ret.
Qed.

(** X1: none of the read accessors writes to the store. [fetchInventory],
    [fetchInventorySummary], [fetchCoaches], [fetchTeams],
    [fetchCategories], [fetchStatuses], [fetchData] on every endpoint (and
    with it [fetchEvents], [fetchConcessions], [fetchSchedule],
    [fetchLocations] and [fetchEventUsage]) and [syncEventInventory] leave
    [localStorage] exactly as they found it, whether they return or
    throw. *)
Theorem accessors_read_only :
  read_only fetchInventory /\ read_only fetchInventorySummary /\
  read_only fetchCoaches /\ read_only fetchTeams /\
  read_only fetchCategories /\ read_only fetchStatuses /\
  (forall endpoint, read_only (fetchData endpoint)) /\
  read_only fetchEvents /\ read_only fetchConcessions /\
  read_only fetchSchedule /\ read_only fetchLocations /\
  (forall eventId, read_only (fetchEventUsage eventId)) /\
  (forall eventId, read_only (syncEventInventory eventId)).
Proof.
  split; [apply read_only_LS_get|].
  split.
  { apply read_only_bind; [apply read_only_LS_get|]. intros; apply read_only_lift. }
  split; [apply read_only_LS_get|]. split; [apply read_only_LS_get|].
  split.
  { apply read_only_bind; [apply read_only_LS_get|]. intros cats.
    apply read_only_bind; [apply read_only_lift|]. intros test.
    destruct (truthy test); [apply read_only_ret|].
    apply read_only_bind; [apply read_only_LS_get|]. intros; apply read_only_lift. }
  split; [apply read_only_LS_get|].
  split; [apply read_only_fetchData|].
  do 4 (split; [apply read_only_fetchData|]).
  split.
  - intros eventId. apply read_only_bind; [apply read_only_lift|].
    intros; apply read_only_fetchData.
  - intros eventId. apply read_only_ret.
Qed.

(* ================================================================== *)
(** * What [postData] writes *)

Lemma LS_get_cases key fb st :
  exists r, LS_get key fb st = (r, st) /\ forall e, r <> Throw e.
Proof.
  exists (fst (LS_get key fb st)). split.
  - rewrite <- (LS_get_state key fb st) at 3. by destruct (LS_get key fb st).
  - intros e. apply LS_get_no_throw.
Qed.

(** The call ended before the write. *)
Local Ltac stays :=
  intros [= <- <-]; left; split; [reflexivity | try (intros _ ?; discriminate)].

Lemma postData_effect now endpoint data (st : Storage) r st' :
  postData now endpoint data st = (r, st') ->
  (st' = st /\ (written_key endpoint <> None -> forall v, r <> Ok v)) \/
  (exists v key t, written_key endpoint = Some key /\
     r = Ok v /\ st' = <[key := t]> st).
Proof.
  unfold postData, written_key.
  destruct (String.eqb endpoint "/concessions").
  { unfold try_catch, bind at 1.
    destruct (LS_get_cases STORAGE_KEYS.concessions (VArr []) st) as (r0 & -> & Hr).
    destruct r0 as [list|e|]; [|by destruct (Hr e)|stays].
    unfold bind at 1, lift at 1.
    destruct (get_length list) as [len|e|]; [|stays..].
    unfold bind at 1, lift at 1.
    match goal with |- context [if truthy len then ?a else ?b] =>
      destruct (if truthy len then a else b) as [nextId|e|] end;
      [|stays..].
    unfold bind at 1, lift at 1.
    destruct (as_array list) as [l|e|]; [|stays..].
    intros [= <- <-]. right. by eexists _, _, _. }
  destruct (is_usage endpoint).
  { unfold try_catch, bind at 1.
    destruct (LS_get_cases STORAGE_KEYS.eventUsage (VObj []) st) as (r0 & -> & Hr).
    destruct r0 as [usage|e|]; [|by destruct (Hr e)|stays].
    unfold bind at 1, lift at 1.
    destruct (set_index _ data usage) as [usage'|e|]; [|stays..].
    intros [= <- <-]. right. by eexists _, _, _. }
  destruct (String.eqb endpoint "/schedule/request").
  { unfold try_catch, bind at 1.
    destruct (LS_get_cases STORAGE_KEYS.eventRequests (VArr []) st) as (r0 & -> & Hr).
    destruct r0 as [reqs|e|]; [|by destruct (Hr e)|stays].
    unfold bind at 1, lift at 1.
    destruct (as_array reqs) as [l|e|]; [|stays..].
    unfold bind at 1, lift at 1.
    destruct (toISOString now) as [ts|e|]; [|stays..].
    intros [= <- <-]. right. by eexists _, _, _. }
  stays. done.
Qed.

(** X2: [postData] writes to one collection at most, the one of the
    branch it takes: concessions for ['/concessions'], event usage for a
    usage endpoint, event requests for ['/schedule/request']. The text
    under every other key is untouched, so what [LS.get] reads there is the
    same before and after the call: a requested event, for one, never
    shows in the schedule. *)
Theorem postData_frame now endpoint data (st : Storage) k :
  written_key endpoint <> Some k ->
  snd (postData now endpoint data st) !! k = st !! k /\
  (forall fallback,
     fst (LS_get k fallback (snd (postData now endpoint data st)))
     = fst (LS_get k fallback st)).
Proof.
  intros Hk.
  assert (H : snd (postData now endpoint data st) !! k = st !! k).
  { destruct (postData now endpoint data st) as [r st'] eqn:E.
    destruct (postData_effect _ _ _ _ _ _ E)
      as [[-> _]|(v & key & t & Hkey & _ & ->)]; [done|].
    simpl. apply lookup_insert_ne. congruence. }
  split; [done|]. intros fb. rewrite !LS_get_unfold. simpl. by rewrite H.
Qed.

Lemma postData_frame_witness :
  snd (requestNewEvent 0 hot_dog store_seeded) !! STORAGE_KEYS.schedule
    = store_seeded !! STORAGE_KEYS.schedule /\
  fst (LS_get STORAGE_KEYS.schedule (VArr [])
         (snd (requestNewEvent 0 hot_dog store_seeded)))
    = fst (LS_get STORAGE_KEYS.schedule (VArr []) store_seeded).
Proof.
  destruct (postData_frame 0 "/schedule/request" hot_dog store_seeded
              STORAGE_KEYS.schedule) as [H1 H2].
  - vm_compute. discriminate.
  - split; [exact H1 | exact (H2 (VArr []))].
Defined.

(** X3: a call of [postData] that does not return writes nothing: when
    it throws, the store is the one it started from. The write is the last
    step of every branch and [LS.set] swallows its own failures, so no
    branch can fail after having written. *)
Theorem postData_failure_writes_nothing now endpoint data (st : Storage) :
  (forall v, fst (postData now endpoint data st) <> Ok v) ->
  snd (postData now endpoint data st) = st.
Proof.
  destruct (postData now endpoint data st) as [r st'] eqn:E. simpl. intros H.
  destruct (postData_effect _ _ _ _ _ _ E)
    as [[-> _]|(v & key & t & Hkey & -> & _)]; [done|].
  by destruct (H v).
Qed.

Lemma postData_failure_writes_nothing_witness :
  snd (postData 0 "/concessions" hot_dog store_concessions_null)
  = store_concessions_null.
Proof.
  apply (postData_failure_writes_nothing 0 "/concessions" hot_dog
           store_concessions_null).
  intros v H. vm_compute in H. discriminate.
Defined.

(* ================================================================== *)
(** * Collections that do not hold what the code expects *)

(** X4: [postData] rejects with a [TypeError], and writes nothing, when
    the collection it appends to holds a JSON value that is not an array
    (the concessions for [addConcessionItem], the event requests for
    [requestNewEvent]), and when the event usage collection holds [null]
    for [saveEventUsage]. *)
Theorem postData_rejects_non_array now data (st : Storage) v :
  is_array v = false ->
  (LS_get STORAGE_KEYS.concessions (VArr []) st = (Ok v, st) ->
   addConcessionItem now data st = (Throw TypeError, st)) /\
  (LS_get STORAGE_KEYS.eventRequests (VArr []) st = (Ok v, st) ->
   requestNewEvent now data st = (Throw TypeError, st)) /\
  (forall eventId e,
     LS_get STORAGE_KEYS.eventUsage (VObj []) st = (Ok VNull, st) ->
     usage_endpoint eventId = Ok e ->
     saveEventUsage now eventId data st = (Throw TypeError, st)).
Proof.
  intros Hv. split; [|split].
  - intros Hget. unfold addConcessionItem, postData.
    change (String.eqb "/concessions" "/concessions") with true. cbv iota.
    unfold try_catch, bind at 1. rewrite Hget.
    unfold bind at 1, lift at 1.
    destruct v as [ | | b | n | s | l | o]; try done; simpl get_length; cbv iota;
      try reflexivity.
    + unfold bind at 1, lift at 1. by destruct (truthy _).
    + unfold obj_get. destruct (obj_own "length" o) as [len|].
      * unfold bind at 1, lift at 1. by destruct (truthy len).
      * reflexivity.
  - intros Hget. unfold requestNewEvent, postData.
    change (String.eqb "/schedule/request" "/concessions") with false.
    change (is_usage "/schedule/request") with false.
    change (String.eqb "/schedule/request" "/schedule/request") with true.
    cbv iota. unfold try_catch, bind at 1. rewrite Hget.
    unfold bind at 1, lift at 1. by destruct v.
  - intros eventId e Hget He.
    destruct (usage_endpoint_shape _ _ He) as [s ->].
    destruct (usage_endpoint_recognised s) as (_ & _ & _ & H4 & H5).
    unfold saveEventUsage, bind at 1, lift at 1. rewrite He.
    unfold postData. cbv zeta in H4, H5. rewrite H4, H5.
    unfold try_catch, bind at 1. by rewrite Hget.
Qed.

Lemma postData_rejects_non_array_witness :
  addConcessionItem 0 hot_dog store_concessions_null
    = (Throw TypeError, store_concessions_null) /\
  requestNewEvent 0 hot_dog (<[STORAGE_KEYS.eventRequests := "7"]> store_seeded)
    = (Throw TypeError, <[STORAGE_KEYS.eventRequests := "7"]> store_seeded) /\
  saveEventUsage 0 (num 7) hot_dog (<[STORAGE_KEYS.eventUsage := "null"]> store_seeded)
    = (Throw TypeError, <[STORAGE_KEYS.eventUsage := "null"]> store_seeded).
Proof.
  split; [|split].
  - apply (proj1 (postData_rejects_non_array 0 hot_dog store_concessions_null
                    VNull eq_refl)).
    rewrite LS_get_unfold. unfold store_concessions_null.
    rewrite lookup_insert_eq. reflexivity.
  - apply (proj1 (proj2 (postData_rejects_non_array 0 hot_dog _ (num 7) eq_refl))).
    rewrite LS_get_unfold, lookup_insert_eq. reflexivity.
  - apply (proj2 (proj2 (postData_rejects_non_array 0 hot_dog _ VNull eq_refl))
             (num 7) "/events/7/usage"); [|reflexivity].
    rewrite LS_get_unfold, lookup_insert_eq. reflexivity.
Defined.

Lemma quantity_category r n :
  quantity r = Ok n -> exists v, get_field "category" r = Ok v.
Proof.
  destruct r as [ | | | | | | o]; simpl; try done; eauto.
  intros _. unfold obj_get. destruct (obj_own "category" o); eauto.
Qed.

Lemma sum_quantity_null good rest :
  Forall (fun r => exists z, quantity r = Ok (Int z)) good ->
  magnitude good <= max_exact ->
  sum_quantity (VArr (good ++ VNull :: rest)) = Throw TypeError.
Proof.
  intros HF Hm. unfold sum_quantity. cbn [as_array rbind].
  assert (forall a, Z.abs a + magnitude good <= max_exact ->
            rfoldM (fun a i => q <-- quantity i ;; num_add a q)%res
                   (good ++ VNull :: rest) (Int a) = Throw TypeError) as H.
  { clear Hm. induction HF as [|r l [z Hz] HF IH]; intros a Ha; [done|].
    pose proof (quantity_qty r z Hz) as Hq.
    unfold magnitude in Ha. simpl in Ha. fold (magnitude l) in Ha.
    assert (0 <= magnitude l) by (clear; unfold magnitude; induction l; simpl; lia).
    cbn [app rfoldM]. rewrite Hz. cbn [rbind]. unfold num_add at 1.
    replace (exact (a + z)) with true by (symmetry; apply exact_bounds; lia).
    cbn [rbind]. apply IH. lia. }
  apply H. lia.
Qed.

Lemma categories_null good rest :
  Forall (fun r => exists z, quantity r = Ok (Int z)) good ->
  rmapM (get_field "category") (good ++ VNull :: rest) = Throw TypeError.
Proof.
  induction 1 as [|r l [z Hz] HF IH]; [done|].
  destruct (quantity_category _ _ Hz) as [v Hv].
  cbn [app rmapM]. by rewrite Hv, IH.
Qed.

(** X5: the inventory readers have no handler of their own.
    [fetchInventorySummary] rejects with a [TypeError] when the stored
    inventory is a JSON value that is not an array, and when one of its
    records is [null] (the records before it being readable); so does
    [fetchCategories] in the same two cases once the stored category list
    is empty and it turns to the inventory. The store is not changed. *)
Theorem inventory_readers_reject (st : Storage) :
  (forall v,
     is_array v = false ->
     LS_get STORAGE_KEYS.inventory (VArr []) st = (Ok v, st) ->
     fetchInventorySummary st = (Throw TypeError, st) /\
     (LS_get STORAGE_KEYS.categories (VArr []) st = (Ok (VArr []), st) ->
      fetchCategories st = (Throw TypeError, st))) /\
  (forall good rest,
     LS_get STORAGE_KEYS.inventory (VArr []) st
       = (Ok (VArr (good ++ VNull :: rest)), st) ->
     Forall (fun r => exists z, quantity r = Ok (Int z)) good ->
     magnitude good <= max_exact ->
     fetchInventorySummary st = (Throw TypeError, st) /\
     (LS_get STORAGE_KEYS.categories (VArr []) st = (Ok (VArr []), st) ->
      fetchCategories st = (Throw TypeError, st))).
Proof.
  assert (Hcats : forall items r,
    LS_get STORAGE_KEYS.categories (VArr []) st = (Ok (VArr []), st) ->
    LS_get STORAGE_KEYS.inventory (VArr []) st = (Ok items, st) ->
    (l <-- as_array items ;; cs <-- rmapM (get_field "category") l ;;
     Ok (VArr (set_from [] (List.filter truthy cs))))%res = r ->
    fetchCategories st = (r, st)).
  { intros items r Hc Hi <-. unfold fetchCategories, bind at 1. rewrite Hc.
    unfold bind at 1, lift at 1. simpl get_length.
    change (truthy (VArr [])) with true. cbv iota.
    change (truthy (num (Z.of_nat 0))) with false. cbv iota.
    unfold bind, lift. by rewrite Hi. }
  split.
  - intros v Hv Hget. split.
    + unfold fetchInventorySummary, bind. rewrite Hget. by destruct v.
    + intros Hc. apply (Hcats v _ Hc Hget). by destruct v.
  - intros good rest Hget HF Hm. split.
    + unfold fetchInventorySummary, bind. rewrite Hget. unfold lift.
      by rewrite sum_quantity_null.
    + intros Hc. apply (Hcats _ _ Hc Hget). cbn [as_array rbind].
      by rewrite categories_null.
Qed.

Lemma inventory_readers_reject_witness :
  let st1 := <[STORAGE_KEYS.categories := "[]"]>
               (<[STORAGE_KEYS.inventory := "{}"]> store_seeded) in
  let st2 := <[STORAGE_KEYS.inventory := "[{},null]"]> store_seeded in
  fetchInventorySummary st1 = (Throw TypeError, st1) /\
  fetchCategories st1 = (Throw TypeError, st1) /\
  fetchInventorySummary st2 = (Throw TypeError, st2).
Proof.
  intros st1 st2.
  assert (Hinv : LS_get STORAGE_KEYS.inventory (VArr []) st1 = (Ok (VObj []), st1)).
  { rewrite LS_get_unfold. unfold st1.
    rewrite lookup_insert_ne by done. rewrite lookup_insert_eq. reflexivity. }
  destruct (proj1 (inventory_readers_reject st1) (VObj []) eq_refl Hinv) as [H1 H2].
  split; [exact H1|]. split.
  - apply H2. rewrite LS_get_unfold. unfold st1. rewrite lookup_insert_eq. reflexivity.
  - apply (proj2 (inventory_readers_reject st2) [VObj []] []).
    + rewrite LS_get_unfold. unfold st2. rewrite lookup_insert_eq. reflexivity.
    + repeat constructor. by exists 0.
    + vm_compute. discriminate.
Defined.

(* ================================================================== *)
(** * The usage endpoints *)

Lemma split_head s rest :
  exists t, split "/" (s +:+ String "/" rest) = before_slash s :: t.
Proof.
  induction s as [|c s [t IH]].
  - rewrite append_nil_l. simpl. eauto.
  - rewrite append_cons. simpl. rewrite IH.
    destruct (Ascii.eqb c "/"); eauto.
Qed.

Lemma segment_usage s :
  segment ("/events/" +:+ s +:+ "/usage") = before_slash s.
Proof.
  unfold segment. rewrite !append_cons, append_nil_l.
  destruct (split_head s "usage") as [t Ht].
  change (s +:+ "/usage") with (s +:+ String "/" "usage").
  cbn [split Ascii.eqb Bool.eqb]. rewrite Ht. reflexivity.
Qed.

Lemma before_slash_id s : has_slash s = false -> before_slash s = s.
Proof.
  unfold has_slash. induction s as [|c s IH]; [done|].
  cbn [list_ascii_of_string existsb before_slash].
  rewrite (Ascii.eqb_sym "/" c). destruct (Ascii.eqb c "/"); [done|].
  intros H. by rewrite IH.
Qed.

Lemma has_slash_digits d : has_slash (NilEmpty.string_of_uint d) = false.
Proof. unfold has_slash. induction d; simpl; done. Qed.

Lemma has_slash_number n : has_slash (number_to_string (Int n)) = false.
Proof.
  unfold number_to_string, string_of_N.
  destruct (n <? 0); [|apply has_slash_digits].
  unfold has_slash. cbn [list_ascii_of_string existsb].
  change (Ascii.eqb "/" "-") with false. apply has_slash_digits.
Qed.

(** X6: the event id put into a usage endpoint comes back out of it.
    For an id whose text is [s], the endpoint [`/events/${id}/usage`] is
    recognised as a usage endpoint and [endpoint.split('/')[2]] is the
    part of [s] before its first slash: [s] itself when [s] has no slash,
    which is so for every integer id. *)
Theorem usage_endpoint_segment :
  (forall eventId s,
     ToString eventId = Ok s ->
     exists e, usage_endpoint eventId = Ok e /\ is_usage e = true /\
               segment e = before_slash s /\
               (has_slash s = false -> segment e = s)) /\
  (forall n, exists e, usage_endpoint (num n) = Ok e /\
                       segment e = number_to_string (Int n)).
Proof.
  assert (H : forall eventId s,
     ToString eventId = Ok s ->
     exists e, usage_endpoint eventId = Ok e /\ is_usage e = true /\
               segment e = before_slash s /\
               (has_slash s = false -> segment e = s)).
  { intros eventId s Hs. exists ("/events/" +:+ s +:+ "/usage").
    split; [unfold usage_endpoint; by rewrite Hs|].
    split; [apply usage_endpoint_recognised|].
    split; [apply segment_usage|].
    intros Hn. rewrite segment_usage. by apply before_slash_id. }
  split; [exact H|]. intros n.
  destruct (H (num n) _ eq_refl) as (e & He & _ & _ & Hseg).
  exists e. split; [exact He|]. apply Hseg, has_slash_number.
Qed.

Lemma usage_endpoint_segment_witness :
  (exists e, usage_endpoint (VStr "7") = Ok e /\ segment e = "7") /\
  (exists e, usage_endpoint (VStr "7/8") = Ok e /\ segment e = "7").
Proof.
  split.
  - destruct (proj1 usage_endpoint_segment (VStr "7") "7" eq_refl)
      as (e & He & _ & _ & Hs).
    exists e. split; [exact He | exact (Hs eq_refl)].
  - destruct (proj1 usage_endpoint_segment (VStr "7/8") "7/8" eq_refl)
      as (e & He & _ & Hs & _).
    exists e. split; [exact He | exact Hs].
Defined.




Lemma obj_define_overwrite k v w o :
  obj_define k v (obj_define k w o) = obj_define k v o.
Proof.
  induction o as [|[k1 v1] o IH]; simpl.
  - by rewrite String.eqb_refl.
  - destruct (String.eqb k k1) eqn:E1; simpl.
    + by rewrite String.eqb_refl.
    + destruct (precedes k k1) eqn:E2; simpl.
      * by rewrite String.eqb_refl.
      * by rewrite E1, E2, IH.
Qed.

(** X8: of two usage saves for the same event the first leaves no
    trace. When the usage collection is an object and the first payload is
    JSON-representable, the store after both saves is the store the second
    save alone would have produced, key order included. *)
Theorem saveEventUsage_last_write_wins now (st : Storage) eventId e o d1 d2 :
  usage_endpoint eventId = Ok e ->
  LS_get STORAGE_KEYS.eventUsage (VObj []) st = (Ok (VObj o), st) ->
  segment e <> "__proto__" ->
  json_value d1 = true ->
  snd (saveEventUsage now eventId d2 (snd (saveEventUsage now eventId d1 st)))
  = snd (saveEventUsage now eventId d2 st).
Proof.
  intros He Hget Hproto Hj1.
  assert (Hjo : json_value (VObj o) = true)
    by (eapply LS_get_json; [exact Hget | reflexivity]).
  destruct (usage_endpoint_shape _ _ He) as [s ->].
  set (k := segment ("/events/" +:+ s +:+ "/usage")) in *.
  assert (Hs : forall d st0 o0,
            LS_get STORAGE_KEYS.eventUsage (VObj []) st0 = (Ok (VObj o0), st0) ->
            snd (saveEventUsage now eventId d st0)
            = <[STORAGE_KEYS.eventUsage := stored (VObj (obj_define k d o0))]> st0).
  { intros d st0 o0 H0. unfold saveEventUsage, bind, lift. rewrite He.
    pose proof (postData_usage now st0 s o0 d H0 Hproto) as Hp.
    cbv zeta in Hp. by rewrite Hp. }
  rewrite (Hs d1 st o Hget).
  rewrite (Hs d2 _ (obj_define k d1 o)).
  - rewrite (Hs d2 st o Hget), obj_define_overwrite. apply insert_insert_eq.
  - apply LS_get_insert. by apply json_value_define.
Qed.

Lemma saveEventUsage_last_write_wins_witness :
  snd (saveEventUsage 0 (num 7) hot_dog (snd (saveEventUsage 0 (num 7) (num 4) store_seeded)))
  = snd (saveEventUsage 0 (num 7) hot_dog store_seeded).
Proof.
  apply (saveEventUsage_last_write_wins 0 store_seeded (num 7) "/events/7/usage" []
           (num 4) hot_dog eq_refl).
  - apply LS_get_stored; [vm_compute; reflexivity | reflexivity].
  - vm_compute. discriminate.
  - reflexivity.
Defined.

(* ================================================================== *)
(** * What seeding establishes *)

Lemma readable_get st k fb :
  readable st k -> exists v, LS_get k fb st = (Ok v, st).
Proof.
  intros H. rewrite LS_get_unfold. destruct (st !! k) as [s|] eqn:E; [|by eexists].
  destruct (negb _); [|by eexists].
  specialize (H s E). destruct (JSON_parse s); [by eexists..|done].
Qed.

Lemma holds_truthy_lookup (st st' : Storage) k :
  st' !! k = st !! k -> holds_truthy st k -> holds_truthy st' k.
Proof. intros E (s & v & Hs & H). exists s, v. by rewrite E. Qed.

Lemma LS_get_lookup (st st' : Storage) k fb :
  st' !! k = st !! k -> fst (LS_get k fb st') = fst (LS_get k fb st).
Proof. intros E. rewrite !LS_get_unfold. simpl. by rewrite E. Qed.

Lemma seed_all_runs l (st : Storage) :
  NoDup (map fst l) ->
  Forall (fun kd => json_value (snd kd) = true /\ truthy (snd kd) = true) l ->
  (forall k, In k (map fst l) -> readable st k) ->
  exists st', seed_all l st = (Ok tt, st') /\
    (forall k d v, In (k, d) l -> fst (LS_get k VUndefined st) = Ok v ->
                   truthy v = false -> st' !! k = Some (stored d)) /\
    (forall k, holds_truthy st k -> st' !! k = st !! k).
Proof.
  revert st. induction l as [|[k d] l IH]; intros st Hnd HF Hr.
  - exists st. split; [reflexivity|]. split; [by intros ? ? ? []|done].
  - apply NoDup_cons in Hnd as [Hk Hnd]. apply Forall_cons in HF as [[Hj Ht] HF].
    rewrite list_elem_of_In in Hk.
    destruct (readable_get st k VUndefined (Hr k ltac:(by left))) as [v Hv].
    pose proof (seed_unfold k d st) as Hs. rewrite Hv in Hs. cbn [fst] in Hs.
    set (st1 := if truthy v then st else <[k := stored d]> st) in *.
    assert (Hother : forall k', k' <> k -> st1 !! k' = st !! k').
    { intros k' Hne. subst st1. destruct (truthy v); [done|].
      by rewrite lookup_insert_ne. }
    destruct (IH st1 Hnd HF) as (st' & Hrun & Hmiss & Hkeep).
    { intros k' Hk' s. rewrite Hother; [by apply Hr; right|].
      intros ->. by apply Hk. }
    destruct (seed_all_establishes l st1 st' Hnd HF Hrun) as [_ Hframe].
    exists st'. split; [|split].
    + simpl. unfold bind. by rewrite Hs.
    + intros k' d' v' [[= <- <-]|Hin] Hget Hfalsy.
      * rewrite Hframe by done. subst st1.
        rewrite Hv in Hget. injection Hget as <-. rewrite Hfalsy.
        by rewrite lookup_insert_eq.
      * assert (k' <> k) as Hne.
        { intros ->. apply Hk. exact (in_map fst _ _ Hin). }
        apply (Hmiss k' d' v'); [done| |done].
        by rewrite (LS_get_lookup st st1) by (by apply Hother).
    + intros k' Hk'. destruct (String.eqb_spec k' k) as [->|Hne].
      * assert (st1 = st) as E.
        { pose proof (seed_keeps_truthy k d st Hk') as E. rewrite Hs in E.
          by injection E. }
        rewrite E in *. by apply Hkeep.
      * rewrite Hkeep; [by apply Hother|].
        eapply holds_truthy_lookup; [|exact Hk']. by apply Hother.
Qed.

(** X9: [seedIfEmpty] returns, and afterwards every collection is there.
    On a store whose collection texts are inside the modelled fragment of
    JSON it ends normally, and in the store it leaves every collection key
    holds a text that parses to a truthy value; a collection that read as
    falsy before (its key missing, its text empty or not parseable, its
    value falsy) reads as its default; a collection that held a truthy
    value keeps its text; and no key other than the ten collection keys is
    touched. *)
Theorem seedIfEmpty_establishes (st : Storage) :
  (forall k, In k (map fst seeds) -> readable st k) ->
  exists st', seedIfEmpty st = (Ok tt, st') /\
    (forall k, In k (map fst seeds) -> holds_truthy st' k) /\
    (forall k d v fallback,
       In (k, d) seeds -> fst (LS_get k VUndefined st) = Ok v -> truthy v = false ->
       LS_get k fallback st' = (Ok d, st')) /\
    (forall k, holds_truthy st k -> st' !! k = st !! k) /\
    (forall k, ~ In k (map fst seeds) -> st' !! k = st !! k).
Proof.
  intros Hr.
  destruct (seed_all_runs seeds st seeds_distinct seeds_truthy Hr)
    as (st' & Hrun & Hmiss & Hkeep).
  destruct (seed_all_establishes seeds st st' seeds_distinct seeds_truthy Hrun)
    as [Hall Hframe].
  exists st'. split; [exact Hrun|]. split; [exact Hall|].
  split; [|split; [exact Hkeep | exact Hframe]].
  intros k d v fb Hin Hget Hfalsy. apply LS_get_stored; [by eapply Hmiss|].
  pose proof seeds_truthy as HF. rewrite Forall_forall in HF.
  apply list_elem_of_In in Hin. by destruct (HF _ Hin).
Qed.

Lemma seedIfEmpty_establishes_witness :
  exists st',
    seedIfEmpty {["theme" := "dark"; STORAGE_KEYS.teams := "{oops"]} = (Ok tt, st') /\
    LS_get STORAGE_KEYS.teams VNull st' = (Ok default_teams, st') /\
    LS_get STORAGE_KEYS.inventory VNull st' = (Ok (VArr []), st') /\
    st' !! "theme" = Some "dark".
Proof.
  destruct (seedIfEmpty_establishes
              {["theme" := "dark"; STORAGE_KEYS.teams := "{oops"]})
    as (st' & Hrun & _ & Hmiss & _ & Hframe).
  - intros k Hk s Hs. simpl in Hk.
    repeat (destruct Hk as [<-|Hk];
            [vm_compute in Hs; try discriminate Hs; injection Hs as <-;
             by vm_compute|]).
    destruct Hk.
  - exists st'. split; [exact Hrun|]. split; [|split].
    + apply (Hmiss _ _ VUndefined); [by left | by vm_compute | done].
    + apply (Hmiss _ _ VUndefined); [|by vm_compute | done].
      do 6 right. by left.
    + rewrite Hframe; [by vm_compute|].
      simpl. intros Hk.
      repeat (destruct Hk as [Hk|Hk]; [by vm_compute in Hk|]). destruct Hk.
Defined.

(* ================================================================== *)
(** * Values that JSON does not represent *)

Lemma normalise_obj o : normalise (VObj o) = VObj (normalise_props o).
Proof. reflexivity. Qed.

Lemma well_formed_obj o :
  well_formed (VObj o)
  = ordered (map fst o) && forallb (fun kv => well_formed (snd kv)) o.
Proof.
  simpl. f_equal. induction o as [|[k x] o IH]; [done|]. simpl. by rewrite IH.
Qed.

Lemma normalise_props_keys o f :
  In f (map fst (normalise_props o)) -> In f (map fst o).
Proof.
  induction o as [|[k x] o IH]; [done|]. simpl.
  destruct x; simpl; intros H; try (destruct H as [H|H]; [by left|]); right; auto.
Qed.

Lemma ordered_normalise_props o :
  ordered (map fst o) = true -> ordered (map fst (normalise_props o)) = true.
Proof.
  induction o as [|[k x] o IH]; [done|].
  change (map fst ((k, x) :: o)) with (k :: map fst o).
  intros [Hk Ho]%ordered_cons. specialize (IH Ho).
  assert (ordered (k :: map fst (normalise_props o)) = true) as H.
  { apply ordered_cons. split; [|done]. intros f Hf. by apply Hk, normalise_props_keys. }
  by destruct x.
Qed.

Lemma normalise_text v :
  well_formed v = true ->
  json_value (normalise v) = true /\
  or_null (stringify (normalise v)) = or_null (stringify v).
Proof.
  induction v as [ | | b | [|z] | s | l IHl | o IHo] using value_ind; intros Hw;
    try (by split).
  - change (normalise (VArr l)) with (VArr (map normalise l)).
    simpl in Hw.
    assert (forallb json_value (map normalise l) = true /\
            map (fun x => or_null (stringify x)) (map normalise l)
            = map (fun x => or_null (stringify x)) l) as [H1 H2].
    { induction l as [|x l IH]; [done|].
      apply Forall_cons in IHl as [Hx Hl]. simpl in Hw.
      apply andb_true_iff in Hw as [Hwx Hwl].
      destruct (Hx Hwx) as [Hj Hs]. destruct (IH Hl Hwl) as [Hjl Hsl].
      simpl. by rewrite Hj, Hjl, Hs, Hsl. }
    split; [exact H1|]. simpl. by rewrite H2.
  - rewrite normalise_obj. rewrite well_formed_obj in Hw.
    apply andb_true_iff in Hw as [Hord Hw].
    assert (json_props (normalise_props o) = true /\
            members (normalise_props o) = members o) as [H1 H2].
    { clear Hord. induction o as [|[k x] o IH]; [done|].
      apply Forall_cons in IHo as [Hx Ho]. simpl in Hw, Hx.
      apply andb_true_iff in Hw as [Hwx Hwo].
      destruct (Hx Hwx) as [Hj Hs]. destruct (IH Ho Hwo) as [Hjo Hso].
      destruct (json_value_stringify _ Hj) as [t Ht]. rewrite Ht in Hs. simpl in Hs.
      destruct x as [ | | b | [|z] | s | l | p];
        [done | | | | | | | ];
        (split; [cbn [normalise_props json_props forallb snd];
                 unfold json_props in Hjo; by rewrite Hj, Hjo|]);
        cbn [normalise_props members]; rewrite Ht, Hso.
      all: destruct (stringify _) as [u|] eqn:Eu;
        [simpl in Hs; by subst | by destruct b || discriminate Eu]. }
    split.
    + rewrite json_value_obj, H1, andb_true_r. by apply ordered_normalise_props.
    + by rewrite !stringify_obj, H2.
Qed.

Lemma stringify_defined v : v <> VUndefined -> is_Some (stringify v).
Proof. destruct v as [ | | [] | [|z] | s | l | o]; simpl; by eauto. Qed.

Lemma LS_get_insert_normal key fb v (st : Storage) :
  well_formed v = true -> v <> VUndefined ->
  LS_get key fb (<[key := stored v]> st) = (Ok (normalise v), <[key := stored v]> st).
Proof.
  intros Hw Hv. destruct (normalise_text v Hw) as [Hj Hs].
  rewrite LS_get_unfold, lookup_insert_eq, stored_nonempty. cbn [negb].
  destruct (stringify_defined v Hv) as [t Ht]. unfold stored. rewrite Ht.
  rewrite Ht in Hs. simpl in Hs. by rewrite <- Hs, (JSON_parse_stringify _ Hj).
Qed.

(** X10: what [LS.get] reads after [LS.set] for a value that JSON does
    not represent. Written with [LS.set], [undefined] reads back as the
    fallback (the stored text [undefined] does not parse); every other
    value reads back normalised: [undefined] and [NaN] inside an array as
    [null], [NaN] as [null], and without the properties whose value is
    [undefined]. *)
Theorem LS_set_get_normalises key v fallback (st : Storage) :
  well_formed v = true ->
  let st' := snd (LS_set key v st) in
  LS_get key fallback st' =
    (Ok (match v with VUndefined => fallback | _ => normalise v end), st').
Proof.
  intros Hw. rewrite LS_set_unfold. cbn [snd].
  assert (v = VUndefined \/ v <> VUndefined) as [->|Hv]
    by (destruct v; (by left) || (by right)).
  - rewrite LS_get_unfold, lookup_insert_eq. reflexivity.
  - rewrite LS_get_insert_normal by done. by destruct v.
Qed.

Lemma LS_set_get_normalises_witness :
  fst (LS_get "k" (VArr []) (snd (LS_set "k" VUndefined ∅))) = Ok (VArr []) /\
  fst (LS_get "k" (VArr [])
         (snd (LS_set "k" (VObj [("a", VUndefined); ("b", VArr [VNum NaN; VUndefined])]) ∅)))
    = Ok (VObj [("b", VArr [VNull; VNull])]).
Proof.
  split.
  - by rewrite (LS_set_get_normalises "k" VUndefined (VArr []) ∅ eq_refl).
  - by rewrite (LS_set_get_normalises "k"
                  (VObj [("a", VUndefined); ("b", VArr [VNum NaN; VUndefined])])
                  (VArr []) ∅ eq_refl).
Defined.

(* ================================================================== *)
(** * Sequences of posts *)







(** X12: event requests posted one after the other get consecutive ids.
    When the stored requests are a list and the payloads are
    JSON-representable and carry no [id], requesting them in turn, each
    call at its own time, succeeds; the list read back is the former list
    followed by one record per call, in the order of the calls, with the
    ids length + 1, length + 2, and so on. *)
Theorem requestNewEvent_consecutive_ids calls : forall (st : Storage) l,
  LS_get STORAGE_KEYS.eventRequests (VArr []) st = (Ok (VArr l), st) ->
  Forall (fun c => (exists ts, toISOString (fst c) = Ok ts) /\
                   json_value (snd c) = true /\
                   obj_own "id" (own_props (snd c)) = None) calls ->
  Z.of_nat (List.length l + List.length calls) <= max_exact ->
  exists reqs st',
    request_all calls st = (Ok tt, st') /\
    LS_get STORAGE_KEYS.eventRequests (VArr []) st' = (Ok (VArr (l ++ reqs)), st') /\
    map (get_field "id") reqs
      = map (fun z => Ok (num z))
            (count_from (Z.of_nat (List.length l) + 1) (List.length calls)).
Proof.
  intros st l Hget HF. revert st l Hget.
  induction HF as [|[now d] calls [[ts Hts] [Hjd Hid]] HF IH]; intros st l Hget Hlen.
  - exists [], st. rewrite app_nil_r.
    split; [reflexivity|]. split; [exact Hget | reflexivity].
  - cbn [fst snd] in *.
    set (req := VObj (obj_define "created_at" (VStr ts)
                        (spread [("id", num (Z.of_nat (List.length l) + 1))] d))).
    pose proof (post_request now st l d ts Hget Hts) as Hpost. cbv zeta in Hpost.
    fold req in Hpost.
    set (st1 := <[STORAGE_KEYS.eventRequests := stored (VArr (l ++ [req]))]> st) in *.
    assert (Hjl : json_value (VArr l) = true)
      by (eapply LS_get_json; [exact Hget | reflexivity]).
    cbn [List.length] in Hlen.
    assert (Hjr : json_value req = true).
    { apply json_value_define; [done|]. apply json_item; [|done].
      apply exact_bounds. unfold max_exact in *. lia. }
    assert (Hget1 : LS_get STORAGE_KEYS.eventRequests (VArr []) st1
                    = (Ok (VArr (l ++ [req])), st1)).
    { apply LS_get_insert.
      change (json_value (VArr ?x)) with (forallb json_value x) in *.
      by rewrite forallb_app, Hjl; cbn [forallb]; rewrite Hjr. }
    destruct (IH st1 (l ++ [req]) Hget1) as (reqs & st' & Hrun & Hget' & Hids).
    { rewrite length_app. simpl. lia. }
    exists (req :: reqs), st'. split; [|split].
    + cbn [request_all]. unfold bind. by rewrite Hpost.
    + by rewrite <- app_assoc in Hget'.
    + cbn [map List.length count_from]. f_equal.
      * unfold req. simpl. unfold obj_get. rewrite obj_own_define. simpl.
        by rewrite obj_own_spread.
      * rewrite Hids, length_app. simpl.
        by replace (Z.of_nat (List.length l + 1) + 1)
             with (Z.of_nat (List.length l) + 1 + 1) by lia.
Qed.

Lemma requestNewEvent_consecutive_ids_witness :
  exists reqs st',
    request_all [(0, hot_dog); (1753034400000, hot_dog)] store_seeded = (Ok tt, st') /\
    LS_get STORAGE_KEYS.eventRequests (VArr []) st' = (Ok (VArr reqs), st') /\
    map (get_field "id") reqs = [Ok (num 1); Ok (num 2)].
Proof.
  apply (requestNewEvent_consecutive_ids [(0, hot_dog); (1753034400000, hot_dog)]
           store_seeded []).
  - apply LS_get_stored; [vm_compute; reflexivity | reflexivity].
  - repeat constructor; eexists; vm_compute; reflexivity.
  - vm_compute. discriminate.
Defined.

(* ================================================================== *)
(** * The payload in the stored record *)

Lemma ordered_head_fresh k (o : obj) v :
  ordered (k :: map fst o) = true -> obj_own k o = Some v -> False.
Proof.
  intros [Hk _]%ordered_cons. induction o as [|[k1 v1] o IH]; [done|]. simpl.
  destruct (String.eqb_spec k k1) as [->|Hne].
  - intros _. by destruct (Hk k1 ltac:(by left)).
  - apply IH. intros f Hf. apply Hk. by right.
Qed.

Lemma obj_own_define_all_some k v props target :
  ordered (map fst props) = true ->
  obj_own k props = Some v ->
  obj_own k (define_all props target) = Some v.
Proof.
  revert target. induction props as [|[k1 v1] props IH]; intros target; [done|].
  change (map fst ((k1, v1) :: props)) with (k1 :: map fst props).
  intros Hord. pose proof Hord as [_ Hord']%ordered_cons. simpl.
  destruct (String.eqb_spec k k1) as [->|Hne].
  - intros [= ->]. change (obj_own k1 (define_all props (obj_define k1 v target)) = Some v).
    rewrite obj_own_define_all.
    + by rewrite obj_own_define, String.eqb_refl.
    + destruct (obj_own k1 props) as [w|] eqn:E; [|done].
      by destruct (ordered_head_fresh _ _ _ Hord E).
  - intros Hk. by apply IH.
Qed.

(** X13: the stored record carries the payload. For an object payload,
    the record [postData('/concessions', ...)] returns and stores has
    every property of the payload with its value (an [id] of the payload
    included), and besides these the assigned [id] only. The record
    [postData('/schedule/request', ...)] stores has [created_at] set to
    the time of the call, every other property of the payload with its
    value, and besides these the assigned [id] only. *)
Theorem postData_keeps_payload now (st : Storage) l o :
  ordered (map fst o) = true ->
  (LS_get STORAGE_KEYS.concessions (VArr []) st = (Ok (VArr l), st) ->
   Forall plain_id l ->
   exists p,
     addConcessionItem now (VObj o) st =
       (Ok (VObj p), <[STORAGE_KEYS.concessions := stored (VArr (l ++ [VObj p]))]> st) /\
     (forall k v, obj_own k o = Some v -> obj_own k p = Some v) /\
     (forall k, obj_own k o = None ->
                obj_own k p = if String.eqb k "id" then Some (num (next_id l)) else None)) /\
  (forall ts,
     LS_get STORAGE_KEYS.eventRequests (VArr []) st = (Ok (VArr l), st) ->
     toISOString now = Ok ts ->
     exists p,
       snd (requestNewEvent now (VObj o) st) =
         <[STORAGE_KEYS.eventRequests := stored (VArr (l ++ [VObj p]))]> st /\
       obj_own "created_at" p = Some (VStr ts) /\
       (forall k v, k <> "created_at" -> obj_own k o = Some v -> obj_own k p = Some v) /\
       (forall k, k <> "created_at" -> obj_own k o = None ->
                  obj_own k p = if String.eqb k "id"
                                then Some (num (Z.of_nat (List.length l) + 1)) else None)).
Proof.
  intros Hord. split.
  - intros Hget Hpl. eexists. split; [by apply post_concession|]. split.
    + intros k v Hk. by apply obj_own_define_all_some.
    + intros k Hk. unfold spread. by rewrite obj_own_define_all.
  - intros ts Hget Hts. eexists. split; [by rewrite (post_request now st l (VObj o) ts)|].
    split; [by rewrite obj_own_define, String.eqb_refl|]. split.
    + intros k v Hne%String.eqb_neq Hk. rewrite obj_own_define, Hne.
      by apply obj_own_define_all_some.
    + intros k Hne%String.eqb_neq Hk. rewrite obj_own_define, Hne.
      unfold spread. by rewrite obj_own_define_all.
Qed.

Lemma postData_keeps_payload_witness :
  exists p,
    fst (addConcessionItem 0 hot_dog store_seeded) = Ok (VObj p) /\
    obj_own "price" p = Some (num 3) /\ obj_own "id" p = Some (num 1).
Proof.
  destruct (proj1 (postData_keeps_payload 0 store_seeded []
                     [("name", VStr "Hot dog"); ("price", num 3)] eq_refl))
    as (p & Hp & Hkeep & Hnew).
  - apply LS_get_stored; [vm_compute; reflexivity | reflexivity].
  - constructor.
  - exists p. unfold hot_dog. rewrite Hp. split; [reflexivity|]. split.
    + by apply Hkeep.
    + by rewrite (Hnew "id").
Defined.

(* ================================================================== *)
(** * An id that is not a number *)

Lemma fold_num_max_NaN ns : fold_left num_max ns NaN = NaN.
Proof. induction ns as [|n ns IH]; [done|]. exact IH. Qed.

Lemma fold_num_max_poisoned ns1 ns2 n :
  fold_left num_max (ns1 ++ NaN :: ns2) n = NaN.
Proof.
  rewrite fold_left_app. simpl.
  replace (num_max (fold_left num_max ns1 n) NaN) with NaN
    by (by destruct (fold_left num_max ns1 n)).
  apply fold_num_max_NaN.
Qed.

Lemma Math_max_poisoned zs1 s zs2 :
  StringToNumber s = Ok NaN ->
  Math_max (map num zs1 ++ VStr s :: map num zs2) = Ok NaN.
Proof.
  intros Hs. unfold Math_max.
  assert (rmapM ToNumber (map num zs1 ++ VStr s :: map num zs2)
          = Ok (map Int zs1 ++ NaN :: map Int zs2)) as ->.
  { induction zs1 as [|z zs1 IH]; simpl.
    - by rewrite Hs; simpl; rewrite ToNumber_nums.
    - by rewrite IH. }
  cbn [rbind]. destruct zs1 as [|z zs1]; simpl.
  - by rewrite fold_num_max_NaN.
  - by rewrite fold_num_max_poisoned.
Qed.

Lemma json_well_formed v :
  json_value v = true -> well_formed v = true /\ normalise v = v.
Proof.
  induction v as [ | | b | [|z] | s | l IHl | o IHo] using value_ind; intros Hj;
    try done.
  - simpl in Hj.
    assert (forallb well_formed l = true /\ map normalise l = l) as [H1 H2].
    { induction l as [|x l IH]; [done|].
      apply Forall_cons in IHl as [Hx Hl]. simpl in Hj.
      apply andb_true_iff in Hj as [Hjx Hjl].
      destruct (Hx Hjx) as [Hw Hn]. destruct (IH Hl Hjl) as [Hwl Hnl].
      simpl. by rewrite Hw, Hwl, Hn, Hnl. }
    split; [exact H1|]. simpl. by rewrite H2.
  - rewrite json_value_obj in Hj. apply andb_true_iff in Hj as [Hord Hj].
    assert (forallb (fun kv => well_formed (snd kv)) o = true /\
            normalise_props o = o) as [H1 H2].
    { clear Hord. induction o as [|[k x] o IH]; [done|].
      apply Forall_cons in IHo as [Hx Ho]. simpl in Hj, Hx.
      apply andb_true_iff in Hj as [Hjx Hjo].
      destruct (Hx Hjx) as [Hw Hn]. destruct (IH Ho Hjo) as [Hwo Hno].
      split; [simpl; by rewrite Hw, Hwo|].
      cbn [normalise_props]. rewrite Hn, Hno. by destruct x. }
    split.
    + by rewrite well_formed_obj, Hord, H1.
    + by rewrite normalise_obj, H2.
Qed.

Lemma well_formed_define k v o :
  well_formed v = true -> well_formed (VObj o) = true ->
  well_formed (VObj (obj_define k v o)) = true.
Proof.
  rewrite !well_formed_obj, !andb_true_iff. intros Hv [Ho Hp].
  split; [by apply ordered_define|].
  clear Ho. induction o as [|[k1 v1] o IH]; simpl; [by rewrite Hv|].
  simpl in Hp. apply andb_true_iff in Hp as [H1 Hp].
  destruct (String.eqb k k1); [simpl; by rewrite Hv|].
  destruct (precedes k k1); simpl; [by rewrite Hv, H1|]. by rewrite H1, IH.
Qed.

Lemma well_formed_spread target data :
  well_formed (VObj target) = true -> json_value data = true ->
  well_formed (VObj (spread target data)) = true.
Proof.
  intros Ht Hd. apply json_own_props in Hd. unfold spread, define_all.
  revert target Ht. induction (own_props data) as [|[k v] props IH]; intros target Ht;
    [done|].
  simpl in Hd. apply andb_true_iff in Hd as [Hv Hp]. simpl.
  apply IH; [done|]. apply well_formed_define; [|done].
  by apply json_well_formed.
Qed.

Lemma obj_own_normalise_props k p x :
  obj_own k p = Some x -> x <> VUndefined ->
  obj_own k (normalise_props p) = Some (normalise x).
Proof.
  induction p as [|[k1 v1] p IH]; [done|]. simpl.
  destruct (String.eqb k k1) eqn:E.
  - intros [= ->] Hx. destruct x; try done; simpl; by rewrite E.
  - intros Hk Hx. specialize (IH Hk Hx). destruct v1; simpl; by rewrite ?E.
Qed.

Lemma rmapM_app {A B} (f : A -> result B) l1 l2 r1 r2 :
  rmapM f l1 = Ok r1 -> rmapM f l2 = Ok r2 -> rmapM f (l1 ++ l2) = Ok (r1 ++ r2).
Proof.
  revert r1. induction l1 as [|a l1 IH]; intros r1; simpl.
  - by intros [= <-].
  - destruct (f a) as [b| |]; [|done..]. simpl.
    destruct (rmapM f l1) as [bs| |]; [|done..]. simpl.
    intros [= <-] H2. by rewrite (IH bs eq_refl H2).
Qed.

(** X14: one id that is not a number spoils the assignment. When a
    stored concession has a non-empty string for its id that [Number]
    turns into [NaN], and the other records have integer (or missing) ids,
    a payload without [id] is stored all the same, but the record returned
    has the id [NaN], and the record [fetchConcessions] then shows at the
    end of the list has the id [null]. *)
Theorem postData_concessions_NaN_id now (st : Storage) l1 o s l2 data :
  LS_get STORAGE_KEYS.concessions (VArr []) st
    = (Ok (VArr (l1 ++ VObj o :: l2)), st) ->
  Forall plain_id l1 -> Forall plain_id l2 ->
  obj_own "id" o = Some (VStr s) -> s <> "" -> StringToNumber s = Ok NaN ->
  obj_own "id" (own_props data) = None ->
  exists item st',
    addConcessionItem now data st = (Ok item, st') /\
    get_field "id" item = Ok (VNum NaN) /\
    (json_value data = true ->
     exists kept,
       fetchConcessions st' = (Ok (VArr (l1 ++ VObj o :: l2 ++ [kept])), st') /\
       get_field "id" kept = Ok VNull).
Proof.
  intros Hget Hp1 Hp2 Hid Hs Hnan Hdata.
  set (l := l1 ++ VObj o :: l2) in *.
  set (item := VObj (spread [("id", VNum NaN)] data)).
  assert (Hpost : addConcessionItem now data st =
            (Ok item, <[STORAGE_KEYS.concessions := stored (VArr (l ++ [item]))]> st)).
  { unfold addConcessionItem, postData.
    change (String.eqb "/concessions" "/concessions") with true. cbv iota.
    unfold try_catch, bind at 1. rewrite Hget.
    unfold bind at 1, lift at 1. simpl get_length. cbv iota.
    assert (truthy (num (Z.of_nat (List.length l))) = true) as ->.
    { subst l. rewrite length_app. simpl. apply negb_true_iff, Z.eqb_neq. lia. }
    cbn [as_array rbind].
    assert (rmapM (fun i => x <-- get_field "id" i ;; Ok (js_or x (num 0)))%res l
            = Ok (map num (map id_or_zero l1) ++ VStr s :: map num (map id_or_zero l2)))
      as ->.
    { subst l. apply rmapM_app; [by apply plain_ids_read|].
      cbn [rmapM get_field]. unfold obj_get. rewrite Hid. cbn [rbind].
      rewrite plain_ids_read by done. cbn [rbind]. unfold js_or. simpl.
      apply String.eqb_neq in Hs. by rewrite Hs. }
    cbn [rbind]. rewrite Math_max_poisoned by done. reflexivity. }
  eexists _, _. split; [exact Hpost|]. split.
  { unfold item. simpl. unfold obj_get. by rewrite obj_own_spread. }
  intros Hjd.
  assert (Hjl : json_value (VArr l) = true)
    by (eapply LS_get_json; [exact Hget | reflexivity]).
  destruct (json_well_formed _ Hjl) as [Hwl Hnl].
  assert (Hwi : well_formed item = true) by (by apply well_formed_spread).
  exists (normalise item). split.
  - rewrite fetchConcessions_unfold, LS_get_insert_normal; [| |done].
    + do 3 f_equal. cbn [normalise]. rewrite map_app. cbn [map].
      cbn [normalise] in Hnl. injection Hnl as ->.
      subst l. by rewrite <- app_assoc.
    + cbn [well_formed] in *. by rewrite forallb_app, Hwl; cbn [forallb]; rewrite Hwi.
  - unfold item. rewrite normalise_obj. simpl. unfold obj_get.
    rewrite (obj_own_normalise_props "id" _ (VNum NaN)); [done| |done].
    by rewrite obj_own_spread.
Qed.

Lemma postData_concessions_NaN_id_witness :
  let st := <[STORAGE_KEYS.concessions :=
               stored (VArr [VObj [("id", VStr "a1"); ("name", VStr "Soda")]])]>
              store_seeded in
  exists item st',
    addConcessionItem 0 hot_dog st = (Ok item, st') /\
    get_field "id" item = Ok (VNum NaN) /\
    exists kept,
      fetchConcessions st'
        = (Ok (VArr [VObj [("id", VStr "a1"); ("name", VStr "Soda")]; kept]), st') /\
      get_field "id" kept = Ok VNull.
Proof.
  intros st.
  destruct (postData_concessions_NaN_id 0 st []
              [("id", VStr "a1"); ("name", VStr "Soda")] "a1" [] hot_dog)
    as (item & st' & H1 & H2 & H3).
  - apply LS_get_insert. reflexivity.
  - constructor.
  - constructor.
  - reflexivity.
  - discriminate.
  - reflexivity.
  - reflexivity.
  - exists item, st'. split; [exact H1|]. split; [exact H2|]. exact (H3 eq_refl).
Defined.

(* ================================================================== *)
(** * More on the inventory summary *)

Lemma total_perm l1 l2 : Permutation l1 l2 -> total l1 = total l2.
Proof. unfold total. induction 1; simpl; lia. Qed.

Lemma magnitude_perm l1 l2 : Permutation l1 l2 -> magnitude l1 = magnitude l2.
Proof. unfold magnitude. induction 1; simpl; lia. Qed.

Lemma filter_perm {A} (p : A -> bool) l1 l2 :
  Permutation l1 l2 -> Permutation (List.filter p l1) (List.filter p l2).
Proof.
  induction 1 as [|x l1 l2 H IH|x y l|l1 l2 l3 H1 IH1 H2 IH2]; simpl.
  - constructor.
  - destruct (p x); [by constructor | done].
  - destruct (p x), (p y); try reflexivity. constructor.
  - by etransitivity.
Qed.

(** X15: the summary does not depend on the order of the records. Two
    stores whose inventories hold the same readable records in different
    orders yield the same four sums. *)
Theorem fetchInventorySummary_permutation (st1 st2 : Storage) l1 l2 :
  LS_get STORAGE_KEYS.inventory (VArr []) st1 = (Ok (VArr l1), st1) ->
  LS_get STORAGE_KEYS.inventory (VArr []) st2 = (Ok (VArr l2), st2) ->
  Permutation l1 l2 ->
  Forall (fun r => exists z, quantity r = Ok (Int z)) l1 ->
  magnitude l1 <= max_exact ->
  exists summary,
    fetchInventorySummary st1 = (Ok summary, st1) /\
    fetchInventorySummary st2 = (Ok summary, st2).
Proof.
  intros H1 H2 Hp HF Hm.
  assert (HF2 : Forall (fun r => exists z, quantity r = Ok (Int z)) l2).
  { rewrite Forall_forall in *. intros r Hr. apply HF. by rewrite Hp. }
  rewrite (summary_of_records st1 l1 H1 HF Hm).
  rewrite (summary_of_records st2 l2 H2 HF2) by (by rewrite <- (magnitude_perm _ _ Hp)).
  eexists. split; [reflexivity|].
  by rewrite (total_perm _ _ Hp), !(total_perm _ _ (filter_perm _ _ _ Hp)).
Qed.

Lemma fetchInventorySummary_permutation_witness :
  let a := VObj [("quantity", num 3); ("status", VStr "in-stock")] in
  let b := VObj [("quantity", num 2); ("status", VStr "needs-repair")] in
  let st1 := <[STORAGE_KEYS.inventory := stored (VArr [a; b])]> store_seeded in
  let st2 := <[STORAGE_KEYS.inventory := stored (VArr [b; a])]> store_seeded in
  exists summary,
    fetchInventorySummary st1 = (Ok summary, st1) /\
    fetchInventorySummary st2 = (Ok summary, st2).
Proof.
  intros a b st1 st2.
  apply (fetchInventorySummary_permutation st1 st2 [a; b] [b; a]).
  - apply LS_get_insert. reflexivity.
  - apply LS_get_insert. reflexivity.
  - apply perm_swap.
  - repeat constructor; eexists; reflexivity.
  - vm_compute. discriminate.
Defined.

Lemma total_nonneg l : Forall (fun r => 0 <= qty r) l -> 0 <= total l.
Proof. unfold total. induction 1; simpl; lia. Qed.

Lemma has_status_one s1 s2 r :
  s1 <> s2 -> has_status s1 r = true -> has_status s2 r = false.
Proof.
  unfold has_status. destruct (get_field "status" r) as [v| |]; try done.
  destruct v; try done. simpl.
  intros Hne ->%String.eqb_eq. by apply String.eqb_neq.
Qed.

Lemma status_counts_within l :
  Forall (fun r => 0 <= qty r) l ->
  total (List.filter (has_status "in-stock") l)
  + total (List.filter (has_status "checked-out") l)
  + total (List.filter (has_status "needs-repair") l) <= total l.
Proof.
  induction 1 as [|r l Hr HF IH]; [done|]. simpl.
  destruct (has_status "in-stock" r) eqn:E1.
  - rewrite (has_status_one "in-stock" "checked-out" r) by done.
    rewrite (has_status_one "in-stock" "needs-repair" r) by done.
    unfold total in *. simpl. lia.
  - destruct (has_status "checked-out" r) eqn:E2.
    + rewrite (has_status_one "checked-out" "needs-repair" r) by done.
      unfold total in *. simpl. lia.
    + destruct (has_status "needs-repair" r); unfold total in *; simpl; lia.
Qed.

Lemma status_counts_exact l :
  Forall (fun r => has_status "in-stock" r || has_status "checked-out" r
                   || has_status "needs-repair" r = true) l ->
  total (List.filter (has_status "in-stock") l)
  + total (List.filter (has_status "checked-out") l)
  + total (List.filter (has_status "needs-repair") l) = total l.
Proof.
  induction 1 as [|r l Hr HF IH]; [done|]. simpl.
  destruct (has_status "in-stock" r) eqn:E1.
  - rewrite (has_status_one "in-stock" "checked-out" r) by done.
    rewrite (has_status_one "in-stock" "needs-repair" r) by done.
    unfold total in *. simpl. lia.
  - destruct (has_status "checked-out" r) eqn:E2.
    + rewrite (has_status_one "checked-out" "needs-repair" r) by done.
      unfold total in *. simpl. lia.
    + destruct (has_status "needs-repair" r); [|done]. unfold total in *; simpl; lia.
Qed.

(** X16: the three status counts and the total. A record counts toward
    one status at most, so when no quantity is negative the counts
    [available], [checked_out] and [needs_repair] are not negative and
    their sum does not exceed [total_items]; what is missing from the sum
    are the records of any other status ([low-stock], [retired], ...):
    when every record has one of the three statuses the sum is the
    total. *)
Theorem fetchInventorySummary_counts_within_total (st : Storage) l :
  LS_get STORAGE_KEYS.inventory (VArr []) st = (Ok (VArr l), st) ->
  Forall (fun r => exists z, quantity r = Ok (Int z)) l ->
  magnitude l <= max_exact ->
  exists t a c r,
    fetchInventorySummary st =
      (Ok (VObj [ ("total_items", num t); ("available", num a);
                  ("checked_out", num c); ("needs_repair", num r) ]), st) /\
    (Forall (fun i => 0 <= qty i) l -> 0 <= a /\ 0 <= c /\ 0 <= r /\ a + c + r <= t) /\
    (Forall (fun i => has_status "in-stock" i || has_status "checked-out" i
                      || has_status "needs-repair" i = true) l -> a + c + r = t).
Proof.
  intros Hget HF Hm. eexists _, _, _, _.
  split; [by apply summary_of_records|]. split.
  - intros Hpos. repeat split.
    1-3: by apply total_nonneg, Forall_filter_keep.
    by apply status_counts_within.
  - apply status_counts_exact.
Qed.

Lemma fetchInventorySummary_counts_within_total_witness :
  let st := <[STORAGE_KEYS.inventory :=
               stored (VArr [VObj [("quantity", num 3); ("status", VStr "in-stock")];
                             VObj [("quantity", num 4); ("status", VStr "retired")]])]>
              store_seeded in
  exists t a c r,
    fetchInventorySummary st =
      (Ok (VObj [ ("total_items", num t); ("available", num a);
                  ("checked_out", num c); ("needs_repair", num r) ]), st) /\
    a + c + r <= t.
Proof.
  intros st.
  destruct (fetchInventorySummary_counts_within_total st
              [VObj [("quantity", num 3); ("status", VStr "in-stock")];
               VObj [("quantity", num 4); ("status", VStr "retired")]])
    as (t & a & c & r & Hsum & Hle & _).
  - apply LS_get_insert. reflexivity.
  - repeat constructor; eexists; reflexivity.
  - vm_compute. discriminate.
  - exists t, a, c, r. split; [exact Hsum|]. apply Hle.
    repeat constructor; vm_compute; discriminate.
Defined.

Lemma StringToNumber_decimal n :
  exact n = true -> StringToNumber (number_to_string (Int n)) = Ok (Int n).
Proof.
  intros Hn. unfold number_to_string, StringToNumber, string_of_N.
  pose proof (to_uint_nonnil (Z.abs_N n)) as Hnil.
  assert (Hto : Z.of_N (N.of_uint (N.to_uint (Z.abs_N n))) = Z.abs n)
    by (rewrite DecimalN.Unsigned.of_to; lia).
  pose proof (read_digits_uint (N.to_uint (Z.abs_N n)) "" eq_refl) as Hrd.
  rewrite append_nil_r in Hrd.
  destruct (Z.ltb_spec n 0) as [Hneg|Hpos].
  - cbn [skip_js_space js_space]. rewrite Hrd.
    destruct (N.to_uint (Z.abs_N n)) eqn:E; [done|..]; cbn [skip_js_space];
      rewrite Hto;
      replace (Z.abs n =? 0) with false by (symmetry; apply Z.eqb_neq; lia);
      replace (exact (Z.abs n)) with true
        by (rewrite <- Hn, <- (exact_opp n); f_equal; lia);
      cbn [orb negb]; do 2 f_equal; lia.
  - destruct (string_of_N_digit (Z.abs_N n)) as (c & r & E & Hc).
    unfold string_of_N in E. rewrite E in *.
    assert (js_space c = false) as Hsp by (ascii_cases c; done).
    cbn [skip_js_space]. rewrite Hsp.
    assert ((match c with
             | "-"%char => (true, r) | "+"%char => (false, r)
             | _ => (false, String c r) end) = (false, String c r)) as ->
      by (ascii_cases c; done).
    rewrite Hrd.
    destruct (N.to_uint (Z.abs_N n)) eqn:E'; [done|..]; cbn [skip_js_space];
      rewrite Hto; replace (Z.abs n) with n by lia; by rewrite Hn.
Qed.

(** X17: what counts as a quantity besides a number. A quantity given as
    the decimal text of an integer counts as that integer (form fields
    deliver text); [true] counts as 1; [false], [null] and the empty
    string count as 0. *)
Theorem quantity_coercions (o : obj) :
  (forall n, exact n = true ->
             obj_own "quantity" o = Some (VStr (number_to_string (Int n))) ->
             quantity (VObj o) = Ok (Int n)) /\
  (forall b, obj_own "quantity" o = Some (VBool b) ->
             quantity (VObj o) = Ok (Int (if b then 1 else 0))) /\
  (forall q, obj_own "quantity" o = Some q -> q = VNull \/ q = VStr "" ->
             quantity (VObj o) = Ok (Int 0)).
Proof.
  unfold quantity. simpl get_field. unfold obj_get.
  split; [|split].
  - intros n Hn ->. cbn [rbind]. unfold Number, ToNumber.
    rewrite StringToNumber_decimal by done. cbn [rbind]. unfold or_zero. simpl.
    by destruct (Z.eqb_spec n 0) as [->|].
  - intros b ->. by destruct b.
  - intros q -> [->| ->]; reflexivity.
Qed.

Lemma quantity_coercions_witness :
  quantity (VObj [("quantity", VStr "12"); ("status", VStr "in-stock")]) = Ok (Int 12) /\
  quantity (VObj [("quantity", VNull)]) = Ok (Int 0).
Proof.
  split.
  - apply (proj1 (quantity_coercions _) 12); reflexivity.
  - apply (proj2 (proj2 (quantity_coercions _)) VNull); [reflexivity|]. by left.
Defined.

(* ================================================================== *)
(** * What the accessors return *)









(* ================================================================== *)
(** * The first run *)

Lemma inherited_number n : inherited (number_to_string (Int n)) = false.
Proof.
  unfold number_to_string. destruct (n <? 0); [reflexivity|].
  destruct (string_of_N_digit (Z.abs_N n)) as (c & r & -> & Hc).
  unfold inherited, object_prototype_keys. revert Hc.
  ascii_cases c; try discriminate; intros _; reflexivity.
Qed.

Lemma fetchData_schedule st :
  fetchData "/schedule" st = LS_get STORAGE_KEYS.schedule (VArr []) st.
Proof.
  unfold fetchData. simpl. apply try_catch_no_throw. intros e. apply LS_get_no_throw.
Qed.

Lemma fetchData_locations st :
  fetchData "/locations" st = LS_get STORAGE_KEYS.locations (VArr []) st.
Proof.
  unfold fetchData. simpl. apply try_catch_no_throw. intros e. apply LS_get_no_throw.
Qed.

(** X19: the first run. On a store that holds none of the ten
    collection keys (whatever else it holds), [seedIfEmpty] returns and
    every accessor then answers with the seeded default: the three teams,
    the three coaches, the three scheduled events (from [fetchSchedule]
    and from [fetchEvents]), the four locations, the nine categories, the
    five statuses, an empty inventory, no concessions, a summary of four
    zeros, and no usage for any integer event id. *)
Theorem first_run_defaults (st : Storage) :
  (forall k, In k (map fst seeds) -> st !! k = None) ->
  exists st', seedIfEmpty st = (Ok tt, st') /\
    fetchTeams st' = (Ok default_teams, st') /\
    fetchCoaches st' = (Ok default_coaches, st') /\
    fetchSchedule st' = (Ok default_schedule, st') /\
    fetchEvents st' = (Ok default_schedule, st') /\
    fetchLocations st' = (Ok default_locations, st') /\
    fetchCategories st' = (Ok default_categories, st') /\
    fetchStatuses st' = (Ok default_statuses, st') /\
    fetchInventory st' = (Ok (VArr []), st') /\
    fetchConcessions st' = (Ok (VArr []), st') /\
    fetchInventorySummary st' =
      (Ok (VObj [ ("total_items", num 0); ("available", num 0);
                  ("checked_out", num 0); ("needs_repair", num 0) ]), st') /\
    (forall n, fetchEventUsage (num n) st' = (Ok (VArr []), st')).
Proof.
  intros Hnone.
  destruct (seed_all_runs seeds st seeds_distinct seeds_truthy)
    as (st' & Hrun & Hmiss & _).
  { intros k Hk s Hs. by rewrite (Hnone k Hk) in Hs. }
  assert (Hget : forall k d fb, In (k, d) seeds -> LS_get k fb st' = (Ok d, st')).
  { intros k d fb Hin. apply LS_get_stored.
    - apply (Hmiss k d VUndefined Hin); [|done].
      rewrite LS_get_unfold. simpl.
      by rewrite (Hnone k (in_map fst _ _ Hin)).
    - pose proof seeds_truthy as HF. rewrite Forall_forall in HF.
      apply list_elem_of_In in Hin. by destruct (HF _ Hin). }
  exists st'. split; [exact Hrun|].
  split; [apply Hget; by left|].
  split; [apply Hget; right; by left|].
  split; [unfold fetchSchedule; rewrite fetchData_schedule; apply Hget;
          do 2 right; by left|].
  split; [change fetchEvents with (fetchData "/events");
          change (fetchData "/events" st') with (fetchData "/schedule" st');
          rewrite fetchData_schedule; apply Hget; do 2 right; by left|].
  split; [unfold fetchLocations; rewrite fetchData_locations; apply Hget;
          do 3 right; by left|].
  split; [apply fetchCategories_stored; [apply Hget; do 4 right; by left | done]|].
  split; [apply Hget; do 5 right; by left|].
  split; [apply Hget; do 6 right; by left|].
  split; [rewrite fetchConcessions_unfold; apply Hget; do 7 right; by left|].
  split.
  - apply (summary_of_records st' []); [apply Hget; do 6 right; by left|constructor|].
    vm_compute. discriminate.
  - intros n. unfold fetchEventUsage, bind, lift.
    change (usage_endpoint (num n))
      with (Ok ("/events/" +:+ number_to_string (Int n) +:+ "/usage") : result string).
    cbv iota.
    pose proof (fetchData_usage st' (number_to_string (Int n)) []) as Hf.
    cbv zeta in Hf. rewrite Hf by (apply Hget; do 8 right; by left).
    rewrite segment_usage, before_slash_id by apply has_slash_number.
    unfold obj_get. cbn [obj_own]. by rewrite inherited_number.
Qed.

Lemma first_run_defaults_witness :
  exists st', seedIfEmpty {["theme" := "dark"]} = (Ok tt, st') /\
    fetchLocations st' = (Ok default_locations, st') /\
    fetchEventUsage (num 7) st' = (Ok (VArr []), st').
Proof.
  destruct (first_run_defaults {["theme" := "dark"]})
    as (st' & Hrun & _ & _ & _ & _ & Hloc & _ & _ & _ & _ & _ & Husage).
  - intros k Hk. simpl in Hk.
    repeat (destruct Hk as [<-|Hk]; [by vm_compute|]). destruct Hk.
  - exists st'. split; [exact Hrun|]. split; [exact Hloc | exact (Husage 7)].
Defined.

(* ================================================================== *)
(** * The activity log *)

Lemma item_or_empty_unfold key (st : Storage) :
  item_or_empty key st =
  (Ok (match st !! key with
       | Some s => if negb (String.eqb s "") then s else "[]"
       | None => "[]"
       end), st).
Proof. reflexivity. Qed.

Lemma item_or_empty_insert key v (st : Storage) :
  item_or_empty key (<[key := stored v]> st) = (Ok (stored v), <[key := stored v]> st).
Proof. by rewrite item_or_empty_unfold, lookup_insert_eq, stored_nonempty. Qed.

Lemma logActivity_page now action details this (st : Storage) l ts :
  activityLog this = VArr l ->
  toISOString now = Ok ts ->
  let entry := log_entry ts action details (pageName this) in
  let log' := VArr (firstn 100 (entry :: l)) in
  let this' := {| pageName := pageName this; storageKey := storageKey this;
                  masterLogKey := masterLogKey this; activityLog := log' |} in
  logActivity now action details this st =
    (addToMasterLog entry this' ;;; ret this')%store
      (<[storageKey this := stored log']> st).
Proof.
  intros Hl Hts entry log' this'.
  unfold logActivity. unfold bind at 1, lift at 1. rewrite Hts.
  fold entry. rewrite Hl. unfold bind at 1, lift at 1. cbn [unshift as_array rbind].
  unfold bind at 1, lift at 1. cbn [get_length].
  assert ((match num (Z.of_nat (List.length (entry :: l))) with
           | VNum (Int n) =>
               if 100 <? n then slice_to 100 (VArr (entry :: l)) else Ok (VArr (entry :: l))
           | _ => Ok (VArr (entry :: l))
           end) = Ok log') as ->.
  { unfold num, log'. destruct (Z.ltb_spec 100 (Z.of_nat (List.length (entry :: l)))).
    - reflexivity.
    - rewrite firstn_all2 by lia. reflexivity. }
  unfold bind at 1, lift at 1. unfold bind at 1, setItem at 1. reflexivity.
Qed.

Lemma logActivity_run now action details this (st : Storage) l ts m text :
  activityLog this = VArr l ->
  toISOString now = Ok ts ->
  storageKey this <> masterLogKey this ->
  item_or_empty (masterLogKey this) st = (Ok text, st) ->
  JSON_parse text = Ok (VArr m) ->
  let entry := log_entry ts action details (pageName this) in
  let log' := VArr (firstn 100 (entry :: l)) in
  logActivity now action details this st =
    (Ok {| pageName := pageName this; storageKey := storageKey this;
           masterLogKey := masterLogKey this; activityLog := log' |},
     <[masterLogKey this := stored (VArr (entry :: m))]>
       (<[storageKey this := stored log']> st)).
Proof.
  intros Hl Hts Hne Htext Hm entry log'.
  pose proof (logActivity_page now action details this st l ts Hl Hts) as Hrun.
  cbv zeta in Hrun. rewrite Hrun.
  unfold bind at 1, addToMasterLog. cbn [masterLogKey].
  unfold bind at 1. rewrite item_or_empty_unfold.
  rewrite lookup_insert_ne by done.
  rewrite item_or_empty_unfold in Htext. injection Htext as Htext. rewrite Htext.
  unfold bind at 1, lift at 1. rewrite Hm.
  unfold bind at 1, lift at 1. cbn [unshift as_array rbind].
  reflexivity.
Qed.

Lemma JSON_parse_stored v : json_value v = true -> JSON_parse (stored v) = Ok v.
Proof. intros Hv. by rewrite stored_json, JSON_parse_stringify. Qed.

Lemma getMasterLog_unfold (st : Storage) :
  getMasterLog st =
  (JSON_parse (match st !! "master_activity_log" with
               | Some s => if negb (String.eqb s "") then s else "[]"
               | None => "[]"
               end), st).
Proof. reflexivity. Qed.

Lemma json_log_entry ts action details page :
  json_value action = true -> json_value details = true -> json_value page = true ->
  json_value (log_entry ts action details page) = true.
Proof. intros Ha Hd Hp. unfold log_entry. simpl. by rewrite Ha, Hd, Hp. Qed.

Lemma forallb_firstn {A} (p : A -> bool) n l :
  forallb p l = true -> forallb p (firstn n l) = true.
Proof.
  revert l. induction n as [|n IH]; intros [|x l]; simpl; try done.
  rewrite !andb_true_iff. intros [Hx Hl]. split; [done | by apply IH].
Qed.

(** X20: a page log holds its latest hundred entries, newest first. When
    the logger's log is a list and the master log reads as a list,
    [logActivity] returns; the logger's log is then the new entry followed
    by the first 99 of the former entries (all of them when there were
    fewer than a hundred), so never more than a hundred; that log is what
    the page key holds, the master key holds the former master log with the
    entry in front, and no other key is touched. *)
Theorem logActivity_keeps_last_100 now action details this (st : Storage) l ts m :
  activityLog this = VArr l ->
  toISOString now = Ok ts ->
  masterLogKey this = "master_activity_log" ->
  storageKey this <> "master_activity_log" ->
  getMasterLog st = (Ok (VArr m), st) ->
  let entry := log_entry ts action details (pageName this) in
  exists this' st',
    logActivity now action details this st = (Ok this', st') /\
    activityLog this' = VArr (entry :: firstn 99 l) /\
    (List.length (entry :: firstn 99 l) <= 100)%nat /\
    ((List.length l < 100)%nat -> activityLog this' = VArr (entry :: l)) /\
    pageName this' = pageName this /\ storageKey this' = storageKey this /\
    st' !! storageKey this = Some (stored (activityLog this')) /\
    st' !! "master_activity_log" = Some (stored (VArr (entry :: m))) /\
    (forall k, k <> storageKey this -> k <> "master_activity_log" -> st' !! k = st !! k).
Proof.
  intros Hl Hts Hmk Hne Hm entry.
  rewrite getMasterLog_unfold in Hm. injection Hm as Hm.
  pose proof (logActivity_run now action details this st l ts m _ Hl Hts
                ltac:(by rewrite Hmk)
                ltac:(rewrite Hmk; apply item_or_empty_unfold) Hm) as Hrun.
  cbv zeta in Hrun. fold entry in Hrun. rewrite Hmk in Hrun.
  eexists _, _. split; [exact Hrun|]. cbn [activityLog pageName storageKey firstn].
  split; [reflexivity|].
  split; [cbn [List.length]; rewrite length_firstn; lia|].
  split; [intros Hlt; by rewrite firstn_all2 by lia|].
  split; [reflexivity|]. split; [reflexivity|].
  split; [by rewrite lookup_insert_ne, lookup_insert_eq|].
  split; [by rewrite lookup_insert_eq|].
  intros k Hk1 Hk2. by rewrite !lookup_insert_ne.
Qed.


Lemma logActivity_keeps_last_100_witness :
  exists this' st',
    logActivity 0 (VStr "Added") (VStr "Bat") inventory_logger ∅ = (Ok this', st') /\
    activityLog this' =
      VArr [log_entry "1970-01-01T00:00:00.000Z" (VStr "Added") (VStr "Bat")
              (VStr "inventory")].
Proof.
  destruct (logActivity_keeps_last_100 0 (VStr "Added") (VStr "Bat") inventory_logger
              ∅ [] "1970-01-01T00:00:00.000Z" [])
    as (this' & st' & Hrun & Hlog & _); try reflexivity.
  - discriminate.
  - exists this', st'. split; [exact Hrun | exact Hlog].
Defined.

(** X21: what was logged is there after a reload. With
    JSON-representable arguments, after [logActivity] a logger newly
    constructed for the same page is the logger the call left, and
    [getMasterLog] returns the former master log with the new entry in
    front: the master log grows by one entry and is not cut. *)
Theorem logActivity_persists now action details this (st : Storage) l ts m name :
  activityLog this = VArr l ->
  toISOString now = Ok ts ->
  masterLogKey this = "master_activity_log" ->
  ToString (pageName this) = Ok name ->
  storageKey this = name +:+ "_activity_log" ->
  name <> "master" ->
  getMasterLog st = (Ok (VArr m), st) ->
  json_value action = true -> json_value details = true ->
  json_value (pageName this) = true -> json_value (VArr l) = true ->
  exists this' st',
    logActivity now action details this st = (Ok this', st') /\
    new_ActivityLogger (pageName this) st' = (Ok this', st') /\
    getMasterLog st' =
      (Ok (VArr (log_entry ts action details (pageName this) :: m)), st').
Proof.
  intros Hl Hts Hmk Hname Hkey Hne Hm Hja Hjd Hjp Hjl.
  set (entry := log_entry ts action details (pageName this)).
  assert (Hdiff : storageKey this <> "master_activity_log").
  { rewrite Hkey. intros H. apply Hne.
    change "master_activity_log" with ("master" +:+ "_activity_log") in H.
    revert H. clear. revert name.
    assert (forall a b : string, a +:+ "_activity_log" = b +:+ "_activity_log" -> a = b)
      as Hinj.
    { intros a b H.
      assert (String.length a = String.length b) as Hlen.
      { apply (f_equal String.length) in H. rewrite !length_append in H. lia. }
      revert b H Hlen. induction a as [|c a IH]; intros [|d b]; simpl; try done.
      rewrite !append_cons. intros [= -> H] [= Hlen]. f_equal. by apply IH. }
    intros name H. by apply Hinj. }
  assert (Hjm : json_value (VArr m) = true).
  { rewrite getMasterLog_unfold in Hm. injection Hm as Hm. by eapply JSON_parse_json. }
  rewrite getMasterLog_unfold in Hm. injection Hm as Hm.
  pose proof (logActivity_run now action details this st l ts m _ Hl Hts
                ltac:(by rewrite Hmk)
                ltac:(rewrite Hmk; apply item_or_empty_unfold) Hm) as Hrun.
  cbv zeta in Hrun. fold entry in Hrun. rewrite Hmk in Hrun.
  assert (Hje : json_value entry = true) by (by apply json_log_entry).
  assert (Hjlog : json_value (VArr (firstn 100 (entry :: l))) = true).
  { cbn [json_value]. apply forallb_firstn. cbn [forallb]. rewrite Hje. exact Hjl. }
  eexists _, _. split; [exact Hrun|]. split.
  - unfold new_ActivityLogger, bind at 1, lift at 1. rewrite Hname.
    unfold bind at 1. rewrite item_or_empty_unfold. rewrite <- Hkey.
    rewrite lookup_insert_ne by done. rewrite lookup_insert_eq, stored_nonempty.
    cbn [negb]. unfold bind, lift. rewrite JSON_parse_stored by done.
    reflexivity.
  - rewrite getMasterLog_unfold, lookup_insert_eq, stored_nonempty. cbn [negb].
    rewrite JSON_parse_stored; [done|].
    cbn [json_value forallb]. rewrite Hje. exact Hjm.
Qed.

Lemma logActivity_persists_witness :
  exists this' st',
    logActivity 0 (VStr "Added") (VStr "Bat") inventory_logger ∅ = (Ok this', st') /\
    new_ActivityLogger (VStr "inventory") st' = (Ok this', st') /\
    getMasterLog st' =
      (Ok (VArr [log_entry "1970-01-01T00:00:00.000Z" (VStr "Added") (VStr "Bat")
                   (VStr "inventory")]), st').
Proof.
  apply (logActivity_persists 0 (VStr "Added") (VStr "Bat") inventory_logger
           ∅ [] "1970-01-01T00:00:00.000Z" [] "inventory"); try reflexivity.
  discriminate.
Defined.

(** X22: where the activity log throws. The constructor has no handler:
    when the text under the page key is not JSON it throws the
    [SyntaxError], where [LS.get] would have given a fallback. When the
    master log's text is not JSON, [logActivity] throws after it has
    written the page log: the entry is in the page log and not in the master
    log. When the logger's log is not a list (the page key held [null],
    say) [logActivity] throws a [TypeError] and writes nothing. *)
Theorem activity_log_failures :
  (forall page name s e (st : Storage),
     ToString page = Ok name ->
     st !! (name +:+ "_activity_log") = Some s -> s <> "" ->
     JSON_parse s = Throw e ->
     new_ActivityLogger page st = (Throw e, st)) /\
  (forall now action details this (st : Storage) l ts s e,
     activityLog this = VArr l -> toISOString now = Ok ts ->
     storageKey this <> masterLogKey this ->
     st !! masterLogKey this = Some s -> s <> "" -> JSON_parse s = Throw e ->
     logActivity now action details this st =
       (Throw e,
        <[storageKey this :=
            stored (VArr (firstn 100
                            (log_entry ts action details (pageName this) :: l)))]> st)) /\
  (forall now action details this (st : Storage) ts,
     is_array (activityLog this) = false -> toISOString now = Ok ts ->
     logActivity now action details this st = (Throw TypeError, st)).
Proof.
  split; [|split].
  - intros page name s e st Hname Hs Hne%String.eqb_neq Hp.
    unfold new_ActivityLogger, bind at 1, lift at 1. rewrite Hname.
    unfold bind at 1. rewrite item_or_empty_unfold, Hs, Hne. cbn [negb].
    unfold bind, lift. by rewrite Hp.
  - intros now action details this st l ts s e Hl Hts Hk Hs Hne%String.eqb_neq Hp.
    pose proof (logActivity_page now action details this st l ts Hl Hts) as Hrun.
    cbv zeta in Hrun. rewrite Hrun.
    unfold bind at 1, addToMasterLog. cbn [masterLogKey].
    unfold bind at 1. rewrite item_or_empty_unfold.
    rewrite lookup_insert_ne by done. rewrite Hs, Hne. cbn [negb].
    unfold bind, lift. by rewrite Hp.
  - intros now action details this st ts Ha Hts.
    unfold logActivity. unfold bind at 1, lift at 1. rewrite Hts.
    unfold bind at 1, lift at 1. by destruct (activityLog this).
Qed.


Lemma activity_log_failures_witness :
  new_ActivityLogger (VStr "inventory") {["inventory_activity_log" := "{oops"]}
    = (Throw SyntaxError, {["inventory_activity_log" := "{oops"]}) /\
  fst (logActivity 0 (VStr "Added") (VStr "Bat") inventory_logger
         {["master_activity_log" := "{oops"]}) = Throw SyntaxError /\
  snd (logActivity 0 (VStr "Added") (VStr "Bat") inventory_logger
         {["master_activity_log" := "{oops"]}) !! "inventory_activity_log"
    = Some (stored (VArr [log_entry "1970-01-01T00:00:00.000Z" (VStr "Added")
                            (VStr "Bat") (VStr "inventory")])).
Proof.
  split.
  - apply (proj1 activity_log_failures (VStr "inventory") "inventory" "{oops"
             SyntaxError); [reflexivity | by vm_compute | discriminate | reflexivity].
  - rewrite (proj1 (proj2 activity_log_failures) 0 (VStr "Added") (VStr "Bat")
               inventory_logger {["master_activity_log" := "{oops"]} []
               "1970-01-01T00:00:00.000Z" "{oops" SyntaxError);
      [ | reflexivity | reflexivity | discriminate | by vm_compute | discriminate
        | reflexivity ].
    split; [reflexivity|]. cbn [snd inventory_logger storageKey pageName firstn].
    by rewrite lookup_insert_eq.
Defined.

(** X23: a page called [master] logs every entry twice. For such a
    logger the page key is the master key; [logActivity] writes the page log
    under it and then prepends the entry once more to what it reads back, so
    the key ends up holding the entry twice, and up to 101 entries. *)
Theorem logActivity_master_page now action details this (st : Storage) l ts :
  activityLog this = VArr l -> toISOString now = Ok ts ->
  storageKey this = masterLogKey this ->
  json_value action = true -> json_value details = true ->
  json_value (pageName this) = true -> json_value (VArr l) = true ->
  let entry := log_entry ts action details (pageName this) in
  exists this' st',
    logActivity now action details this st = (Ok this', st') /\
    activityLog this' = VArr (entry :: firstn 99 l) /\
    st' !! storageKey this = Some (stored (VArr (entry :: entry :: firstn 99 l))).
Proof.
  intros Hl Hts Hk Hja Hjd Hjp Hjl entry.
  pose proof (logActivity_page now action details this st l ts Hl Hts) as Hrun.
  cbv zeta in Hrun. fold entry in Hrun.
  assert (Hje : json_value entry = true) by (by apply json_log_entry).
  assert (Hjlog : json_value (VArr (firstn 100 (entry :: l))) = true).
  { cbn [json_value]. apply forallb_firstn. cbn [forallb]. rewrite Hje. exact Hjl. }
  eexists _, _. split.
  - rewrite Hrun. unfold bind at 1, addToMasterLog. cbn [masterLogKey].
    unfold bind at 1. rewrite item_or_empty_unfold, <- Hk.
    rewrite lookup_insert_eq, stored_nonempty. cbn [negb].
    unfold bind at 1, lift at 1. rewrite JSON_parse_stored by done.
    unfold bind at 1, lift at 1. cbn [unshift as_array rbind firstn].
    reflexivity.
  - cbn [activityLog]. split; [reflexivity|]. by rewrite lookup_insert_eq.
Qed.

Lemma logActivity_master_page_witness :
  new_ActivityLogger (VStr "master") ∅ = (Ok master_logger, ∅) /\
  exists this' st',
    logActivity 0 (VStr "Added") (VStr "Bat") master_logger ∅ = (Ok this', st') /\
    st' !! "master_activity_log" =
      Some (stored (VArr [log_entry "1970-01-01T00:00:00.000Z" (VStr "Added")
                            (VStr "Bat") (VStr "master");
                          log_entry "1970-01-01T00:00:00.000Z" (VStr "Added")
                            (VStr "Bat") (VStr "master")])).
Proof.
  destruct (logActivity_master_page 0 (VStr "Added") (VStr "Bat") master_logger
              ∅ [] "1970-01-01T00:00:00.000Z")
    as (this' & st' & Hrun & _ & Hkey); try reflexivity.
  split; [reflexivity|].
  exists this', st'. split; [exact Hrun | exact Hkey].
Defined.

(** X24: [clearMasterLog] starts the master log afresh and leaves the
    page logs alone: after it [getMasterLog] returns the empty list and
    every other key holds what it held; an entry logged next is then the
    only entry of the master log. *)
Theorem clearMasterLog_restarts now action details this (st : Storage) l ts :
  activityLog this = VArr l ->
  toISOString now = Ok ts ->
  masterLogKey this = "master_activity_log" ->
  storageKey this <> "master_activity_log" ->
  json_value action = true -> json_value details = true ->
  json_value (pageName this) = true ->
  let st0 := snd (clearMasterLog st) in
  getMasterLog st0 = (Ok (VArr []), st0) /\
  (forall k, k <> "master_activity_log" -> st0 !! k = st !! k) /\
  exists this' st',
    logActivity now action details this st0 = (Ok this', st') /\
    getMasterLog st' =
      (Ok (VArr [log_entry ts action details (pageName this)]), st').
Proof.
  intros Hl Hts Hmk Hne Hja Hjd Hjp st0.
  assert (H0 : getMasterLog st0 = (Ok (VArr []), st0)).
  { rewrite getMasterLog_unfold. unfold st0, clearMasterLog, setItem. cbn [snd].
    by rewrite lookup_insert_eq. }
  split; [exact H0|]. split.
  { intros k Hk. unfold st0, clearMasterLog, setItem. cbn [snd].
    by rewrite lookup_insert_ne. }
  rewrite getMasterLog_unfold in H0. injection H0 as H0.
  pose proof (logActivity_run now action details this st0 l ts [] _ Hl Hts
                ltac:(by rewrite Hmk)
                ltac:(rewrite Hmk; apply item_or_empty_unfold) H0) as Hrun.
  cbv zeta in Hrun. rewrite Hmk in Hrun.
  eexists _, _. split; [exact Hrun|].
  rewrite getMasterLog_unfold, lookup_insert_eq, stored_nonempty. cbn [negb].
  rewrite JSON_parse_stored; [done|].
  cbn [json_value forallb]. by rewrite json_log_entry.
Qed.

Lemma clearMasterLog_restarts_witness :
  let st0 := snd (clearMasterLog {["master_activity_log" := "{oops"]}) in
  getMasterLog st0 = (Ok (VArr []), st0).
Proof.
  exact (proj1 (clearMasterLog_restarts 0 (VStr "Added") (VStr "Bat") inventory_logger
                  {["master_activity_log" := "{oops"]} [] "1970-01-01T00:00:00.000Z"
                  eq_refl eq_refl eq_refl ltac:(discriminate) eq_refl eq_refl eq_refl)).
Defined.
